(** * IMMICHDynamicAlbums: condition trees, resolution post-filter and
      proximity matcher

    A shallow embedding of [src/conditions.py] and [src/fuzzy_matcher.py].

    Conventions of the embedding.
    - Python sets of asset identifiers are [gset string]; lists are [list].
    - [Optional[T]] is [option T]; Python truthiness ([if x:]) is written out
      by the [truthy_*] functions below.
    - A [ConditionNode] is the triple of attributes its constructor stores.
      [optimize] assigns [self.children] in place and returns [self], one of
      its descendants or a fresh leaf; children are owned by one parent only,
      so the tree it returns is the value computed here.
    - The Immich client is a record of two pure functions: the paginated
      search ([search_assets], treated as one logical call) and the per-asset
      metadata fetch ([get_asset_metadata], [None] when the call raises).
      Every call is recorded in an event log, so that "no oracle call" is a
      statement about the log.
    - Thread pools are run in submission order and sets are walked in the
      order of [elements]; only the set of results and the presence of calls
      are ever stated, never their order.
    - A [datetime] is a number of microseconds, a [timedelta] likewise.
      Python floats (GPS coordinates, distances) are idealised as real
      numbers. *)

From Stdlib Require Import ZArith Reals Lra.
From stdpp Require Import gmap strings list.

Set Warnings "-register-all,-clear-no-such-hyp".

(** ** Data model ([conditions.py], lines 18-64) *)

Inductive ConditionType := AND | OR | LEAF.

#[global] Instance ConditionType_eq_dec : EqDecision ConditionType.
Proof. solve_decision. Defined.

Record FilterCondition := mkFilterCondition {
  is_favorite : option bool;
  asset_types : option (list string);
  camera_make : option string;
  camera_model : option string;
  person_ids : option (list string);
  include_tags : option (list string);
  exclude_tags : option (list string);
  resolution : option (list (list Z));
}.

#[global] Instance FilterCondition_eq_dec : EqDecision FilterCondition.
Proof. solve_decision. Defined.

(** [FilterCondition()] : every field at its default [None]. *)
Definition FilterCondition_default : FilterCondition :=
  mkFilterCondition None None None None None None None None.

Definition is_not_None {A} (o : option A) : bool :=
  match o with Some _ => true | None => false end.

Definition has_filters (c : FilterCondition) : bool :=
  is_not_None (is_favorite c) || is_not_None (asset_types c)
  || is_not_None (camera_make c) || is_not_None (camera_model c)
  || is_not_None (person_ids c) || is_not_None (include_tags c)
  || is_not_None (exclude_tags c) || is_not_None (resolution c).

(** Truthiness of an optional string and of an optional list: [None], the
    empty string and the empty list are falsy. *)
Definition truthy_str (s : option string) : bool :=
  match s with Some (String _ _) => true | _ => false end.

Definition truthy_list {A} (l : option (list A)) : bool :=
  match l with Some (_ :: _) => true | _ => false end.

(** A [ConditionNode] object: the three attributes set by [__init__]
    ([children or []] is the list itself). *)
Inductive ConditionNode :=
  Node (node_type : ConditionType) (children : list ConditionNode)
       (condition : option FilterCondition).

Definition node_type (n : ConditionNode) : ConditionType :=
  match n with Node ty _ _ => ty end.
Definition children (n : ConditionNode) : list ConditionNode :=
  match n with Node _ cs _ => cs end.
Definition condition (n : ConditionNode) : option FilterCondition :=
  match n with Node _ _ c => c end.

(** [ConditionNode(ConditionType.LEAF, condition=c)] *)
Definition leaf (c : FilterCondition) : ConditionNode := Node LEAF [] (Some c).

Definition is_logical (ty : ConditionType) : bool :=
  match ty with AND | OR => true | LEAF => false end.

(** The validation of [ConditionNode.__init__] (lines 115-121), checked at
    every node of a tree: a tree built through the constructor satisfies it. *)
Fixpoint well_formed (n : ConditionNode) : bool :=
  match n with
  | Node ty cs cond =>
      forallb well_formed cs &&
      match ty with
      | LEAF => is_not_None cond
      | _ => negb (bool_decide (cs = []))
      end
  end.

(** ** The optimizer ([conditions.py], lines 373-478) *)

(** Outcome of merging one child's condition into [combined_condition]:
    the loop goes on, [return None], or the early [return] of an empty leaf. *)
Inductive merge_outcome :=
  | Merged (combined : FilterCondition)
  | CannotCombine
  | NoResultsPossible.

Definition merge_bind (o : merge_outcome) (k : FilterCondition → merge_outcome)
  : merge_outcome :=
  match o with Merged c => k c | other => other end.

Definition set_is_favorite (v : option bool) (c : FilterCondition) :=
  mkFilterCondition v (asset_types c) (camera_make c) (camera_model c)
    (person_ids c) (include_tags c) (exclude_tags c) (resolution c).
Definition set_asset_types (v : option (list string)) (c : FilterCondition) :=
  mkFilterCondition (is_favorite c) v (camera_make c) (camera_model c)
    (person_ids c) (include_tags c) (exclude_tags c) (resolution c).
Definition set_camera_make (v : option string) (c : FilterCondition) :=
  mkFilterCondition (is_favorite c) (asset_types c) v (camera_model c)
    (person_ids c) (include_tags c) (exclude_tags c) (resolution c).
Definition set_camera_model (v : option string) (c : FilterCondition) :=
  mkFilterCondition (is_favorite c) (asset_types c) (camera_make c) v
    (person_ids c) (include_tags c) (exclude_tags c) (resolution c).
Definition set_person_ids (v : option (list string)) (c : FilterCondition) :=
  mkFilterCondition (is_favorite c) (asset_types c) (camera_make c)
    (camera_model c) v (include_tags c) (exclude_tags c) (resolution c).

(** [list(set(a) & set(b))]; Python leaves the order of the list
    unspecified, here it is the order of [elements]. *)
Definition asset_type_intersection (a b : list string) : list string :=
  elements ((list_to_set a : gset string) ∩ list_to_set b).

(** Lines 438-442. *)
Definition merge_is_favorite (cond combined : FilterCondition) : merge_outcome :=
  match is_favorite cond with
  | Some f =>
      match is_favorite combined with
      | Some _ => CannotCombine
      | None => Merged (set_is_favorite (Some f) combined)
      end
  | None => Merged combined
  end.

(** Lines 444-454. *)
Definition merge_asset_types (cond combined : FilterCondition) : merge_outcome :=
  match asset_types cond with
  | Some ts =>
      match asset_types combined with
      | Some cur =>
          match asset_type_intersection cur ts with
          | [] => NoResultsPossible
          | both => Merged (set_asset_types (Some both) combined)
          end
      | None => Merged (set_asset_types (Some ts) combined)
      end
  | None => Merged combined
  end.

(** Lines 456-460. *)
Definition merge_camera_make (cond combined : FilterCondition) : merge_outcome :=
  if truthy_str (camera_make cond) then
    if truthy_str (camera_make combined)
       && negb (bool_decide (camera_make combined = camera_make cond))
    then CannotCombine
    else Merged (set_camera_make (camera_make cond) combined)
  else Merged combined.

(** Lines 462-466. *)
Definition merge_camera_model (cond combined : FilterCondition) : merge_outcome :=
  if truthy_str (camera_model cond) then
    if truthy_str (camera_model combined)
       && negb (bool_decide (camera_model combined = camera_model cond))
    then CannotCombine
    else Merged (set_camera_model (camera_model cond) combined)
  else Merged combined.

(** Lines 468-474. *)
Definition merge_person_ids (cond combined : FilterCondition) : merge_outcome :=
  if truthy_list (person_ids cond) then
    match person_ids combined with
    | Some _ => CannotCombine
    | None => Merged (set_person_ids (person_ids cond) combined)
    end
  else Merged combined.

(** One iteration of the loop body (lines 435-474). *)
Definition merge_child (cond combined : FilterCondition) : merge_outcome :=
  merge_bind (merge_is_favorite cond combined) (fun c1 =>
  merge_bind (merge_asset_types cond c1) (fun c2 =>
  merge_bind (merge_camera_make cond c2) (fun c3 =>
  merge_bind (merge_camera_model cond c3) (fun c4 =>
  merge_person_ids cond c4)))).

(** The [for child in self.children] loop of [_combine_and_leaves]. *)
Fixpoint combine_loop (cs : list ConditionNode) (combined : FilterCondition)
  : option ConditionNode :=
  match cs with
  | [] => Some (leaf combined)
  | child :: rest =>
      match condition child with
      | None => combine_loop rest combined
      | Some cond =>
          match merge_child cond combined with
          | Merged combined' => combine_loop rest combined'
          | CannotCombine => None
          | NoResultsPossible => Some (leaf FilterCondition_default)
          end
      end
  end.

Definition _combine_and_leaves (self : ConditionNode) : option ConditionNode :=
  if forallb (fun child => bool_decide (node_type child = LEAF)) (children self)
  then combine_loop (children self) FilterCondition_default
  else None.

(** Optimization 1 (lines 390-398). *)
Definition flatten_children (ty : ConditionType) (cs : list ConditionNode)
  : list ConditionNode :=
  flat_map (fun child =>
    if bool_decide (node_type child = ty) then children child else [child]) cs.

(** Optimizations 2 and 3 (lines 400-415), on the node whose children were
    already optimized and flattened. *)
Definition simplify (self : ConditionNode) : ConditionNode :=
  match (if bool_decide (node_type self = AND)
         then _combine_and_leaves self else None) with
  | Some combined => combined
  | None =>
      if is_logical (node_type self) then
        match children self with
        | [only] => only
        | [] => leaf FilterCondition_default
        | _ => self
        end
      else self
  end.

Fixpoint optimize (self : ConditionNode) : ConditionNode :=
  match self with
  | Node ty cs cond =>
      let cs1 := map optimize cs in
      let cs2 := if is_logical ty then flatten_children ty cs1 else cs1 in
      simplify (Node ty cs2 cond)
  end.

(** The shape of the trees [optimize] returns. *)
Inductive Optimized : ConditionNode → Prop :=
  | Optimized_leaf cs cond :
      Forall Optimized cs → Optimized (Node LEAF cs cond)
  | Optimized_and cs cond :
      Forall Optimized cs →
      Forall (fun c => node_type c ≠ AND) cs →
      _combine_and_leaves (Node AND cs cond) = None →
      (2 ≤ length cs)%nat →
      Optimized (Node AND cs cond)
  | Optimized_or cs cond :
      Forall Optimized cs →
      Forall (fun c => node_type c ≠ OR) cs →
      (2 ≤ length cs)%nat →
      Optimized (Node OR cs cond).

(** ** The client and the event log *)

(** Keyword arguments of [ImmichClient.search_assets] that this code passes;
    a key left out of the call is [None], the default of the signature. *)
Record search_params := mkSearchParams {
  sp_taken_after : option string;
  sp_taken_before : option string;
  sp_created_after : option string;
  sp_created_before : option string;
  sp_is_favorite : option bool;
  sp_asset_types : option (list string);
  sp_camera_make : option string;
  sp_camera_model : option string;
  sp_include_people_ids : option (list string);
  sp_default_to_image : bool;
}.

(** The date-filter dictionary built by [Rule.execute]: a missing key is
    [None]. *)
Record DateFilters := mkDateFilters {
  taken_after : option string;
  taken_before : option string;
  created_after : option string;
  created_before : option string;
}.

(** The part of an asset's JSON that the two modules read.  For a value read
    with [d.get(key)], a missing key and a JSON [null] are both [None]. *)
Record ExifInfo := mkExifInfo {
  exifImageWidth : option Z;
  exifImageHeight : option Z;
  dateTimeOriginal : option string;
  exif_latitude : option R;
  exif_longitude : option R;
}.

(** What the asset holds under ['exifInfo'], read with the default [{}]:
    there the missing key and the JSON [null] differ. *)
Inductive ExifField :=
  | ExifMissing
  | ExifNull
  | ExifDict (exif : ExifInfo).

Record AssetData := mkAssetData {
  asset_json_id : string;
  exifInfo : ExifField;
  originalWidth : option Z;
  originalHeight : option Z;
  fileCreatedAt : option string;
  fileModifiedAt : option string;
}.

(** The empty dictionary [{}]. *)
Definition exif_absent : ExifInfo := mkExifInfo None None None None None.

Record Client := mkClient {
  search_assets : search_params → gset string;
  get_asset_metadata : string → option AssetData;
}.

Inductive event :=
  | SearchCall (p : search_params)
  | MetadataCall (asset_id : string).

(** Computations that log their client calls. *)
Definition Logged (A : Type) : Type := A * list event.

Definition ret {A} (a : A) : Logged A := (a, []).
Definition bind {A B} (m : Logged A) (k : A → Logged B) : Logged B :=
  let '(a, l1) := m in let '(b, l2) := k a in (b, l1 ++ l2).
Definition call_search (client : Client) (p : search_params) : Logged (gset string) :=
  (search_assets client p, [SearchCall p]).
Definition call_metadata (client : Client) (asset_id : string)
  : Logged (option AssetData) :=
  (get_asset_metadata client asset_id, [MetadataCall asset_id]).

Notation "'let!' x ':=' m 'in' k" := (bind m (fun x => k))
  (at level 10, x name, m at level 100, k at level 200, only parsing).

(** ** Exceptions *)

(** What the code can raise.  [ParserError] is the failure of
    [dateutil.parser.parse]; [AttributeError] names the attribute looked up
    on an object that lacks it; [Unvalidated] marks a field value of a type
    that [validation.py] rejects before any tree is built: Python would store
    it unchecked, the typed [FilterCondition] above cannot hold it. *)
Inductive error :=
  | ValueError (msg : string)
  | AttributeError (attr : string)
  | ParserError (text : string)
  | Unvalidated (field : string).

Definition result (A : Type) : Type := error + A.

Definition raise {A} (e : error) : result A := inl e.
Definition ok {A} (a : A) : result A := inr a.
Definition result_bind {A B} (r : result A) (k : A → result B) : result B :=
  match r with inl e => inl e | inr a => k a end.

Notation "'try!' x ':=' r 'in' k" := (result_bind r (fun x => k))
  (at level 10, x name, r at level 100, k at level 200, only parsing).

(** [asset.get('exifInfo', {})] followed by the first [exif.get(...)]: the
    default [{}] replaces a missing key only.  Under a JSON [null] the
    lookup returns [None], and [None.get] raises [AttributeError]. *)
Definition get_exifInfo (asset : AssetData) : result ExifInfo :=
  match exifInfo asset with
  | ExifMissing => ok exif_absent
  | ExifNull => raise (AttributeError "get")
  | ExifDict exif => ok exif
  end.

(** ** Resolution post-filter ([conditions.py], lines 487-592) *)

(** Truthiness of a JSON number: [None] and [0] are falsy. *)
Definition truthy_int (v : option Z) : bool :=
  match v with Some z => negb (z =? 0)%Z | None => false end.

(** [(int(w), int(h))] for two values already known to be truthy. *)
Definition int_pair (w h : option Z) : option (Z * Z) :=
  match w, h with
  | Some w, Some h => Some (w, h)
  | _, _ => None
  end.

(** Lines 561-592. *)
Definition _extract_resolution (asset : AssetData) : result (option (Z * Z)) :=
  try! exif := get_exifInfo asset in
  let exif_width := exifImageWidth exif in
  let exif_height := exifImageHeight exif in
  if truthy_int exif_width && truthy_int exif_height
  then ok (int_pair exif_width exif_height)
  else
    let orig_width := originalWidth asset in
    let orig_height := originalHeight asset in
    if truthy_int orig_width && truthy_int orig_height
    then ok (int_pair orig_width orig_height)
    else ok None.

(** [resolution in target_set], where [target_set] holds [tuple(res)] for
    every [res] of [target_resolutions]: the pair is a member exactly when
    the two-element list is. *)
Definition resolution_in_targets (r : Z * Z) (targets : list (list Z)) : bool :=
  bool_decide ([r.1; r.2] ∈ targets).

(** [check_single_asset] (lines 536-548): the asset id when it matches, else
    [None]; the [except Exception] catches a failed fetch and an exception
    of [_extract_resolution] alike, and gives [None]. *)
Definition check_single_asset (client : Client) (targets : list (list Z))
    (asset_id : string) : Logged (option string) :=
  let! asset_data := call_metadata client asset_id in
  ret (match asset_data with
       | Some data =>
           match _extract_resolution data with
           | inr (Some r) =>
               if resolution_in_targets r targets then Some asset_id else None
           | inr None => None
           | inl _ => None
           end
       | None => None
       end).

(** The loop over the futures (lines 551-556): [if result:] adds a result
    that is neither [None] nor the empty string. *)
Fixpoint collect_matching (client : Client) (targets : list (list Z))
    (ids : list string) (matching : gset string) : Logged (gset string) :=
  match ids with
  | [] => ret matching
  | aid :: rest =>
      let! r := check_single_asset client targets aid in
      collect_matching client targets rest
        (if truthy_str r then matching ∪ {[default "" r]} else matching)
  end.

Definition filter_by_resolution (client : Client) (asset_ids : gset string)
    (target_resolutions : list (list Z)) : Logged (gset string) :=
  if bool_decide (asset_ids = ∅) || bool_decide (target_resolutions = [])
  then ret ∅
  else collect_matching client target_resolutions (elements asset_ids) ∅.

(** ** The evaluator ([conditions.py], lines 244-371) *)

(** The keyword arguments built by [_evaluate_leaf] (lines 326-351), for a
    person list that is not the empty one. *)
Definition leaf_search_params (date_filters : option DateFilters)
    (c : FilterCondition) : search_params :=
  let d := default (mkDateFilters None None None None) date_filters in
  mkSearchParams (taken_after d) (taken_before d) (created_after d)
    (created_before d)
    (is_favorite c) (asset_types c)
    (if truthy_str (camera_make c) then camera_make c else None)
    (if truthy_str (camera_model c) then camera_model c else None)
    (person_ids c)
    true.

Definition _evaluate_leaf (client : Client) (cond : option FilterCondition)
    (base_assets : option (gset string)) (date_filters : option DateFilters)
  : Logged (gset string) :=
  match cond with
  | None => ret (default ∅ base_assets)
  | Some c =>
      if negb (has_filters c) then ret (default ∅ base_assets)
      else
        match person_ids c with
        | Some [] => ret ∅
        | _ =>
            let! found := call_search client (leaf_search_params date_filters c) in
            let asset_ids :=
              match base_assets with
              | Some base => found ∩ base
              | None => found
              end in
            if truthy_list (resolution c) && negb (bool_decide (asset_ids = ∅))
            then filter_by_resolution client asset_ids (default [] (resolution c))
            else ret asset_ids
        end
  end.

(** The loop of the AND branch (lines 270-286); [result] is the accumulator,
    [None] before the first child. *)
Fixpoint and_loop (eval : ConditionNode → Logged (gset string))
    (cs : list ConditionNode) (result : option (gset string))
  : Logged (gset string) :=
  match cs with
  | [] => ret (default ∅ result)
  | child :: rest =>
      let! child_result := eval child in
      let result' :=
        match result with
        | None => child_result
        | Some r => r ∩ child_result
        end in
      if bool_decide (result' = ∅) then ret ∅
      else and_loop eval rest (Some result')
  end.

(** The loop of the OR branch (lines 290-299). *)
Fixpoint or_loop (eval : ConditionNode → Logged (gset string))
    (cs : list ConditionNode) (result : gset string) : Logged (gset string) :=
  match cs with
  | [] => ret result
  | child :: rest =>
      let! child_result := eval child in
      or_loop eval rest (result ∪ child_result)
  end.

Fixpoint evaluate (client : Client) (self : ConditionNode)
    (base_assets : option (gset string)) (date_filters : option DateFilters)
  : Logged (gset string) :=
  match self with
  | Node LEAF _ cond => _evaluate_leaf client cond base_assets date_filters
  | Node AND cs _ =>
      match cs with
      | [] => ret ∅
      | _ => and_loop (fun child => evaluate client child base_assets date_filters)
               cs None
      end
  | Node OR cs _ =>
      or_loop (fun child => evaluate client child base_assets date_filters) cs ∅
  end.

(** The asset-id set an evaluation returns, and the calls it made. *)
Definition result_of {A} (m : Logged A) : A := m.1.
Definition calls_of {A} (m : Logged A) : list event := m.2.

(** No leaf combination takes place anywhere while [optimize] runs on the
    tree: at every AND node, [_combine_and_leaves] returns [None] on the
    optimized and flattened children. *)
Fixpoint merge_free (n : ConditionNode) : bool :=
  match n with
  | Node ty cs cond =>
      forallb merge_free cs &&
      match ty with
      | AND =>
          bool_decide
            (_combine_and_leaves
               (Node AND (flatten_children AND (map optimize cs)) cond) = None)
      | _ => true
      end
  end.

(** ** Tree construction ([conditions.py], lines 97-242) *)

(** A configuration value as the YAML loader returns it.  A mapping keeps its
    entries in order; a key is looked up at its first entry. *)
Inductive config :=
  | CNone
  | CBool (b : bool)
  | CInt (z : Z)
  | CStr (s : string)
  | CList (items : list config)
  | CDict (entries : list (string * config)).

(** A list comprehension whose body can raise: the first exception leaves. *)
Definition map_result {A B} (f : A → result B) : list A → result (list B) :=
  fix go (l : list A) : result (list B) :=
    match l with
    | [] => ok []
    | a :: rest =>
        try! b := f a in
        try! bs := go rest in
        ok (b :: bs)
    end.

(** [key in d] and [d[key]] / [d.get(key)], in continuation style: [found]
    receives the value stored under [key], [missing] is the result when the
    key is absent. *)
Definition dict_find {A} (key : string) (found : config → A) (missing : A)
  : list (string * config) → A :=
  fix go (entries : list (string * config)) : A :=
    match entries with
    | [] => missing
    | (k, v) :: rest => if String.eqb k key then found v else go rest
    end.

Definition dict_get (key : string) (entries : list (string * config))
  : option config :=
  dict_find key Some None entries.

(** [type(config).__name__] *)
Definition type_name (c : config) : string :=
  match c with
  | CNone => "NoneType"
  | CBool _ => "bool"
  | CInt _ => "int"
  | CStr _ => "str"
  | CList _ => "list"
  | CDict _ => "dict"
  end.

(** Truthiness of a configuration value. *)
Definition truthy_config (c : config) : bool :=
  match c with
  | CNone => false
  | CBool b => b
  | CInt z => negb (z =? 0)%Z
  | CStr s => negb (bool_decide (s = ""))
  | CList items => negb (bool_decide (items = []))
  | CDict entries => negb (bool_decide (entries = []))
  end.

(** [ConditionNode.__init__] with its validation (lines 111-121). *)
Definition ConditionNode_init (ty : ConditionType) (cs : list ConditionNode)
    (cond : option FilterCondition) : result ConditionNode :=
  match ty with
  | AND => if bool_decide (cs = [])
           then raise (ValueError "and node must have at least one child")
           else ok (Node AND cs cond)
  | OR => if bool_decide (cs = [])
          then raise (ValueError "or node must have at least one child")
          else ok (Node OR cs cond)
  | LEAF => match cond with
            | None => raise (ValueError "LEAF node must have a condition")
            | Some _ => ok (Node LEAF cs cond)
            end
  end.

(** [str.upper], on ASCII letters. *)
Definition upper_ascii (a : Ascii.ascii) : Ascii.ascii :=
  let n := Ascii.nat_of_ascii a in
  if (97 <=? n)%nat && (n <=? 122)%nat then Ascii.ascii_of_nat (n - 32) else a.

Fixpoint upper (s : string) : string :=
  match s with
  | EmptyString => EmptyString
  | String a rest => String (upper_ascii a) (upper rest)
  end.

Definition config_str (field : string) (c : config) : result string :=
  match c with CStr s => ok s | _ => raise (Unvalidated field) end.

Definition config_opt_str (field : string) (c : option config)
  : result (option string) :=
  match c with
  | None | Some CNone => ok None
  | Some (CStr s) => ok (Some s)
  | Some _ => raise (Unvalidated field)
  end.

Definition config_str_list (field : string) (c : config) : result (list string) :=
  match c with
  | CList items => map_result (config_str field) items
  | _ => raise (Unvalidated field)
  end.

Definition config_opt_str_list (field : string) (c : option config)
  : result (option (list string)) :=
  match c with
  | None | Some CNone => ok None
  | Some v => try! l := config_str_list field v in ok (Some l)
  end.

Definition config_int (field : string) (c : config) : result Z :=
  match c with CInt z => ok z | _ => raise (Unvalidated field) end.

Definition config_int_list (field : string) (c : config) : result (list Z) :=
  match c with
  | CList items => map_result (config_int field) items
  | _ => raise (Unvalidated field)
  end.

Definition config_resolutions (c : config) : result (list (list Z)) :=
  match c with
  | CList items => map_result (config_int_list "resolution.include") items
  | _ => raise (Unvalidated "resolution.include")
  end.

(** Lines 193-194. *)
Definition parse_is_favorite (cfg : list (string * config))
    (c : FilterCondition) : result FilterCondition :=
  match dict_get "is_favorite" cfg with
  | None => ok c
  | Some CNone => ok (set_is_favorite None c)
  | Some (CBool b) => ok (set_is_favorite (Some b) c)
  | Some _ => raise (Unvalidated "is_favorite")
  end.

(** Lines 197-201. *)
Definition parse_asset_types (cfg : list (string * config))
    (c : FilterCondition) : result FilterCondition :=
  match dict_get "asset_types" cfg with
  | None => ok c
  | Some v =>
      let items := match v with CList items => items | _ => [v] end in
      try! ts := map_result (fun t =>
                   match t with
                   | CStr s => ok (upper s)
                   | _ => raise (AttributeError "upper")
                   end) items in
      ok (set_asset_types (Some ts) c)
  end.

(** Lines 204-208. *)
Definition parse_camera (cfg : list (string * config))
    (c : FilterCondition) : result FilterCondition :=
  match dict_get "camera" cfg with
  | Some (CDict camera) =>
      try! make := config_opt_str "camera.make" (dict_get "make" camera) in
      try! model := config_opt_str "camera.model" (dict_get "model" camera) in
      ok (set_camera_model model (set_camera_make make c))
  | _ => ok c
  end.

(** Lines 211-225; [people_resolver] is [None] when no resolver is passed. *)
Definition parse_people (people_resolver : option (list string → list string))
    (cfg : list (string * config)) (c : FilterCondition)
  : result FilterCondition :=
  match dict_get "people" cfg with
  | Some (CDict people) =>
      let include_people := default (CList []) (dict_get "include" people) in
      match people_resolver with
      | Some resolve_people_names =>
          if truthy_config include_people then
            try! names := config_str_list "people.include" include_people in
            match resolve_people_names names with
            | [] => ok (set_person_ids (Some []) c)
            | ids => ok (set_person_ids (Some ids) c)
            end
          else ok c
      | None => ok c
      end
  | _ => ok c
  end.

(** Lines 228-232. *)
Definition parse_tags (cfg : list (string * config))
    (c : FilterCondition) : result FilterCondition :=
  match dict_get "tags" cfg with
  | Some (CDict tags) =>
      try! inc := config_opt_str_list "tags.include" (dict_get "include" tags) in
      try! exc := config_opt_str_list "tags.exclude" (dict_get "exclude" tags) in
      ok (mkFilterCondition (is_favorite c) (asset_types c) (camera_make c)
            (camera_model c) (person_ids c) inc exc (resolution c))
  | _ => ok c
  end.

(** Lines 235-240. *)
Definition parse_resolution (cfg : list (string * config))
    (c : FilterCondition) : result FilterCondition :=
  match dict_get "resolution" cfg with
  | Some (CDict res) =>
      let include_resolutions := default (CList []) (dict_get "include" res) in
      if truthy_config include_resolutions then
        try! sizes := config_resolutions include_resolutions in
        ok (mkFilterCondition (is_favorite c) (asset_types c) (camera_make c)
              (camera_model c) (person_ids c) (include_tags c) (exclude_tags c)
              (Some sizes))
      else ok c
  | _ => ok c
  end.

Definition _parse_leaf_condition
    (people_resolver : option (list string → list string))
    (cfg : list (string * config)) : result ConditionNode :=
  try! c1 := parse_is_favorite cfg FilterCondition_default in
  try! c2 := parse_asset_types cfg c1 in
  try! c3 := parse_camera cfg c2 in
  try! c4 := parse_people people_resolver cfg c3 in
  try! c5 := parse_tags cfg c4 in
  try! c6 := parse_resolution cfg c5 in
  ConditionNode_init LEAF [] (Some c6).

(** The branch taken for a logical operator (lines 155-160 and 164-169). *)
Definition build_operator (ty : ConditionType) (msg : string)
    (build : config → result ConditionNode) (operands : config)
  : result ConditionNode :=
  match operands with
  | CList items =>
      try! cs := map_result build items in
      ConditionNode_init ty cs None
  | _ => raise (ValueError msg)
  end.

Fixpoint from_config (people_resolver : option (list string → list string))
    (cfg : config) {struct cfg} : result ConditionNode :=
  match cfg with
  | CDict entries =>
      dict_find "and"
        (build_operator AND "'and:' must be a list of conditions"
           (from_config people_resolver))
        (dict_find "or"
           (build_operator OR "'or:' must be a list of conditions"
              (from_config people_resolver))
           (_parse_leaf_condition people_resolver entries)
           entries)
        entries
  | other =>
      raise (ValueError ("Invalid condition config type: " +:+ type_name other))
  end.

(** ** Proximity matcher ([fuzzy_matcher.py]) *)

Definition MAX_FUZZY_SEEDS : nat := 50.

(** Library functions the module calls: [dateutil.parser.parse] ([None] when
    it raises), [datetime.isoformat] and [random.sample].  A [datetime] is the
    number of microseconds since the epoch. *)
Record Library := mkLibrary {
  parse_iso8601 : string → option Z;
  isoformat : Z → string;
  random_sample : list string → nat → list string;
}.

Record AssetMetadata := mkAssetMetadata {
  asset_id : string;
  timestamp : option Z;
  latitude : option R;
  longitude : option R;
}.

(** A [FuzzyMatcher] object; [time_window] is the [timedelta] in
    microseconds. *)
Record FuzzyMatcher := mkFuzzyMatcher {
  fm_client : Client;
  time_window : Z;
  location_radius : R;
}.

(** [FuzzyMatcher.__init__] (lines 50-52). *)
Definition FuzzyMatcher_init (client : Client) (time_window_minutes : Z)
    (location_radius_meters : R) : FuzzyMatcher :=
  mkFuzzyMatcher client (time_window_minutes * 60 * 1000000)%Z
    location_radius_meters.

(** Truthiness of an optional float: [None] and [0.0] are falsy. *)
Definition truthy_float (x : option R) : bool :=
  match x with
  | Some r => if Req_dec_T r 0 then false else true
  | None => false
  end.

(** One [if asset.get(key): try: parse(...)] step of [_extract_metadata]. *)
Definition parse_timestamp_field (lib : Library) (field : option string)
  : option Z :=
  match field with
  | Some text => if truthy_str field then parse_iso8601 lib text else None
  | None => None
  end.

(** Lines 143-191. *)
Definition _extract_metadata (lib : Library) (asset : AssetData)
  : result (option AssetMetadata) :=
  try! exif := get_exifInfo asset in
  let t1 := parse_timestamp_field lib (dateTimeOriginal exif) in
  let t2 := match t1 with
            | Some t => Some t
            | None => parse_timestamp_field lib (fileCreatedAt asset)
            end in
  let t3 := match t2 with
            | Some t => Some t
            | None => parse_timestamp_field lib (fileModifiedAt asset)
            end in
  match t3 with
  | None => ok None
  | Some t =>
      ok (Some (mkAssetMetadata (asset_json_id asset) (Some t)
                  (exif_latitude exif) (exif_longitude exif)))
  end.

(** [fetch_single] (lines 123-130): the [except Exception] catches a failed
    fetch and an exception of [_extract_metadata] alike. *)
Definition fetch_single (lib : Library) (client : Client) (aid : string)
  : Logged (option AssetMetadata) :=
  let! asset_data := call_metadata client aid in
  ret (match asset_data with
       | Some data =>
           match _extract_metadata lib data with
           | inr metadata => metadata
           | inl _ => None
           end
       | None => None
       end).

Fixpoint fetch_all (lib : Library) (client : Client) (ids : list string)
  : Logged (list AssetMetadata) :=
  match ids with
  | [] => ret []
  | aid :: rest =>
      let! r := fetch_single lib client aid in
      let! others := fetch_all lib client rest in
      ret (match r with Some m => m :: others | None => others end)
  end.

(** Lines 111-141. *)
Definition _fetch_asset_metadata (lib : Library) (self : FuzzyMatcher)
    (asset_ids : gset string) : Logged (list AssetMetadata) :=
  fetch_all lib (fm_client self) (elements asset_ids).

Definition usable_timestamps (metadata_list : list AssetMetadata) : list Z :=
  omap timestamp metadata_list.

Definition parse_rule_date (lib : Library) (text : string) : result Z :=
  match parse_iso8601 lib text with
  | Some t => ok t
  | None => raise (ParserError text)
  end.

(** Lines 193-239. *)
Definition _calculate_time_boundaries (lib : Library) (self : FuzzyMatcher)
    (metadata_list : list AssetMetadata) (rule_date_filters : DateFilters)
  : result (Z * Z) :=
  match usable_timestamps metadata_list with
  | [] => raise (ValueError "No valid timestamps found in metadata")
  | t :: ts =>
      let min_time := foldr Z.min t ts in
      let max_time := foldr Z.max t ts in
      let start_time := (min_time - time_window self)%Z in
      let end_time := (max_time + time_window self)%Z in
      try! start_time :=
        match taken_after rule_date_filters with
        | Some text => try! rule_start := parse_rule_date lib text in
                       ok (Z.max start_time rule_start)
        | None => ok start_time
        end in
      try! end_time :=
        match taken_before rule_date_filters with
        | Some text => try! rule_end := parse_rule_date lib text in
                       ok (Z.min end_time rule_end)
        | None => ok end_time
        end in
      try! start_time :=
        match created_after rule_date_filters with
        | Some text => try! rule_start := parse_rule_date lib text in
                       ok (Z.max start_time rule_start)
        | None => ok start_time
        end in
      try! end_time :=
        match created_before rule_date_filters with
        | Some text => try! rule_end := parse_rule_date lib text in
                       ok (Z.min end_time rule_end)
        | None => ok end_time
        end in
      ok (start_time, end_time)
  end.

(** Lines 241-282. *)
Definition _query_candidates (lib : Library) (self : FuzzyMatcher)
    (start_time end_time : Z) (rule_date_filters : DateFilters)
  : Logged (gset string) :=
  let use_taken_date :=
    is_not_None (taken_after rule_date_filters)
    || is_not_None (taken_before rule_date_filters) in
  if use_taken_date then
    call_search (fm_client self)
      (mkSearchParams (Some (isoformat lib start_time))
         (Some (isoformat lib end_time)) None None
         None (Some ["IMAGE"; "VIDEO"]) None None None false)
  else
    call_search (fm_client self)
      (mkSearchParams None None (Some (isoformat lib start_time))
         (Some (isoformat lib end_time))
         None (Some ["IMAGE"; "VIDEO"]) None None None false).

Definition radians (x : R) : R := (x * (PI / 180))%R.

(** Lines 340-373. *)
Definition _haversine_distance (lat1 lon1 lat2 lon2 : R) : R :=
  let R_earth := 6371000%R in
  let lat1_rad := radians lat1 in
  let lon1_rad := radians lon1 in
  let lat2_rad := radians lat2 in
  let lon2_rad := radians lon2 in
  let dlat := (lat2_rad - lat1_rad)%R in
  let dlon := (lon2_rad - lon1_rad)%R in
  let a := (sin (dlat / 2) ^ 2
            + cos lat1_rad * cos lat2_rad * sin (dlon / 2) ^ 2)%R in
  let c := (2 * asin (sqrt a))%R in
  (R_earth * c)%R.

(** The body of the inner loop (lines 315-335) for one seed: [true] when the
    loop reaches [fuzzy_matches.add] for it. *)
Definition within_proximity (self : FuzzyMatcher) (candidate_time : Z)
    (candidate exact : AssetMetadata) : bool :=
  match timestamp exact with
  | None => false
  | Some exact_time =>
      let time_diff := Z.abs (candidate_time - exact_time) in
      if (time_diff >? time_window self)%Z then false
      else
        match latitude candidate, longitude candidate,
              latitude exact, longitude exact with
        | Some clat, Some clon, Some elat, Some elon =>
            if truthy_float (Some clat) && truthy_float (Some clon)
               && truthy_float (Some elat) && truthy_float (Some elon)
            then
              let distance := _haversine_distance clat clon elat elon in
              if Rgt_dec distance (location_radius self) then false else true
            else true
        | _, _, _, _ => true
        end
  end.

(** The inner [for exact in exact_metadata] loop with its [break]. *)
Fixpoint near_any_seed (self : FuzzyMatcher) (candidate_time : Z)
    (candidate : AssetMetadata) (exact_metadata : list AssetMetadata) : bool :=
  match exact_metadata with
  | [] => false
  | exact :: rest =>
      if within_proximity self candidate_time candidate exact then true
      else near_any_seed self candidate_time candidate rest
  end.

(** The outer [for candidate in candidate_metadata] loop. *)
Fixpoint proximity_loop (self : FuzzyMatcher)
    (candidate_metadata exact_metadata : list AssetMetadata)
    (fuzzy_matches : gset string) : gset string :=
  match candidate_metadata with
  | [] => fuzzy_matches
  | candidate :: rest =>
      proximity_loop self rest exact_metadata
        (match timestamp candidate with
         | None => fuzzy_matches
         | Some candidate_time =>
             if near_any_seed self candidate_time candidate exact_metadata
             then fuzzy_matches ∪ {[asset_id candidate]}
             else fuzzy_matches
         end)
  end.

(** Lines 284-338. *)
Definition _filter_by_proximity (lib : Library) (self : FuzzyMatcher)
    (candidates : gset string) (exact_metadata : list AssetMetadata)
  : Logged (gset string) :=
  if bool_decide (candidates = ∅) then ret ∅
  else
    let! candidate_metadata := _fetch_asset_metadata lib self candidates in
    match candidate_metadata with
    | [] => ret ∅
    | _ => ret (proximity_loop self candidate_metadata exact_metadata ∅)
    end.

(** The seeds of an invocation (lines 76-80): the identifiers whose metadata
    is fetched. *)
Definition seeds_of (lib : Library) (exact_match_ids : gset string) : gset string :=
  if (MAX_FUZZY_SEEDS <? size exact_match_ids)%nat
  then list_to_set (random_sample lib (elements exact_match_ids) MAX_FUZZY_SEEDS)
  else exact_match_ids.

(** Lines 54-109. *)
Definition find_related_assets (lib : Library) (self : FuzzyMatcher)
    (exact_match_ids : gset string) (rule_date_filters : DateFilters)
  : Logged (result (gset string)) :=
  if bool_decide (exact_match_ids = ∅) then ret (ok ∅)
  else
    let sampled_ids := seeds_of lib exact_match_ids in
    let! exact_metadata := _fetch_asset_metadata lib self sampled_ids in
    match exact_metadata with
    | [] => ret (ok ∅)
    | _ =>
        match _calculate_time_boundaries lib self exact_metadata rule_date_filters with
        | inl e => ret (raise e)
        | inr (start_time, end_time) =>
            let! candidates :=
              _query_candidates lib self start_time end_time rule_date_filters in
            if bool_decide (candidates = ∅) then ret (ok ∅)
            else
              let! fuzzy_matches :=
                _filter_by_proximity lib self candidates exact_metadata in
              ret (ok (fuzzy_matches ∖ exact_match_ids))
        end
    end.

(** ** Set algebra of the evaluator *)

(** Intersection of a list of result sets; [None] for the empty list. *)
Definition meet (a b : option (gset string)) : option (gset string) :=
  match a, b with
  | None, x => x
  | x, None => x
  | Some x, Some y => Some (x ∩ y)
  end.

Fixpoint intersection_of (l : list (gset string)) : option (gset string) :=
  match l with
  | [] => None
  | x :: xs => meet (Some x) (intersection_of xs)
  end.

(** ** Concrete trees and clients used in the examples *)

Definition only_asset_types (ts : list string) : FilterCondition :=
  set_asset_types (Some ts) FilterCondition_default.
Definition only_is_favorite (b : bool) : FilterCondition :=
  set_is_favorite (Some b) FilterCondition_default.
Definition only_person_ids (ids : list string) : FilterCondition :=
  set_person_ids (Some ids) FilterCondition_default.
Definition only_resolution (sizes : list (list Z)) : FilterCondition :=
  mkFilterCondition None None None None None None None (Some sizes).

(** A library holding one asset, the favourite video ["v1"].  The search
    treats a missing [asset_types] as [ImmichClient.search_assets] does
    (lines 127-136 of [immich_client.py]): images only, unless
    [default_to_image] is off. *)
Definition one_video_client : Client :=
  mkClient
    (fun p =>
       let types :=
         match sp_asset_types p with
         | Some ts => ts
         | None => if sp_default_to_image p then ["IMAGE"] else ["IMAGE"; "VIDEO"]
         end in
       if bool_decide ("VIDEO" ∈ types)
          && negb (bool_decide (sp_is_favorite p = Some false))
       then {["v1"]} else ∅)
    (fun _ => None).

(** [AND(LEAF(asset_types=["VIDEO"]), LEAF(is_favorite=True))] *)
Definition video_and_favorite : ConditionNode :=
  Node AND [leaf (only_asset_types ["VIDEO"]); leaf (only_is_favorite true)] None.

(** [OR(OR(LEAF(is_favorite=True), LEAF(asset_types=["VIDEO"])),
        AND(AND(LEAF(people a), LEAF(people b))))] *)
Definition nested_without_merge : ConditionNode :=
  Node OR
    [Node OR [leaf (only_is_favorite true); leaf (only_asset_types ["VIDEO"])] None;
     Node AND
       [Node AND [leaf (only_person_ids ["a"]); leaf (only_person_ids ["b"])] None]
       None]
    None.

(** [AND(LEAF(asset_types=["IMAGE"]), LEAF(asset_types=["VIDEO"]))] *)
Definition image_and_video : ConditionNode :=
  Node AND [leaf (only_asset_types ["IMAGE"]); leaf (only_asset_types ["VIDEO"])]
    None.

(** [AND(LEAF(resolution=[[1920, 1080]]), LEAF(is_favorite=True))] *)
Definition full_hd_and_favorite : ConditionNode :=
  Node AND [leaf (only_resolution [[1920; 1080]%Z]); leaf (only_is_favorite true)]
    None.

(** [AND(LEAF(asset_types=["IMAGE"], people a), LEAF(asset_types=["VIDEO"], people b))] *)
Definition clashing_types_with_people : ConditionNode :=
  Node AND
    [leaf (set_person_ids (Some ["a"]) (only_asset_types ["IMAGE"]));
     leaf (set_person_ids (Some ["b"]) (only_asset_types ["VIDEO"]))]
    None.

(** A leaf supplies person identifiers when [if cond.person_ids:] holds. *)
Definition supplies_people (c : FilterCondition) : bool :=
  truthy_list (person_ids c).

Definition node_supplies_people (n : ConditionNode) : bool :=
  match condition n with
  | Some c => supplies_people c
  | None => false
  end.

Definition node_sets_asset_types (n : ConditionNode) : bool :=
  match condition n with
  | Some c => is_not_None (asset_types c)
  | None => false
  end.

(** What [check_single_asset] decides for one asset. *)
Definition asset_matches (client : Client) (targets : list (list Z))
    (aid : string) : bool :=
  match get_asset_metadata client aid with
  | Some data =>
      match _extract_resolution data with
      | inr (Some r) => resolution_in_targets r targets
      | inr None => false
      | inl _ => false
      end
  | None => false
  end.



(** [{"and": [{"is_favorite": true}], "or": [{"asset_types": "VIDEO"}]}] *)
Definition and_or_entries : list (string * config) :=
  [("and", CList [CDict [("is_favorite", CBool true)]]);
   ("or", CList [CDict [("asset_types", CStr "video")]])].


(** The one date string the example parser knows, and its value. *)
Definition noon : string := "2024-06-01T12:00:00+00:00".
Definition noon_time : Z := 1717243200000000%Z.

Definition example_library : Library :=
  mkLibrary (fun text => if bool_decide (text = noon) then Some noon_time else None)
    (fun _ => noon)
    (fun l n => take n l).

Definition no_rule_dates : DateFilters := mkDateFilters None None None None.

(** Every asset is known, none carries a date of any kind. *)
Definition undated_client : Client :=
  mkClient (fun _ => ∅)
    (fun aid => Some (mkAssetData aid ExifMissing None None None None)).

(** Two assets taken at the same instant on the equator, half the globe
    apart: the seed ["s1"] at longitude -90, the candidate ["c1"] at
    longitude 90. *)
Definition equator_client : Client :=
  mkClient (fun _ => {["c1"]})
    (fun aid =>
       if bool_decide (aid = "s1") then
         Some (mkAssetData "s1"
                 (ExifDict
                    (mkExifInfo None None (Some noon) (Some 0%R) (Some (-90)%R)))
                 None None None None)
       else if bool_decide (aid = "c1") then
         Some (mkAssetData "c1"
                 (ExifDict
                    (mkExifInfo None None (Some noon) (Some 0%R) (Some 90%R)))
                 None None None None)
       else None).

Definition equator_seed : AssetMetadata :=
  mkAssetMetadata "s1" (Some noon_time) (Some 0%R) (Some (-90)%R).
Definition equator_candidate : AssetMetadata :=
  mkAssetMetadata "c1" (Some noon_time) (Some 0%R) (Some 90%R).

(** The asset-id set a tree evaluates to. *)
Definition result_set (client : Client) (base_assets : option (gset string))
    (date_filters : option DateFilters) (n : ConditionNode) : gset string :=
  result_of (evaluate client n base_assets date_filters).

(** The two ways the loop can end once a second person list is met. *)
Definition fails_or_short_circuits (cs : list ConditionNode)
    (r : option ConditionNode) : Prop :=
  r = None
  ∨ (r = Some (leaf FilterCondition_default)
     ∧ existsb node_sets_asset_types cs = true).

(** ** Leaves that are plain oracle queries, and oracles that answer merged
       queries with the intersection of the separate answers *)

Definition absent_or_truthy_str (s : option string) : bool :=
  match s with None => true | Some _ => truthy_str s end.
Definition absent_or_truthy_list {A} (l : option (list A)) : bool :=
  match l with None => true | Some _ => truthy_list l end.

(** The condition asks the oracle something and nothing else: some filter
    is set, no camera string or person list is present but empty, and
    neither tags nor a resolution list are given. *)
Definition query_only (c : FilterCondition) : bool :=
  has_filters c
  && absent_or_truthy_str (camera_make c)
  && absent_or_truthy_str (camera_model c)
  && absent_or_truthy_list (person_ids c)
  && negb (is_not_None (include_tags c))
  && negb (is_not_None (exclude_tags c))
  && negb (is_not_None (resolution c)).

Definition is_query_leaf (n : ConditionNode) : bool :=
  match n with
  | Node LEAF _ (Some c) => query_only c
  | _ => false
  end.

(** Every leaf of the tree is a plain oracle query. *)
Fixpoint queries_only (n : ConditionNode) : bool :=
  match n with
  | Node ty cs cond =>
      forallb queries_only cs &&
      match ty with
      | LEAF => is_query_leaf n
      | _ => true
      end
  end.

Definition is_default_leaf (r : option ConditionNode) : bool :=
  match r with
  | Some (Node LEAF [] (Some c)) => bool_decide (c = FilterCondition_default)
  | _ => false
  end.

(** While [optimize] runs on the tree, no leaf combination returns the leaf
    without filters (the early return on an empty asset-type intersection). *)
Fixpoint no_empty_intersection (n : ConditionNode) : bool :=
  match n with
  | Node ty cs cond =>
      forallb no_empty_intersection cs &&
      match ty with
      | AND =>
          negb (is_default_leaf
                  (_combine_and_leaves
                     (Node AND (flatten_children AND (map optimize cs)) cond)))
      | _ => true
      end
  end.

(** The oracle answers the query of a merged condition with the intersection
    of the answers to the two conditions it was merged from. *)
Definition answers_merged_queries (client : Client)
    (date_filters : option DateFilters) : Prop :=
  ∀ cond combined merged,
    query_only cond = true → query_only combined = true →
    merge_child cond combined = Merged merged →
    search_assets client (leaf_search_params date_filters merged)
    = search_assets client (leaf_search_params date_filters combined)
      ∩ search_assets client (leaf_search_params date_filters cond).

(** [asset_ids & base_assets] when a base set is given (lines 358-359). *)
Definition within_base (base_assets : option (gset string)) (found : gset string)
  : gset string :=
  match base_assets with
  | Some base => found ∩ base
  | None => found
  end.

(** An oracle over a finite library: an asset matches a query when it passes
    every filter the query sets (date filters are not looked at, a filter
    left out constrains nothing, the person filter asks for all listed
    people). *)
Record LibraryAsset := mkLibraryAsset {
  la_type : string;
  la_favorite : bool;
  la_make : string;
  la_model : string;
  la_people : list string;
}.

Definition passes_option {A} (test : A → bool) (filter : option A) : bool :=
  match filter with Some v => test v | None => true end.

Definition asset_passes (p : search_params) (a : LibraryAsset) : bool :=
  passes_option (fun f => bool_decide (la_favorite a = f)) (sp_is_favorite p)
  && passes_option (fun ts => bool_decide (la_type a ∈ ts)) (sp_asset_types p)
  && passes_option (fun m => bool_decide (la_make a = m)) (sp_camera_make p)
  && passes_option (fun m => bool_decide (la_model a = m)) (sp_camera_model p)
  && passes_option (fun ids => bool_decide (ids ⊆ la_people a))
       (sp_include_people_ids p).

Definition library_client (assets : gmap string LibraryAsset) : Client :=
  mkClient
    (fun p => dom (filter (fun entry => asset_passes p entry.2 = true) assets))
    (fun _ => None).

(** A favourite video and a favourite image, both shot with an Apple camera. *)
Definition two_favourites : gmap string LibraryAsset :=
  {[ "v1" := mkLibraryAsset "VIDEO" true "Apple" "iPhone" ["a"];
     "i1" := mkLibraryAsset "IMAGE" true "Apple" "iPhone" [] ]}.

(** [OR(AND(LEAF(asset_types=["VIDEO"]), AND(LEAF(is_favorite=True))),
        LEAF(asset_types=["IMAGE"]))] *)
Definition merging_tree : ConditionNode :=
  Node OR
    [Node AND
       [leaf (only_asset_types ["VIDEO"]);
        Node AND [leaf (only_is_favorite true)] None]
       None;
     leaf (only_asset_types ["IMAGE"])]
    None.

(** A LEAF child that supplies person identifiers. *)
Definition is_people_leaf (n : ConditionNode) : bool :=
  bool_decide (node_type n = LEAF) && node_supplies_people n.

(** [LEAF(people a)], [OR(LEAF(is_favorite=True))], [LEAF(people b)] *)
Definition people_around_favorite : list ConditionNode :=
  [leaf (only_person_ids ["a"]);
   Node OR [leaf (only_is_favorite true)] None;
   leaf (only_person_ids ["b"])].

(** ** Measures of trees and of call logs *)

Definition is_search_call (e : event) : bool :=
  match e with SearchCall _ => true | MetadataCall _ => false end.

(** The number of search calls in a log. *)
Definition search_calls (log : list event) : nat :=
  length (List.filter is_search_call log).

(** The number of LEAF nodes the evaluator can reach: the children of a LEAF
    node are never visited. *)
Fixpoint leaf_count (n : ConditionNode) : nat :=
  match n with
  | Node LEAF _ _ => 1
  | Node _ cs _ => foldr (fun c acc => leaf_count c + acc)%nat 0%nat cs
  end.

(** The conditions of those LEAF nodes, left to right. *)
Fixpoint leaf_conditions (n : ConditionNode) : list FilterCondition :=
  match n with
  | Node LEAF _ cond => match cond with Some c => [c] | None => [] end
  | Node _ cs _ => flat_map leaf_conditions cs
  end.

Definition node_sets_is_favorite (n : ConditionNode) : bool :=
  match condition n with
  | Some c => is_not_None (is_favorite c)
  | None => false
  end.

(** ** People resolver ([rules.py], lines 89-125) *)

(** A person dictionary of the Immich API, read at its keys ["name"] and
    ["id"]. *)
Record Person := mkPerson {
  person_name : string;
  person_id : string;
}.

Record PeopleResolver := mkPeopleResolver {
  all_people : list Person;
  name_to_id : gmap string string;
}.

(** [PeopleResolver.__init__]: the dictionary comprehension inserts the
    people in order, a later person replaces an earlier one of the same
    name. *)
Definition PeopleResolver_init (people : list Person) : PeopleResolver :=
  mkPeopleResolver people
    (foldl (fun m p => <[person_name p := person_id p]> m) ∅ people).

(** The loop of [resolve_people_names] (lines 118-123). *)
Fixpoint resolve_loop (table : gmap string string) (names : list string)
    (resolved_ids : list string) : list string :=
  match names with
  | [] => resolved_ids
  | name :: rest =>
      match table !! name with
      | Some pid => resolve_loop table rest (resolved_ids ++ [pid])
      | None => resolve_loop table rest resolved_ids
      end
  end.

Definition resolve_people_names (self : PeopleResolver) (names : list string)
  : option (list string) :=
  match names with
  | [] => None
  | _ =>
      match resolve_loop (name_to_id self) names [] with
      | [] => None
      | resolved_ids => Some resolved_ids
      end
  end.

(** The resolver as [_parse_leaf_condition] uses it: the result is only
    tested with [if person_ids:], for which [None] and the empty list are
    the same. *)
Definition people_resolver_of (self : PeopleResolver)
  : list string → list string :=
  fun names => default [] (resolve_people_names self names).

(** ** Rule execution ([rules.py], lines 126-141 and 258-334) *)

Record RuleFilters := mkRuleFilters {
  rf_is_favorite : option bool;
  rf_asset_types : list string;
  rf_camera_make : option string;
  rf_camera_model : option string;
  rf_include_people : list string;
  rf_resolution : option (list (list Z));
}.

(** The attributes of a [Rule] that [execute] reads. *)
Record Rule := mkRule {
  rule_taken_after : option string;
  rule_taken_before : option string;
  rule_created_after : option string;
  rule_created_before : option string;
  rule_filters : option RuleFilters;
  rule_condition_tree : ConditionNode;
}.

(** [Rule._convert_filters_to_tree] (lines 258-281). *)
Definition _convert_filters_to_tree (filters : option RuleFilters)
  : ConditionNode :=
  match filters with
  | None => leaf FilterCondition_default
  | Some f =>
      leaf (mkFilterCondition (rf_is_favorite f) (Some (rf_asset_types f))
              (rf_camera_make f) (rf_camera_model f) None None None
              (rf_resolution f))
  end.

(** The dictionary [date_filters] built at lines 296-304: a key is present
    when the attribute is truthy. *)
Definition rule_date_filters (self : Rule) : DateFilters :=
  mkDateFilters
    (if truthy_str (rule_taken_after self) then rule_taken_after self else None)
    (if truthy_str (rule_taken_before self) then rule_taken_before self else None)
    (if truthy_str (rule_created_after self) then rule_created_after self else None)
    (if truthy_str (rule_created_before self) then rule_created_before self
     else None).

(** [if date_filters:] *)
Definition has_date_filters (d : DateFilters) : bool :=
  is_not_None (taken_after d) || is_not_None (taken_before d)
  || is_not_None (created_after d) || is_not_None (created_before d).

(** The keyword arguments of the base query (lines 323-326). *)
Definition base_search_params (d : DateFilters) : search_params :=
  mkSearchParams (taken_after d) (taken_before d) (created_after d)
    (created_before d) None None None None None false.

(** Lines 306-316: with the old filters format, resolved people are written
    into the condition of the tree's root. *)
Definition resolve_old_format_people (self : Rule)
    (people_resolver : option PeopleResolver) : ConditionNode :=
  match rule_filters self, people_resolver with
  | Some f, Some resolver =>
      if truthy_list (Some (rf_include_people f)) then
        match resolve_people_names resolver (rf_include_people f) with
        | Some (pid :: pids) =>
            match rule_condition_tree self with
            | Node ty cs (Some c) =>
                Node ty cs (Some (set_person_ids (Some (pid :: pids)) c))
            | other => other
            end
        | _ => rule_condition_tree self
        end
      else rule_condition_tree self
  | _, _ => rule_condition_tree self
  end.

(** [Rule.execute] (lines 283-334): the matching asset ids, and the rule
    with the tree as the call leaves it. *)
Definition Rule_execute (self : Rule) (client : Client)
    (people_resolver : option PeopleResolver) : Logged (gset string) * Rule :=
  let date_filters := rule_date_filters self in
  let tree := resolve_old_format_people self people_resolver in
  let self' := mkRule (rule_taken_after self) (rule_taken_before self)
                 (rule_created_after self) (rule_created_before self)
                 (rule_filters self) tree in
  if has_date_filters date_filters then
    (let! base_assets := call_search client (base_search_params date_filters) in
     evaluate client tree (Some base_assets) (Some date_filters),
     self')
  else (evaluate client tree None None, self').

(** ** Vocabulary for the shape of trees and of combined leaves *)

(** All the nodes of a tree, the root first. *)
Fixpoint subtrees (n : ConditionNode) : list ConditionNode :=
  match n with
  | Node _ cs _ => n :: flat_map subtrees cs
  end.

(** [merged] keeps what [cond] filters on, in the fields that
    [_combine_and_leaves] handles: the same favourite flag, camera make,
    camera model and person list wherever [cond] sets them (as the loop
    tests them), and asset types among those of [cond]. *)
Definition carries_filters (cond merged : FilterCondition) : Prop :=
  (is_not_None (is_favorite cond) = true →
   is_favorite merged = is_favorite cond)
  ∧ (truthy_str (camera_make cond) = true →
     camera_make merged = camera_make cond)
  ∧ (truthy_str (camera_model cond) = true →
     camera_model merged = camera_model cond)
  ∧ (truthy_list (person_ids cond) = true →
     person_ids merged = person_ids cond)
  ∧ (∀ ts, asset_types cond = Some ts →
       ∃ both, asset_types merged = Some both ∧ ∀ x, x ∈ both → x ∈ ts).

(** [{"or": [{"people": {"include": ["Ann"]}},
            {"and": [{"is_favorite": true}, {"asset_types": ["video"]}]}]}] *)
Definition people_or_favorite_video : config :=
  CDict [("or", CList
    [CDict [("people", CDict [("include", CList [CStr "Ann"])])];
     CDict [("and", CList [CDict [("is_favorite", CBool true)];
                           CDict [("asset_types", CList [CStr "video"])]])]])].

Definition people_or_favorite_video_tree : ConditionNode :=
  Node OR
    [leaf FilterCondition_default;
     Node AND [leaf (only_is_favorite true); leaf (only_asset_types ["VIDEO"])]
       None]
    None.

(** An old-format rule: favourite images taken after [noon], with the person
    named Ann. *)
Definition ann_favorites_filters : RuleFilters :=
  mkRuleFilters (Some true) ["IMAGE"] None None ["Ann"] None.

Definition ann_favorites : Rule :=
  mkRule (Some noon) None None None (Some ann_favorites_filters)
    (_convert_filters_to_tree (Some ann_favorites_filters)).

(** Two assets created at [noon], without EXIF data: the search returns
    both, whatever the query. *)
Definition created_at_noon_client : Client :=
  mkClient (fun _ => {["c1"; "s1"]})
    (fun aid =>
       if bool_decide (aid = "s1") || bool_decide (aid = "c1")
       then Some (mkAssetData aid ExifMissing None None (Some noon) None)
       else None).

Definition created_at_noon (aid : string) : AssetMetadata :=
  mkAssetMetadata aid (Some noon_time) None None.


(** ** The user resolver ([rules.py], lines 20-90) *)

Record User := mkUser { user_email : string; user_id : string }.

Record UserResolver := mkUserResolver {
  all_users : list User;
  email_to_id : gmap string string;
  id_to_email : gmap string string;
  owner_id : option string;
}.

(** [UserResolver.__init__] (lines 23-33): two dict comprehensions. *)
Definition UserResolver_init (users : list User) : UserResolver :=
  mkUserResolver users
    (foldl (fun m u => <[user_email u := user_id u]> m) ∅ users)
    (foldl (fun m u => <[user_id u := user_email u]> m) ∅ users)
    None.

(** [set_owner] (lines 35-42). *)
Definition set_owner (self : UserResolver) (owner : string) : UserResolver :=
  mkUserResolver (all_users self) (email_to_id self) (id_to_email self)
    (Some owner).

(** [_resolve_identifier] (lines 70-89). *)
Definition _resolve_identifier (self : UserResolver) (identifier : string)
  : option string :=
  match email_to_id self !! identifier with
  | Some uid => Some uid
  | None =>
      match id_to_email self !! identifier with
      | Some _ => Some identifier
      | None => None
      end
  end.

(** A [share_with] value that is not [None]: a string or a list of strings,
    the two shapes [validation.py] lets through. *)
Inductive ShareWith :=
  | ShareStr (s : string)
  | ShareList (identifiers : list string).

(** [u != self.owner_id] *)
Definition is_not_owner (self : UserResolver) (uid : string) : bool :=
  negb (bool_decide (owner_id self = Some uid)).

(** The loop of lines 61-65. *)
Fixpoint share_loop (self : UserResolver) (identifiers : list string)
    (resolved_ids : list string) : list string :=
  match identifiers with
  | [] => resolved_ids
  | identifier :: rest =>
      let user := _resolve_identifier self identifier in
      if truthy_str user && is_not_owner self (default "" user)
      then share_loop self rest (resolved_ids ++ [default "" user])
      else share_loop self rest resolved_ids
  end.

(** [resolve_share_identifiers] (lines 44-68). *)
Definition resolve_share_identifiers (self : UserResolver)
    (share_with : option ShareWith) : option (list string) :=
  match share_with with
  | None => None
  | Some (ShareStr s) =>
      if bool_decide (s = "ALL") then
        Some (map user_id
                (List.filter (fun u => is_not_owner self (user_id u))
                   (all_users self)))
      else None
  | Some (ShareList identifiers) =>
      match share_loop self identifiers [] with
      | [] => None
      | resolved_ids => Some resolved_ids
      end
  end.

Definition ann_and_bob : list User :=
  [mkUser "ann@example.com" "u1"; mkUser "bob@example.com" "u2"].

(** * Properties *)

(** ** Induction on condition trees *)

Lemma ConditionNode_ind' (P : ConditionNode → Prop) :
  (∀ ty cs cond, Forall P cs → P (Node ty cs cond)) → ∀ n, P n.
Proof.
  intros step. fix IH 1. intros [ty cs cond]. apply step.
  induction cs as [|c cs IHcs]; constructor; [apply IH | exact IHcs].
Qed.

(** ** Shape of optimized trees *)

Lemma Optimized_leaf_node c : Optimized (leaf c).
Proof. apply Optimized_leaf. constructor. Qed.

Lemma combine_loop_leaf cs combined n :
  combine_loop cs combined = Some n → ∃ c, n = leaf c.
Proof.
  revert combined. induction cs as [|child rest IH]; intros combined; simpl.
  - intros [= <-]. eauto.
  - destruct (condition child) as [cond|]; [|apply IH].
    destruct (merge_child cond combined) as [c'| |]; [apply IH|discriminate|].
    intros [= <-]. eauto.
Qed.

Lemma _combine_and_leaves_leaf self n :
  _combine_and_leaves self = Some n → ∃ c, n = leaf c.
Proof.
  unfold _combine_and_leaves. destruct (forallb _ _); [|discriminate].
  apply combine_loop_leaf.
Qed.

Lemma Optimized_children ty cs cond :
  Optimized (Node ty cs cond) → Forall Optimized cs.
Proof. inversion 1; assumption. Qed.

Lemma Optimized_children_type ty cs cond :
  is_logical ty = true → Optimized (Node ty cs cond) →
  Forall (fun c => node_type c ≠ ty) cs.
Proof. intros Hty H. inversion H; subst; try assumption. discriminate. Qed.

Lemma flatten_children_Optimized ty cs :
  is_logical ty = true → Forall Optimized cs →
  Forall Optimized (flatten_children ty cs)
  ∧ Forall (fun c => node_type c ≠ ty) (flatten_children ty cs).
Proof.
  intros Hty. induction 1 as [|c cs Hc Hcs [IH1 IH2]]; simpl.
  - split; constructor.
  - case_bool_decide as Heq.
    + destruct c as [ty' ds cond]. simpl in *. subst ty'. split.
      * apply Forall_app. split; [|exact IH1]. eapply Optimized_children, Hc.
      * apply Forall_app. split; [|exact IH2].
        eapply Optimized_children_type; eauto.
    + split; constructor; assumption.
Qed.

Lemma simplify_Optimized ty cs cond :
  Forall Optimized cs →
  (is_logical ty = true → Forall (fun c => node_type c ≠ ty) cs) →
  Optimized (simplify (Node ty cs cond)).
Proof.
  intros Hcs Hty. unfold simplify. simpl.
  destruct (if bool_decide (ty = AND) then _ else None) as [n|] eqn:Hcomb.
  - case_bool_decide; [|discriminate].
    apply _combine_and_leaves_leaf in Hcomb as [c ->]. apply Optimized_leaf_node.
  - destruct ty; simpl.
    + rewrite bool_decide_eq_true_2 in Hcomb by reflexivity.
      destruct cs as [|c1 [|c2 cs']].
      * apply Optimized_leaf_node.
      * inversion Hcs; assumption.
      * apply Optimized_and; auto. simpl. lia.
    + destruct cs as [|c1 [|c2 cs']].
      * apply Optimized_leaf_node.
      * inversion Hcs; assumption.
      * apply Optimized_or; auto. simpl. lia.
    + apply Optimized_leaf. assumption.
Qed.

Lemma optimize_Optimized n : Optimized (optimize n).
Proof.
  induction n as [ty cs cond IH] using ConditionNode_ind'. simpl.
  assert (Hcs : Forall Optimized (map optimize cs)).
  { apply Forall_map. exact IH. }
  destruct (is_logical ty) eqn:Hty.
  - destruct (flatten_children_Optimized ty _ Hty Hcs) as [H1 H2].
    apply simplify_Optimized; auto.
  - apply simplify_Optimized; auto. intros; congruence.
Qed.

Lemma flatten_children_id ty cs :
  Forall (fun c => node_type c ≠ ty) cs → flatten_children ty cs = cs.
Proof.
  induction 1 as [|c cs Hc _ IH]; simpl; [reflexivity|].
  rewrite bool_decide_eq_false_2 by assumption. simpl. by rewrite IH.
Qed.

Lemma Optimized_fixed n : Optimized n → optimize n = n.
Proof.
  induction n as [ty cs cond IH] using ConditionNode_ind'. intros Hopt.
  assert (Hmap : map optimize cs = cs).
  { apply Optimized_children in Hopt.
    clear -IH Hopt. induction cs as [|c cs IHcs]; simpl; [reflexivity|].
    inversion IH; subst. inversion Hopt; subst. f_equal; auto. }
  simpl. rewrite Hmap.
  inversion Hopt as [cs' cond' Hcs | cs' cond' Hcs Hty Hcomb Hlen
                    | cs' cond' Hcs Hty Hlen]; subst; simpl.
  - reflexivity.
  - rewrite flatten_children_id by assumption.
    unfold simplify. simpl. rewrite Hcomb.
    destruct cs as [|c1 [|c2 cs']]; simpl in Hlen; try lia. reflexivity.
  - rewrite flatten_children_id by assumption.
    unfold simplify. simpl.
    destruct cs as [|c1 [|c2 cs']]; simpl in Hlen; try lia. reflexivity.
Qed.

(** C6. [optimize] is idempotent: optimizing an optimized tree returns the
    same tree, node for node (types, children and filter contents). *)
Theorem optimize_idempotent (t : ConditionNode) :
  optimize (optimize t) = optimize t.
Proof. apply Optimized_fixed, optimize_Optimized. Qed.

(** ** The evaluator as set algebra *)

Lemma result_of_bind {A B} (m : Logged A) (k : A → Logged B) :
  result_of (bind m k) = result_of (k (result_of m)).
Proof. unfold result_of, bind. destruct m as [a l1]. simpl. by destruct (k a). Qed.

Lemma calls_of_bind {A B} (m : Logged A) (k : A → Logged B) :
  calls_of (bind m k) = calls_of m ++ calls_of (k (result_of m)).
Proof. unfold calls_of, result_of, bind. destruct m as [a l1]. simpl. by destruct (k a). Qed.

Lemma meet_assoc a b c : meet a (meet b c) = meet (meet a b) c.
Proof.
  destruct a, b, c; simpl; try reflexivity. f_equal. set_solver.
Qed.

Lemma intersection_of_app l1 l2 :
  intersection_of (l1 ++ l2) = meet (intersection_of l1) (intersection_of l2).
Proof.
  induction l1 as [|x l1 IH].
  - simpl. by destruct (intersection_of l2).
  - change (intersection_of ((x :: l1) ++ l2))
      with (meet (Some x) (intersection_of (l1 ++ l2))).
    change (intersection_of (x :: l1)) with (meet (Some x) (intersection_of l1)).
    rewrite IH. apply meet_assoc.
Qed.

Lemma and_loop_result eval cs acc :
  result_of (and_loop eval cs (Some acc))
  = default acc (meet (Some acc)
                   (intersection_of (map (fun c => result_of (eval c)) cs))).
Proof.
  revert acc. induction cs as [|c cs IH]; intros acc; simpl; [reflexivity|].
  rewrite result_of_bind. set (rc := result_of (eval c)).
  case_bool_decide as Hempty.
  - destruct (intersection_of _); simpl; unfold result_of; simpl; set_solver.
  - rewrite IH. destruct (intersection_of _); simpl; [|reflexivity]. set_solver.
Qed.

Lemma evaluate_AND client cs cond base df :
  result_of (evaluate client (Node AND cs cond) base df)
  = default ∅ (intersection_of
                 (map (fun c => result_of (evaluate client c base df)) cs)).
Proof.
  destruct cs as [|c cs]; [reflexivity|].
  change (evaluate client (Node AND (c :: cs) cond) base df)
    with (and_loop (fun child => evaluate client child base df) (c :: cs) None).
  simpl. rewrite result_of_bind.
  set (rc := result_of (evaluate client c base df)).
  case_bool_decide as Hempty.
  - destruct (intersection_of _); simpl; unfold result_of; simpl; set_solver.
  - rewrite and_loop_result. by destruct (intersection_of _).
Qed.

Lemma or_loop_result eval cs acc :
  result_of (or_loop eval cs acc)
  = acc ∪ ⋃ (map (fun c => result_of (eval c)) cs).
Proof.
  revert acc. induction cs as [|c cs IH]; intros acc; simpl.
  - unfold result_of; simpl. set_solver.
  - rewrite result_of_bind, IH. set_solver.
Qed.

Lemma evaluate_OR client cs cond base df :
  result_of (evaluate client (Node OR cs cond) base df)
  = ⋃ (map (fun c => result_of (evaluate client c base df)) cs).
Proof. simpl. rewrite or_loop_result. set_solver. Qed.

Lemma evaluate_LEAF client cs cond base df :
  evaluate client (Node LEAF cs cond) base df
  = _evaluate_leaf client cond base df.
Proof. reflexivity. Qed.

(** ** The steps of a merge *)

Lemma merge_child_Merged cond combined c' :
  merge_child cond combined = Merged c' →
  ∃ c1 c2 c3 c4,
    merge_is_favorite cond combined = Merged c1
    ∧ merge_asset_types cond c1 = Merged c2
    ∧ merge_camera_make cond c2 = Merged c3
    ∧ merge_camera_model cond c3 = Merged c4
    ∧ merge_person_ids cond c4 = Merged c'.
Proof.
  unfold merge_child, merge_bind. intros H.
  destruct (merge_is_favorite cond combined) as [c1| |] eqn:H1; try discriminate.
  destruct (merge_asset_types cond c1) as [c2| |] eqn:H2; try discriminate.
  destruct (merge_camera_make cond c2) as [c3| |] eqn:H3; try discriminate.
  destruct (merge_camera_model cond c3) as [c4| |] eqn:H4; try discriminate.
  exists c1, c2, c3, c4. repeat split; assumption.
Qed.

Ltac merge_step :=
  repeat match goal with
         | |- context [match ?x with _ => _ end] => destruct x
         end;
  try discriminate; intros [= <-]; auto.

Lemma merge_is_favorite_other cond combined c' :
  merge_is_favorite cond combined = Merged c' →
  resolution c' = resolution combined ∧ person_ids c' = person_ids combined.
Proof. unfold merge_is_favorite. merge_step. Qed.

Lemma merge_asset_types_other cond combined c' :
  merge_asset_types cond combined = Merged c' →
  resolution c' = resolution combined ∧ person_ids c' = person_ids combined.
Proof. unfold merge_asset_types. merge_step. Qed.

Lemma merge_camera_make_other cond combined c' :
  merge_camera_make cond combined = Merged c' →
  resolution c' = resolution combined ∧ person_ids c' = person_ids combined.
Proof. unfold merge_camera_make. merge_step. Qed.

Lemma merge_camera_model_other cond combined c' :
  merge_camera_model cond combined = Merged c' →
  resolution c' = resolution combined ∧ person_ids c' = person_ids combined.
Proof. unfold merge_camera_model. merge_step. Qed.

Lemma merge_person_ids_resolution cond combined c' :
  merge_person_ids cond combined = Merged c' →
  resolution c' = resolution combined.
Proof. unfold merge_person_ids. merge_step. Qed.

Lemma merge_child_resolution cond combined c' :
  merge_child cond combined = Merged c' → resolution c' = resolution combined.
Proof.
  intros (c1 & c2 & c3 & c4 & H1 & H2 & H3 & H4 & H5)%merge_child_Merged.
  apply merge_is_favorite_other in H1 as [H1 _].
  apply merge_asset_types_other in H2 as [H2 _].
  apply merge_camera_make_other in H3 as [H3 _].
  apply merge_camera_model_other in H4 as [H4 _].
  apply merge_person_ids_resolution in H5. congruence.
Qed.

(** ** Flattening and single-child collapse preserve evaluation *)

Section Preservation.
Variable client : Client.
Variable base_assets : option (gset string).
Variable date_filters : option DateFilters.

Local Abbreviation res := (result_set client base_assets date_filters).

Lemma intersection_of_two_or_more (l : list (gset string)) :
  (2 ≤ length l)%nat → ∃ x, intersection_of l = Some x.
Proof.
  destruct l as [|x l]; simpl; [lia|]. intros _.
  destruct (intersection_of l); eauto.
Qed.

Lemma res_AND cs cond :
  res (Node AND cs cond) = default ∅ (intersection_of (map res cs)).
Proof. apply evaluate_AND. Qed.

Lemma res_OR cs cond : res (Node OR cs cond) = ⋃ (map res cs).
Proof. apply evaluate_OR. Qed.

Lemma flatten_AND_results cs :
  Forall Optimized cs →
  intersection_of (map res (flatten_children AND cs))
  = intersection_of (map res cs).
Proof.
  induction 1 as [|c cs Hc Hcs IH]; [reflexivity|].
  change (flatten_children AND (c :: cs))
    with ((if bool_decide (node_type c = AND) then children c else [c])
          ++ flatten_children AND cs).
  rewrite map_app, intersection_of_app, IH.
  change (map res (c :: cs)) with ([res c] ++ map res cs).
  rewrite intersection_of_app. f_equal.
  case_bool_decide as Hty; [|reflexivity].
  destruct c as [ty ds cond]. simpl in Hty. subst ty.
  inversion Hc as [| ? ? _ _ _ Hlen |]; subst. simpl.
  rewrite res_AND.
  destruct (intersection_of_two_or_more (map res ds)) as [x ->]; [|reflexivity].
  by rewrite length_map.
Qed.

Lemma flatten_OR_results cs :
  ⋃ (map res (flatten_children OR cs)) = ⋃ (map res cs).
Proof.
  induction cs as [|c cs IH]; [reflexivity|].
  change (flatten_children OR (c :: cs))
    with ((if bool_decide (node_type c = OR) then children c else [c])
          ++ flatten_children OR cs).
  rewrite map_app, union_list_app_L, IH. simpl.
  case_bool_decide as Hty; [|simpl; set_solver].
  destruct c as [ty ds cond]. simpl in Hty. subst ty. simpl.
  rewrite res_OR. reflexivity.
Qed.

Lemma flatten_children_nonempty ty cs :
  is_logical ty = true → Forall Optimized cs → cs ≠ [] →
  flatten_children ty cs ≠ [].
Proof.
  intros Hty Hcs Hne. destruct cs as [|c cs]; [done|]. simpl.
  case_bool_decide as Heq; [|done].
  destruct c as [ty' ds cond]. simpl in Heq. subst ty'.
  inversion Hcs as [|? ? Hc _]; subst.
  inversion Hc as [| ? ? _ _ _ Hlen | ? ? _ _ Hlen]; subst;
    try discriminate; simpl; destruct ds; simpl in *; try lia; done.
Qed.

Lemma optimized_children_results cs :
  Forall (fun c => well_formed c = true → merge_free c = true →
                   res (optimize c) = res c) cs →
  forallb well_formed cs = true → forallb merge_free cs = true →
  map res (map optimize cs) = map res cs.
Proof.
  induction 1 as [|c cs Hc _ IH]; simpl; [reflexivity|].
  intros [Hw Hws]%andb_prop [Hm Hms]%andb_prop.
  rewrite Hc, IH by assumption. reflexivity.
Qed.

Lemma optimize_sound (t : ConditionNode) :
  well_formed t = true → merge_free t = true →
  res (optimize t) = res t.
Proof.
  induction t as [ty cs cond IH] using ConditionNode_ind'.
  intros Hwf Hmf. simpl in Hwf, Hmf.
  apply andb_prop in Hwf as [Hwfs Hwf], Hmf as [Hmfs Hmf].
  pose proof (optimized_children_results cs IH Hwfs Hmfs) as Hres.
  assert (Hopt : Forall Optimized (map optimize cs)).
  { apply Forall_map, Forall_forall. intros; apply optimize_Optimized. }
  destruct ty; simpl.
  - (* AND *)
    apply bool_decide_eq_true_1 in Hmf.
    assert (Hne : flatten_children AND (map optimize cs) ≠ []).
    { apply flatten_children_nonempty; auto.
      apply negb_true_iff, bool_decide_eq_false_1 in Hwf.
      by destruct cs. }
    unfold simplify. simpl. rewrite Hmf.
    rewrite (res_AND cs), <- Hres, <- flatten_AND_results by assumption.
    destruct (flatten_children AND (map optimize cs)) as [|c1 [|c2 fl]];
      [done|reflexivity|].
    apply res_AND.
  - (* OR *)
    assert (Hne : flatten_children OR (map optimize cs) ≠ []).
    { apply flatten_children_nonempty; auto.
      apply negb_true_iff, bool_decide_eq_false_1 in Hwf.
      by destruct cs. }
    unfold simplify. simpl.
    rewrite (res_OR cs), <- Hres, <- flatten_OR_results.
    destruct (flatten_children OR (map optimize cs)) as [|c1 [|c2 fl]];
      [done|simpl; set_solver|].
    apply res_OR.
  - (* LEAF *)
    reflexivity.
Qed.
End Preservation.

(** ** Leaf combination under an oracle that answers merged queries *)

Lemma query_only_fields c :
  query_only c = true →
  has_filters c = true
  ∧ absent_or_truthy_str (camera_make c) = true
  ∧ absent_or_truthy_str (camera_model c) = true
  ∧ absent_or_truthy_list (person_ids c) = true
  ∧ include_tags c = None ∧ exclude_tags c = None ∧ resolution c = None.
Proof.
  unfold query_only. rewrite !andb_true_iff, !negb_true_iff.
  intros [[[[[[H1 H2] H3] H4] H5] H6] H7]. repeat split; try assumption.
  - by destruct (include_tags c).
  - by destruct (exclude_tags c).
  - by destruct (resolution c).
Qed.

Lemma merge_child_default c :
  query_only c = true → merge_child c FilterCondition_default = Merged c.
Proof.
  intros (_ & Hmake & Hmodel & Hpeople & Hinc & Hexc & Hres)%query_only_fields.
  destruct c as [fav types make model people inc exc res]. simpl in *. subst.
  unfold merge_child, merge_bind, merge_is_favorite, merge_asset_types,
    merge_camera_make, merge_camera_model, merge_person_ids. simpl.
  destruct fav, types, make as [[|]|], model as [[|]|], people as [[|]|];
    simpl in *; try discriminate; reflexivity.
Qed.

Lemma query_only_intro c :
  has_filters c = true →
  absent_or_truthy_str (camera_make c) = true →
  absent_or_truthy_str (camera_model c) = true →
  absent_or_truthy_list (person_ids c) = true →
  include_tags c = None → exclude_tags c = None → resolution c = None →
  query_only c = true.
Proof.
  intros H1 H2 H3 H4 H5 H6 H7. unfold query_only.
  by rewrite H1, H2, H3, H4, H5, H6, H7.
Qed.

Lemma truthy_str_absent_or s : truthy_str s = true → absent_or_truthy_str s = true.
Proof. by destruct s. Qed.

Lemma truthy_list_absent_or {A} (l : option (list A)) :
  truthy_list l = true → absent_or_truthy_list l = true.
Proof. by destruct l. Qed.

Lemma has_filters_is_favorite f c : has_filters (set_is_favorite (Some f) c) = true.
Proof. reflexivity. Qed.

Lemma has_filters_asset_types ts c : has_filters (set_asset_types (Some ts) c) = true.
Proof. unfold has_filters. simpl. by destruct (is_favorite c). Qed.

Lemma has_filters_camera_make m c :
  truthy_str m = true → has_filters (set_camera_make m c) = true.
Proof.
  destruct m; [|discriminate]. intros _. unfold has_filters. simpl.
  by destruct (is_favorite c), (asset_types c).
Qed.

Lemma has_filters_camera_model m c :
  truthy_str m = true → has_filters (set_camera_model m c) = true.
Proof.
  destruct m; [|discriminate]. intros _. unfold has_filters. simpl.
  by destruct (is_favorite c), (asset_types c), (camera_make c).
Qed.

Lemma has_filters_person_ids ids c :
  truthy_list ids = true → has_filters (set_person_ids ids c) = true.
Proof.
  destruct ids; [|discriminate]. intros _. unfold has_filters. simpl.
  by destruct (is_favorite c), (asset_types c), (camera_make c), (camera_model c).
Qed.

Lemma merge_is_favorite_query_only cond combined c' :
  query_only combined = true →
  merge_is_favorite cond combined = Merged c' → query_only c' = true.
Proof.
  intros Hq. pose proof Hq as (? & ? & ? & ? & ? & ? & ?)%query_only_fields.
  unfold merge_is_favorite.
  destruct (is_favorite cond); [|by intros [= <-]].
  destruct (is_favorite combined); [discriminate|]. intros [= <-].
  apply query_only_intro; try assumption. apply has_filters_is_favorite.
Qed.

Lemma merge_asset_types_query_only cond combined c' :
  query_only combined = true →
  merge_asset_types cond combined = Merged c' → query_only c' = true.
Proof.
  intros Hq. pose proof Hq as (? & ? & ? & ? & ? & ? & ?)%query_only_fields.
  unfold merge_asset_types.
  destruct (asset_types cond); [|by intros [= <-]].
  destruct (asset_types combined).
  - destruct (asset_type_intersection _ _); [discriminate|]. intros [= <-].
    apply query_only_intro; try assumption. apply has_filters_asset_types.
  - intros [= <-].
    apply query_only_intro; try assumption. apply has_filters_asset_types.
Qed.

Lemma merge_camera_make_query_only cond combined c' :
  query_only combined = true →
  merge_camera_make cond combined = Merged c' → query_only c' = true.
Proof.
  intros Hq. pose proof Hq as (? & ? & ? & ? & ? & ? & ?)%query_only_fields.
  unfold merge_camera_make.
  destruct (truthy_str (camera_make cond)) eqn:Ht; [|by intros [= <-]].
  destruct (_ && _); [discriminate|]. intros [= <-].
  apply query_only_intro; try assumption.
  - by apply has_filters_camera_make.
  - simpl. by apply truthy_str_absent_or.
Qed.

Lemma merge_camera_model_query_only cond combined c' :
  query_only combined = true →
  merge_camera_model cond combined = Merged c' → query_only c' = true.
Proof.
  intros Hq. pose proof Hq as (? & ? & ? & ? & ? & ? & ?)%query_only_fields.
  unfold merge_camera_model.
  destruct (truthy_str (camera_model cond)) eqn:Ht; [|by intros [= <-]].
  destruct (_ && _); [discriminate|]. intros [= <-].
  apply query_only_intro; try assumption.
  - by apply has_filters_camera_model.
  - simpl. by apply truthy_str_absent_or.
Qed.

Lemma merge_person_ids_query_only cond combined c' :
  query_only combined = true →
  merge_person_ids cond combined = Merged c' → query_only c' = true.
Proof.
  intros Hq. pose proof Hq as (? & ? & ? & ? & ? & ? & ?)%query_only_fields.
  unfold merge_person_ids.
  destruct (truthy_list (person_ids cond)) eqn:Ht; [|by intros [= <-]].
  destruct (person_ids combined); [discriminate|]. intros [= <-].
  apply query_only_intro; try assumption.
  - by apply has_filters_person_ids.
  - simpl. by apply truthy_list_absent_or.
Qed.

Lemma merge_child_query_only cond combined merged :
  query_only cond = true → query_only combined = true →
  merge_child cond combined = Merged merged →
  query_only merged = true.
Proof.
  intros _ Hq (c1 & c2 & c3 & c4 & H1 & H2 & H3 & H4 & H5)%merge_child_Merged.
  eapply merge_person_ids_query_only; [|exact H5].
  eapply merge_camera_model_query_only; [|exact H4].
  eapply merge_camera_make_query_only; [|exact H3].
  eapply merge_asset_types_query_only; [|exact H2].
  eapply merge_is_favorite_query_only; [|exact H1]. exact Hq.
Qed.

Section MergedQueries.
Variable client : Client.
Variable base_assets : option (gset string).
Variable date_filters : option DateFilters.
Hypothesis oracle_merges : answers_merged_queries client date_filters.

Local Abbreviation res := (result_set client base_assets date_filters).
Local Abbreviation answer :=
  (fun c => within_base base_assets
              (search_assets client (leaf_search_params date_filters c))).

Lemma res_query_leaf cs c :
  query_only c = true → res (Node LEAF cs (Some c)) = answer c.
Proof.
  intros (Hf & _ & _ & Hpeople & _ & _ & Hres)%query_only_fields.
  unfold result_set. rewrite evaluate_LEAF. unfold _evaluate_leaf.
  rewrite Hf, Hres. cbn [negb truthy_list andb].
  destruct (person_ids c) as [[|p ps]|]; try discriminate;
    rewrite result_of_bind; reflexivity.
Qed.

Lemma is_query_leaf_inv n :
  is_query_leaf n = true →
  ∃ cs c, n = Node LEAF cs (Some c) ∧ query_only c = true.
Proof. destruct n as [[] cs [c|]]; try discriminate. eauto. Qed.

Lemma answer_merged cond combined merged :
  query_only cond = true → query_only combined = true →
  merge_child cond combined = Merged merged →
  answer merged = answer combined ∩ answer cond.
Proof.
  intros Hc Hcomb Hm. unfold within_base.
  rewrite (oracle_merges _ _ _ Hc Hcomb Hm).
  destruct base_assets; set_solver.
Qed.

Lemma combine_loop_res cs combined n :
  query_only combined = true →
  forallb is_query_leaf cs = true →
  combine_loop cs combined = Some n →
  is_default_leaf (Some n) = false →
  ∃ m, n = leaf m ∧ query_only m = true
       ∧ answer m
         = default (answer combined)
             (meet (Some (answer combined)) (intersection_of (map res cs))).
Proof.
  revert combined. induction cs as [|child rest IH]; intros combined Hq Hcs.
  - simpl. intros [= <-] _. eauto.
  - cbn [forallb] in Hcs. apply andb_prop in Hcs as [Hchild Hrest].
    apply is_query_leaf_inv in Hchild as (ds & cond & -> & Hcond).
    cbn [combine_loop condition].
    destruct (merge_child cond combined) as [c'| |] eqn:Hm; [|discriminate|].
    + intros Hn Hd.
      destruct (IH c' (merge_child_query_only _ _ _ Hcond Hq Hm) Hrest Hn Hd)
        as (m & -> & Hmq & Hans).
      exists m. split; [reflexivity|]. split; [exact Hmq|].
      rewrite Hans, (answer_merged _ _ _ Hcond Hq Hm).
      cbn [map intersection_of]. rewrite (res_query_leaf ds cond Hcond).
      destruct (intersection_of (map res rest)); simpl; set_solver.
    + intros [= <-] Hd. by vm_compute in Hd.
Qed.

Lemma _combine_and_leaves_res cs cond n :
  forallb is_query_leaf cs = true →
  _combine_and_leaves (Node AND cs cond) = Some n →
  is_default_leaf (Some n) = false →
  ∃ m, n = leaf m ∧ query_only m = true ∧ res n = res (Node AND cs cond).
Proof.
  intros Hcs. unfold _combine_and_leaves. cbn [children].
  destruct (forallb (fun child => bool_decide (node_type child = LEAF)) cs);
    [|discriminate].
  destruct cs as [|child rest].
  - simpl. intros [= <-] Hd. by vm_compute in Hd.
  - cbn [forallb] in Hcs. apply andb_prop in Hcs as [Hchild Hrest].
    apply is_query_leaf_inv in Hchild as (ds & c1 & -> & Hc1).
    cbn [combine_loop condition]. rewrite (merge_child_default c1 Hc1).
    intros Hn Hd.
    destruct (combine_loop_res rest c1 n Hc1 Hrest Hn Hd) as (m & -> & Hmq & Hans).
    exists m. split; [reflexivity|]. split; [exact Hmq|].
    unfold leaf. rewrite (res_query_leaf [] m Hmq), Hans.
    unfold result_set at 2. rewrite evaluate_AND.
    cbn [map intersection_of].
    change (result_of (evaluate client (Node LEAF ds (Some c1)) base_assets
                         date_filters))
      with (res (Node LEAF ds (Some c1))).
    rewrite (res_query_leaf ds c1 Hc1).
    by destruct (intersection_of _).
Qed.

Lemma queries_only_children ty cs cond :
  queries_only (Node ty cs cond) = true → forallb queries_only cs = true.
Proof. simpl. by intros [H _]%andb_prop. Qed.

Lemma flatten_children_queries_only ty cs :
  forallb queries_only cs = true →
  forallb queries_only (flatten_children ty cs) = true.
Proof.
  induction cs as [|c cs IH]; [reflexivity|].
  cbn [forallb]. intros [Hc Hcs]%andb_prop.
  change (flatten_children ty (c :: cs))
    with ((if bool_decide (node_type c = ty) then children c else [c])
          ++ flatten_children ty cs).
  rewrite forallb_app, IH, andb_true_r by assumption.
  case_bool_decide.
  - destruct c as [ty' ds cond]. by eapply queries_only_children.
  - simpl. by rewrite Hc.
Qed.

Lemma leaves_are_query_leaves cs :
  forallb queries_only cs = true →
  forallb (fun child => bool_decide (node_type child = LEAF)) cs = true →
  forallb is_query_leaf cs = true.
Proof.
  induction cs as [|c cs IH]; [reflexivity|].
  cbn [forallb]. intros [Hc Hcs]%andb_prop [Hty Htys]%andb_prop.
  rewrite IH, andb_true_r by assumption.
  destruct c as [ty ds cond]. apply bool_decide_eq_true_1 in Hty.
  simpl in Hty. subst ty. simpl in Hc. by apply andb_prop in Hc as [_ Hc].
Qed.

Lemma optimize_sound_merged (t : ConditionNode) :
  well_formed t = true → queries_only t = true →
  no_empty_intersection t = true →
  res (optimize t) = res t ∧ queries_only (optimize t) = true.
Proof.
  induction t as [ty cs cond IH] using ConditionNode_ind'.
  intros Hwf Hq Hne. simpl in Hwf, Hne.
  apply andb_prop in Hwf as [Hwfs Hwf], Hne as [Hnes Hne].
  pose proof (queries_only_children _ _ _ Hq) as Hqs.
  assert (Hkids : map res (map optimize cs) = map res cs
                  ∧ forallb queries_only (map optimize cs) = true).
  { clear -IH Hwfs Hqs Hnes. induction IH as [|c cs Hc _ IHcs]; [done|].
    cbn [forallb] in *.
    apply andb_prop in Hwfs as [Hw Hws], Hqs as [Hq Hqs], Hnes as [Hn Hns].
    destruct (Hc Hw Hq Hn) as [Hr Hqo].
    destruct (IHcs Hws Hns Hqs) as [Hrs Hqos].
    cbn [map forallb]. by rewrite Hr, Hrs, Hqo, Hqos. }
  destruct Hkids as [Hres Hopt_q].
  assert (Hopt : Forall Optimized (map optimize cs)).
  { apply Forall_map, Forall_forall. intros; apply optimize_Optimized. }
  destruct ty; cbn [optimize is_logical].
  - (* AND *)
    set (fl := flatten_children AND (map optimize cs)) in *.
    assert (Hfl_ne : fl ≠ []).
    { apply flatten_children_nonempty; auto.
      apply negb_true_iff, bool_decide_eq_false_1 in Hwf. by destruct cs. }
    assert (Hfl_q : forallb queries_only fl = true)
      by by apply flatten_children_queries_only.
    assert (Hfl_res : res (Node AND fl cond) = res (Node AND cs cond)).
    { unfold result_set. rewrite !evaluate_AND.
      change (fun c => result_of (evaluate client c base_assets date_filters))
        with res.
      unfold fl. by rewrite flatten_AND_results, Hres. }
    unfold simplify. cbn [node_type children].
    rewrite bool_decide_eq_true_2 by reflexivity.
    destruct (_combine_and_leaves (Node AND fl cond)) as [n|] eqn:Hcomb.
    + apply negb_true_iff in Hne.
      assert (Hleaves : forallb is_query_leaf fl = true).
      { apply leaves_are_query_leaves; [exact Hfl_q|].
        unfold _combine_and_leaves in Hcomb. cbn [children] in Hcomb.
        by destruct (forallb (fun child => bool_decide (node_type child = LEAF))
                       fl). }
      destruct (_combine_and_leaves_res fl cond n Hleaves Hcomb Hne)
        as (m & -> & Hmq & Hn).
      split; [by rewrite Hn|]. simpl. by rewrite Hmq.
    + cbn [is_logical]. rewrite <- Hfl_res.
      destruct fl as [|c1 [|c2 fl']] eqn:Hfl; [done| |].
      * split.
        -- unfold result_set at 2. rewrite evaluate_AND. reflexivity.
        -- cbn [forallb] in Hfl_q. by apply andb_prop in Hfl_q as [? _].
      * split; [reflexivity|]. simpl in *. by rewrite Hfl_q.
  - (* OR *)
    set (fl := flatten_children OR (map optimize cs)) in *.
    assert (Hfl_ne : fl ≠ []).
    { apply flatten_children_nonempty; auto.
      apply negb_true_iff, bool_decide_eq_false_1 in Hwf. by destruct cs. }
    assert (Hfl_q : forallb queries_only fl = true)
      by by apply flatten_children_queries_only.
    assert (Hfl_res : res (Node OR fl cond) = res (Node OR cs cond)).
    { unfold result_set. rewrite !evaluate_OR.
      change (fun c => result_of (evaluate client c base_assets date_filters))
        with res.
      unfold fl. by rewrite flatten_OR_results, Hres. }
    unfold simplify. cbn [node_type children is_logical].
    rewrite bool_decide_eq_false_2 by discriminate.
    rewrite <- Hfl_res.
    destruct fl as [|c1 [|c2 fl']] eqn:Hfl; [done| |].
    + split.
      * unfold result_set at 2. rewrite evaluate_OR. simpl. set_solver.
      * cbn [forallb] in Hfl_q. by apply andb_prop in Hfl_q as [? _].
    + split; [reflexivity|]. simpl in *. by rewrite Hfl_q.
  - (* LEAF *)
    split; [reflexivity|].
    simpl in Hq. apply andb_prop in Hq as [_ Hq].
    unfold simplify. simpl. rewrite Hopt_q. exact Hq.
Qed.
End MergedQueries.

(** ** An oracle over a finite library answers merged queries *)

Lemma set_is_favorite_id c : set_is_favorite (is_favorite c) c = c.
Proof. by destruct c. Qed.
Lemma set_asset_types_id c : set_asset_types (asset_types c) c = c.
Proof. by destruct c. Qed.
Lemma set_camera_make_id c : set_camera_make (camera_make c) c = c.
Proof. by destruct c. Qed.
Lemma set_camera_model_id c : set_camera_model (camera_model c) c = c.
Proof. by destruct c. Qed.
Lemma set_person_ids_id c : set_person_ids (person_ids c) c = c.
Proof. by destruct c. Qed.

Lemma merge_is_favorite_inv cond combined c' :
  merge_is_favorite cond combined = Merged c' →
  c' = set_is_favorite
         (match is_favorite cond with
          | Some f => Some f
          | None => is_favorite combined
          end) combined
  ∧ (is_favorite cond = None ∨ is_favorite combined = None).
Proof.
  unfold merge_is_favorite. destruct (is_favorite cond).
  - destruct (is_favorite combined); [discriminate|]. intros [= <-]. auto.
  - intros [= <-]. by rewrite set_is_favorite_id; auto.
Qed.

Lemma merge_asset_types_inv cond combined c' :
  merge_asset_types cond combined = Merged c' →
  c' = set_asset_types
         (match asset_types cond, asset_types combined with
          | Some ts, Some cur => Some (asset_type_intersection cur ts)
          | Some ts, None => Some ts
          | None, cur => cur
          end) combined.
Proof.
  unfold merge_asset_types. destruct (asset_types cond) as [ts|].
  - destruct (asset_types combined) as [cur|]; [|by intros [= <-]].
    destruct (asset_type_intersection cur ts); [discriminate|]. by intros [= <-].
  - intros [= <-]. by rewrite set_asset_types_id.
Qed.

Lemma merge_camera_make_inv cond combined c' :
  merge_camera_make cond combined = Merged c' →
  c' = set_camera_make
         (if truthy_str (camera_make cond) then camera_make cond
          else camera_make combined) combined
  ∧ (truthy_str (camera_make cond) = true →
     truthy_str (camera_make combined) = true →
     camera_make combined = camera_make cond).
Proof.
  unfold merge_camera_make. destruct (truthy_str (camera_make cond)).
  - destruct (truthy_str (camera_make combined)); simpl.
    + case_bool_decide; simpl; [|discriminate]. intros [= <-]. auto.
    + intros [= <-]. split; [reflexivity|discriminate].
  - intros [= <-]. rewrite set_camera_make_id. split; [reflexivity|discriminate].
Qed.

Lemma merge_camera_model_inv cond combined c' :
  merge_camera_model cond combined = Merged c' →
  c' = set_camera_model
         (if truthy_str (camera_model cond) then camera_model cond
          else camera_model combined) combined
  ∧ (truthy_str (camera_model cond) = true →
     truthy_str (camera_model combined) = true →
     camera_model combined = camera_model cond).
Proof.
  unfold merge_camera_model. destruct (truthy_str (camera_model cond)).
  - destruct (truthy_str (camera_model combined)); simpl.
    + case_bool_decide; simpl; [|discriminate]. intros [= <-]. auto.
    + intros [= <-]. split; [reflexivity|discriminate].
  - intros [= <-]. rewrite set_camera_model_id. split; [reflexivity|discriminate].
Qed.

Lemma merge_person_ids_inv cond combined c' :
  merge_person_ids cond combined = Merged c' →
  c' = set_person_ids
         (if truthy_list (person_ids cond) then person_ids cond
          else person_ids combined) combined
  ∧ (truthy_list (person_ids cond) = true → person_ids combined = None).
Proof.
  unfold merge_person_ids. destruct (truthy_list (person_ids cond)).
  - destruct (person_ids combined); [discriminate|]. intros [= <-]. auto.
  - intros [= <-]. rewrite set_person_ids_id. split; [reflexivity|discriminate].
Qed.

Lemma passes_favorite a cond combined :
  is_favorite cond = None ∨ is_favorite combined = None →
  passes_option (fun f => bool_decide (la_favorite a = f))
    (match is_favorite cond with
     | Some f => Some f
     | None => is_favorite combined
     end)
  = passes_option (fun f => bool_decide (la_favorite a = f)) (is_favorite combined)
    && passes_option (fun f => bool_decide (la_favorite a = f)) (is_favorite cond).
Proof.
  intros [-> | ->]; simpl.
  - by rewrite andb_true_r.
  - by destruct (is_favorite cond).
Qed.

Lemma elem_of_asset_type_intersection t cur ts :
  t ∈ asset_type_intersection cur ts ↔ t ∈ cur ∧ t ∈ ts.
Proof. unfold asset_type_intersection. rewrite elem_of_elements. set_solver. Qed.

Lemma passes_asset_types a cond combined :
  passes_option (fun ts => bool_decide (la_type a ∈ ts))
    (match asset_types cond, asset_types combined with
     | Some ts, Some cur => Some (asset_type_intersection cur ts)
     | Some ts, None => Some ts
     | None, cur => cur
     end)
  = passes_option (fun ts => bool_decide (la_type a ∈ ts)) (asset_types combined)
    && passes_option (fun ts => bool_decide (la_type a ∈ ts)) (asset_types cond).
Proof.
  destruct (asset_types cond) as [ts|], (asset_types combined) as [cur|];
    simpl; rewrite ?andb_true_r; try reflexivity.
  rewrite <- bool_decide_and. apply bool_decide_ext.
  apply elem_of_asset_type_intersection.
Qed.

Lemma passes_camera (field : LibraryAsset → string) a (mine theirs : option string) :
  (truthy_str mine = true → truthy_str theirs = true → theirs = mine) →
  passes_option (fun m => bool_decide (field a = m))
    (if truthy_str (if truthy_str mine then mine else theirs)
     then (if truthy_str mine then mine else theirs) else None)
  = passes_option (fun m => bool_decide (field a = m))
      (if truthy_str theirs then theirs else None)
    && passes_option (fun m => bool_decide (field a = m))
         (if truthy_str mine then mine else None).
Proof.
  intros Hsame. destruct (truthy_str mine) eqn:Hm.
  - rewrite Hm. destruct (truthy_str theirs) eqn:Ht; simpl; [|reflexivity].
    rewrite (Hsame eq_refl eq_refl). by rewrite andb_diag.
  - simpl. by rewrite andb_true_r.
Qed.

Lemma passes_people a cond combined :
  absent_or_truthy_list (person_ids cond) = true →
  (truthy_list (person_ids cond) = true → person_ids combined = None) →
  passes_option (fun ids => bool_decide (ids ⊆ la_people a))
    (if truthy_list (person_ids cond) then person_ids cond
     else person_ids combined)
  = passes_option (fun ids => bool_decide (ids ⊆ la_people a)) (person_ids combined)
    && passes_option (fun ids => bool_decide (ids ⊆ la_people a)) (person_ids cond).
Proof.
  intros Habs Hnone. destruct (truthy_list (person_ids cond)) eqn:Ht.
  - by rewrite (Hnone eq_refl).
  - destruct (person_ids cond) as [[|]|]; try discriminate. simpl.
    by rewrite andb_true_r.
Qed.

Lemma asset_passes_merged date_filters cond combined merged a :
  query_only cond = true →
  merge_child cond combined = Merged merged →
  asset_passes (leaf_search_params date_filters merged) a
  = asset_passes (leaf_search_params date_filters combined) a
    && asset_passes (leaf_search_params date_filters cond) a.
Proof.
  intros (_ & _ & _ & Hpeople & _)%query_only_fields
         (c1 & c2 & c3 & c4 & H1 & H2 & H3 & H4 & H5)%merge_child_Merged.
  apply merge_is_favorite_inv in H1 as [-> Hfav].
  apply merge_asset_types_inv in H2 as ->.
  apply merge_camera_make_inv in H3 as [-> Hmake].
  apply merge_camera_model_inv in H4 as [-> Hmodel].
  apply merge_person_ids_inv in H5 as [-> Hpeople'].
  cbn in Hmake, Hmodel, Hpeople'.
  unfold asset_passes, leaf_search_params.
  cbn [sp_is_favorite sp_asset_types sp_camera_make sp_camera_model
       sp_include_people_ids is_favorite asset_types camera_make camera_model
       person_ids set_is_favorite set_asset_types set_camera_make
       set_camera_model set_person_ids].
  rewrite (passes_favorite a cond combined Hfav).
  rewrite (passes_asset_types a cond combined).
  rewrite (passes_camera la_make a _ _ Hmake).
  rewrite (passes_camera la_model a _ _ Hmodel).
  rewrite (passes_people a cond combined Hpeople Hpeople').
  repeat match goal with
         | |- context [passes_option ?f ?x] =>
             generalize (passes_option f x); intro
         end.
  repeat match goal with b : bool |- _ => destruct b end; reflexivity.
Qed.

Lemma library_client_answers_merged_queries assets date_filters :
  answers_merged_queries (library_client assets) date_filters.
Proof.
  intros cond combined merged Hcond _ Hm.
  unfold library_client. cbn [search_assets].
  apply set_eq. intros aid.
  rewrite elem_of_intersection, !elem_of_dom. split.
  - intros [a [Ha Hp]%map_lookup_filter_Some]. cbn [snd] in Hp.
    rewrite (asset_passes_merged _ _ _ _ _ Hcond Hm) in Hp.
    apply andb_prop in Hp as [H1 H2].
    split; exists a; by apply map_lookup_filter_Some.
  - intros [[a [Ha H1]%map_lookup_filter_Some]
            [a' [Ha' H2]%map_lookup_filter_Some]].
    simplify_eq. cbn [snd] in *. exists a. apply map_lookup_filter_Some.
    split; [exact Ha|]. cbn [snd].
    by rewrite (asset_passes_merged _ _ _ _ _ Hcond Hm), H1, H2.
Qed.

(** C1 (as stated, refuted).  With a search that treats a missing
    [asset_types] as "images only", [AND(VIDEO, favourite)] evaluates to the
    empty set (the second leaf asks for favourite images), while its
    optimized form, the single leaf [asset_types=VIDEO, is_favorite=True],
    returns the favourite video. *)
Lemma optimize_changes_evaluation :
  result_of (evaluate one_video_client (optimize video_and_favorite) None None)
  ≠ result_of (evaluate one_video_client video_and_favorite None None).
Proof.
  assert (H1 : result_of (evaluate one_video_client (optimize video_and_favorite)
                            None None) = {["v1"]}) by (vm_compute; reflexivity).
  assert (H2 : result_of (evaluate one_video_client video_and_favorite None None)
               = ∅) by (vm_compute; reflexivity).
  rewrite H1, H2. set_solver.
Qed.

(** C1 (amended).  For every tree built through the constructor, every
    client, base set and date filters, the optimized tree evaluates to the
    same asset-id set as the original
    - whenever the optimizer combines no leaves on it (flattening and
      single-child collapse preserve evaluation for every oracle), and
    - whenever every leaf is a plain oracle query, no combination meets an
      empty asset-type intersection, and the oracle answers a merged query
      with the intersection of the answers to the queries it was merged
      from. *)
Theorem optimize_preserves_evaluation
    (client : Client) (t : ConditionNode)
    (base_assets : option (gset string)) (date_filters : option DateFilters) :
  well_formed t = true →
  merge_free t = true
  ∨ (queries_only t = true ∧ no_empty_intersection t = true
     ∧ answers_merged_queries client date_filters) →
  result_of (evaluate client (optimize t) base_assets date_filters)
  = result_of (evaluate client t base_assets date_filters).
Proof.
  intros Hwf [Hfree|(Hq & Hne & Horacle)].
  - by apply optimize_sound.
  - by apply (optimize_sound_merged client base_assets date_filters Horacle).
Qed.

Lemma optimize_preserves_evaluation_witness :
  result_of (evaluate one_video_client (optimize nested_without_merge)
               (Some {["v1"; "i1"]}) None)
  = result_of (evaluate one_video_client nested_without_merge
                 (Some {["v1"; "i1"]}) None)
  ∧ result_of (evaluate (library_client two_favourites) (optimize merging_tree)
                 (Some {["v1"; "i1"; "x1"]}) None)
    = result_of (evaluate (library_client two_favourites) merging_tree
                   (Some {["v1"; "i1"; "x1"]}) None).
Proof.
  split.
  - apply optimize_preserves_evaluation; [reflexivity|]. left. reflexivity.
  - apply optimize_preserves_evaluation; [reflexivity|]. right.
    split; [reflexivity|]. split; [vm_compute; reflexivity|].
    apply library_client_answers_merged_queries.
Defined.

(** On that tree the optimizer does merge: three leaves become two. *)
Lemma merging_tree_optimized :
  optimize merging_tree
  = Node OR
      [leaf (set_is_favorite (Some true) (only_asset_types ["VIDEO"]));
       leaf (only_asset_types ["IMAGE"])]
      None.
Proof. reflexivity. Qed.

(** ** Leaf combination *)

(** C2 (the code departs from the claim).  The AND of an IMAGE-only and a
    VIDEO-only leaf is replaced by [LEAF(FilterCondition())]; that leaf makes
    no client call, but it has no filters, so its evaluation returns the base
    set, here the non-empty [{"a1"}], where the claim (and the comment
    "no results possible") asks for the empty set. *)
Theorem empty_type_intersection_returns_base :
  optimize image_and_video = leaf FilterCondition_default
  ∧ ∀ client date_filters,
      evaluate client (optimize image_and_video) (Some {["a1"]}) date_filters
      = ({["a1"]}, []).
Proof. split; [vm_compute; reflexivity|]. intros. reflexivity. Qed.

Lemma combine_loop_resolution cs combined c :
  combine_loop cs combined = Some (leaf c) →
  resolution c = resolution combined ∨ resolution c = None.
Proof.
  revert combined. induction cs as [|child rest IH]; intros combined; simpl.
  - intros [= <-]. by left.
  - destruct (condition child) as [cond|]; [|apply IH].
    destruct (merge_child cond combined) as [c'| |] eqn:Hm; [|discriminate|].
    + intros H. apply IH in H. apply merge_child_resolution in Hm.
      rewrite <- Hm. exact H.
    + intros [= <-]. by right.
Qed.

(** Whatever the children hold, a combined leaf carries no resolution. *)
Lemma _combine_and_leaves_drops_resolution self c :
  _combine_and_leaves self = Some (leaf c) → resolution c = None.
Proof.
  unfold _combine_and_leaves. destruct (forallb _ _); [|discriminate].
  intros H. apply combine_loop_resolution in H as [H|H]; exact H.
Qed.

(** C4 (the code departs from the claim).  The AND of a leaf asking for
    1920x1080 and a favourite leaf is merged into the leaf
    [is_favorite=True] alone: the resolution list is not carried over. *)
Theorem merge_loses_resolution :
  optimize full_hd_and_favorite = leaf (only_is_favorite true)
  ∧ resolution (only_is_favorite true) = None.
Proof. split; reflexivity. Qed.

(** ** Person-identifier lists are not merged *)

Lemma merge_child_keeps_people cond combined c' :
  merge_child cond combined = Merged c' →
  is_not_None (person_ids combined) = true →
  is_not_None (person_ids c') = true ∧ supplies_people cond = false.
Proof.
  intros (c1 & c2 & c3 & c4 & H1 & H2 & H3 & H4 & H5)%merge_child_Merged Hp.
  apply merge_is_favorite_other in H1 as [_ H1].
  apply merge_asset_types_other in H2 as [_ H2].
  apply merge_camera_make_other in H3 as [_ H3].
  apply merge_camera_model_other in H4 as [_ H4].
  assert (Hp4 : person_ids c4 = person_ids combined) by congruence.
  unfold merge_person_ids, supplies_people in *.
  destruct (truthy_list (person_ids cond)).
  - rewrite Hp4 in H5. destruct (person_ids combined); discriminate.
  - injection H5 as <-. rewrite Hp4. auto.
Qed.

Lemma merge_child_takes_people cond combined c' :
  merge_child cond combined = Merged c' →
  supplies_people cond = true →
  is_not_None (person_ids c') = true.
Proof.
  intros (c1 & c2 & c3 & c4 & _ & _ & _ & _ & H5)%merge_child_Merged Hp.
  unfold merge_person_ids, supplies_people in *. rewrite Hp in H5.
  destruct (person_ids c4); [discriminate|]. injection H5 as <-.
  simpl. unfold truthy_list in Hp. by destruct (person_ids cond).
Qed.

Lemma merge_child_NoResultsPossible cond combined :
  merge_child cond combined = NoResultsPossible →
  is_not_None (asset_types cond) = true.
Proof.
  destruct (asset_types cond) eqn:Hts; [reflexivity|].
  unfold merge_child, merge_bind, merge_is_favorite, merge_asset_types,
    merge_camera_make, merge_camera_model, merge_person_ids.
  rewrite Hts. intros H. repeat case_match; discriminate.
Qed.

Lemma fails_or_short_circuits_cons child rest r :
  fails_or_short_circuits rest r → fails_or_short_circuits (child :: rest) r.
Proof.
  intros [H|[H1 H2]]; [by left|right]. split; [exact H1|].
  simpl. rewrite H2. apply orb_true_r.
Qed.

Lemma node_supplies_people_Some child cond :
  condition child = Some cond → node_supplies_people child = supplies_people cond.
Proof. unfold node_supplies_people. by intros ->. Qed.

Lemma node_supplies_people_None child :
  condition child = None → node_supplies_people child = false.
Proof. unfold node_supplies_people. by intros ->. Qed.

Lemma short_circuit_here child rest cond combined :
  condition child = Some cond →
  merge_child cond combined = NoResultsPossible →
  fails_or_short_circuits (child :: rest) (Some (leaf FilterCondition_default)).
Proof.
  intros Hc Hm. right. split; [reflexivity|]. simpl.
  unfold node_sets_asset_types at 1. rewrite Hc.
  by rewrite (merge_child_NoResultsPossible _ _ Hm).
Qed.

Lemma combine_loop_second_people cs combined :
  is_not_None (person_ids combined) = true →
  (1 ≤ length (List.filter node_supplies_people cs))%nat →
  fails_or_short_circuits cs (combine_loop cs combined).
Proof.
  revert combined. induction cs as [|child rest IH]; intros combined Hp Hn;
    simpl in *; [lia|].
  destruct (condition child) as [cond|] eqn:Hc.
  - rewrite (node_supplies_people_Some _ _ Hc) in Hn.
    destruct (merge_child cond combined) as [c'| |] eqn:Hm.
    + destruct (merge_child_keeps_people _ _ _ Hm Hp) as [Hp' Hno].
      rewrite Hno in Hn. apply fails_or_short_circuits_cons. by apply IH.
    + by left.
    + eapply short_circuit_here; eauto.
  - rewrite (node_supplies_people_None _ Hc) in Hn.
    apply fails_or_short_circuits_cons. by apply IH.
Qed.

Lemma combine_loop_two_people cs combined :
  (2 ≤ length (List.filter node_supplies_people cs))%nat →
  fails_or_short_circuits cs (combine_loop cs combined).
Proof.
  revert combined. induction cs as [|child rest IH]; intros combined Hn;
    simpl in *; [lia|].
  destruct (condition child) as [cond|] eqn:Hc.
  - rewrite (node_supplies_people_Some _ _ Hc) in Hn.
    destruct (merge_child cond combined) as [c'| |] eqn:Hm.
    + apply fails_or_short_circuits_cons.
      destruct (supplies_people cond) eqn:Hs; simpl in Hn.
      * apply combine_loop_second_people; [|lia].
        eapply merge_child_takes_people; eauto.
      * by apply IH.
    + by left.
    + eapply short_circuit_here; eauto.
  - rewrite (node_supplies_people_None _ Hc) in Hn.
    apply fails_or_short_circuits_cons. by apply IH.
Qed.

Lemma optimize_LEAF cs cond :
  optimize (Node LEAF cs cond) = Node LEAF (map optimize cs) cond.
Proof. reflexivity. Qed.

Lemma people_leaves_survive_flattening cs :
  (length (List.filter is_people_leaf cs)
   ≤ length (List.filter node_supplies_people
               (flatten_children AND (map optimize cs))))%nat.
Proof.
  induction cs as [|c cs IH]; [reflexivity|].
  change (flatten_children AND (map optimize (c :: cs)))
    with ((if bool_decide (node_type (optimize c) = AND)
           then children (optimize c) else [optimize c])
          ++ flatten_children AND (map optimize cs)).
  rewrite List.filter_app, length_app. cbn [List.filter].
  destruct (is_people_leaf c) eqn:Hc; [|lia].
  unfold is_people_leaf in Hc. apply andb_prop in Hc as [Hty Hp].
  apply bool_decide_eq_true_1 in Hty. destruct c as [ty ds cond].
  simpl in Hty. subst ty. rewrite optimize_LEAF. cbn [node_type].
  rewrite bool_decide_eq_false_2 by discriminate.
  unfold node_supplies_people in *. cbn [condition] in *.
  cbn [List.filter condition]. rewrite Hp. simpl. lia.
Qed.

(** C5 (as stated, refuted).  Two leaves that both supply person
    identifiers and whose asset types clash: the AND node is replaced by a
    single leaf. *)
Lemma people_leaves_collapse_on_type_clash :
  (2 ≤ length (List.filter is_people_leaf
                 (children clashing_types_with_people)))%nat
  ∧ _combine_and_leaves clashing_types_with_people
    = Some (leaf FilterCondition_default)
  ∧ optimize clashing_types_with_people = leaf FilterCondition_default.
Proof. repeat split; vm_compute; first [reflexivity|lia]. Qed.

(** C5 (amended).  When the children of an AND node include two or more
    leaves that supply a non-empty person-identifier list, [optimize] never
    returns a leaf holding person identifiers for it.  Either leaf
    combination fails and the result is the AND node over the optimized and
    flattened children (at least two), or, only if some child sets asset
    types, the empty-intersection early return fires first and the result is
    the leaf without filters. *)
Theorem people_leaves_never_merge
    (cs : list ConditionNode) (cond : option FilterCondition) :
  (2 ≤ length (List.filter is_people_leaf cs))%nat →
  let flattened := flatten_children AND (map optimize cs) in
  (_combine_and_leaves (Node AND flattened cond) = None
   ∧ optimize (Node AND cs cond) = Node AND flattened cond
   ∧ (2 ≤ length flattened)%nat)
  ∨ (_combine_and_leaves (Node AND flattened cond)
     = Some (leaf FilterCondition_default)
     ∧ optimize (Node AND cs cond) = leaf FilterCondition_default
     ∧ existsb node_sets_asset_types flattened = true).
Proof.
  intros Hn flattened.
  assert (Hcount : (2 ≤ length (List.filter node_supplies_people flattened))%nat).
  { etrans; [exact Hn|]. apply people_leaves_survive_flattening. }
  assert (Hlen : (2 ≤ length flattened)%nat).
  { etrans; [exact Hcount|]. apply List.filter_length_le. }
  assert (Hcomb : fails_or_short_circuits flattened
                    (_combine_and_leaves (Node AND flattened cond))).
  { unfold _combine_and_leaves. cbn [children].
    destruct (forallb _ flattened); [|by left].
    by apply combine_loop_two_people. }
  change (optimize (Node AND cs cond)) with (simplify (Node AND flattened cond)).
  unfold simplify. cbn [node_type children is_logical].
  rewrite bool_decide_eq_true_2 by reflexivity.
  destruct Hcomb as [H|[H1 H2]].
  - left. rewrite H. split; [reflexivity|]. split; [|exact Hlen].
    destruct flattened as [|c1 [|c2 fl]]; simpl in Hlen; try lia. reflexivity.
  - right. rewrite H1. auto.
Qed.

Lemma people_leaves_never_merge_witness :
  let flattened := flatten_children AND (map optimize people_around_favorite) in
  (_combine_and_leaves (Node AND flattened None) = None
   ∧ optimize (Node AND people_around_favorite None) = Node AND flattened None
   ∧ (2 ≤ length flattened)%nat)
  ∨ (_combine_and_leaves (Node AND flattened None)
     = Some (leaf FilterCondition_default)
     ∧ optimize (Node AND people_around_favorite None)
       = leaf FilterCondition_default
     ∧ existsb node_sets_asset_types flattened = true).
Proof.
  apply (people_leaves_never_merge people_around_favorite None).
  simpl. lia.
Defined.

(** The example of the specification: two leaves with different person
    lists stay a 2-child AND. *)
Lemma two_people_leaves_stay_apart :
  optimize (Node AND [leaf (only_person_ids ["a"]); leaf (only_person_ids ["b"])]
              None)
  = Node AND [leaf (only_person_ids ["a"]); leaf (only_person_ids ["b"])] None.
Proof. reflexivity. Qed.

(** A present but empty person list is not seen by the merge: here the
    combination succeeds and the merged leaf asks for person ["a"] alone. *)
Lemma empty_person_list_is_merged_away :
  optimize (Node AND [leaf (only_person_ids []); leaf (only_person_ids ["a"])]
              None)
  = leaf (only_person_ids ["a"]).
Proof. reflexivity. Qed.

(** ** The empty person list *)

(** C7. A leaf whose person-identifier list is present and empty evaluates
    to the empty set without any client call, whatever the base set, the
    date filters and the other fields of the leaf. *)
Theorem empty_person_list_short_circuits
    (client : Client) (c : FilterCondition) (cs : list ConditionNode)
    (base_assets : option (gset string)) (date_filters : option DateFilters) :
  person_ids c = Some [] →
  evaluate client (Node LEAF cs (Some c)) base_assets date_filters = (∅, []).
Proof.
  intros Hp. simpl. unfold _evaluate_leaf.
  assert (Hf : has_filters c = true).
  { unfold has_filters. rewrite Hp. simpl. by rewrite !orb_true_r. }
  rewrite Hf, Hp. reflexivity.
Qed.

Lemma empty_person_list_short_circuits_witness :
  evaluate one_video_client
    (Node LEAF [] (Some (set_person_ids (Some []) (only_asset_types ["VIDEO"]))))
    (Some {["v1"]}) None
  = (∅, []).
Proof. apply empty_person_list_short_circuits. reflexivity. Defined.

Lemma map_result_CStr field names :
  map_result (config_str field) (map CStr names) = ok names.
Proof.
  induction names as [|n names IH]; [reflexivity|].
  change (map_result (config_str field) (map CStr (n :: names)))
    with (result_bind (ok n) (fun b =>
            result_bind (map_result (config_str field) (map CStr names))
              (fun bs => ok (b :: bs)))).
  by rewrite IH.
Qed.

(** Where the empty list comes from: names were asked for and the resolver
    found none of them (lines 217-225). *)
Lemma unresolved_people_leave_empty_list resolve_people_names name names :
  resolve_people_names (name :: names) = [] →
  from_config (Some resolve_people_names)
    (CDict [("people", CDict [("include", CList (map CStr (name :: names)))])])
  = ok (leaf (only_person_ids [])).
Proof.
  intros Hres.
  change (from_config (Some resolve_people_names)
            (CDict [("people", CDict [("include", CList (map CStr (name :: names)))])]))
    with (result_bind
            (result_bind
               (map_result (config_str "people.include") (map CStr (name :: names)))
               (fun ns => match resolve_people_names ns with
                          | [] => ok (set_person_ids (Some []) FilterCondition_default)
                          | ids => ok (set_person_ids (Some ids) FilterCondition_default)
                          end))
            (fun c4 => ConditionNode_init LEAF [] (Some c4))).
  rewrite map_result_CStr. simpl. rewrite Hres. reflexivity.
Qed.

(** ** Resolution post-filter *)

Lemma check_single_asset_result client targets aid :
  check_single_asset client targets aid
  = (if asset_matches client targets aid then Some aid else None,
     [MetadataCall aid]).
Proof.
  unfold check_single_asset, asset_matches, call_metadata, bind, ret. simpl.
  destruct (get_asset_metadata client aid) as [data|]; [|reflexivity].
  by destruct (_extract_resolution data) as [e|[r|]].
Qed.

Lemma collect_matching_result client targets ids matching a :
  a ∈ result_of (collect_matching client targets ids matching)
  ↔ a ∈ matching
    ∨ (a ∈ ids ∧ a ≠ "" ∧ asset_matches client targets a = true).
Proof.
  revert matching. induction ids as [|aid rest IH]; intros matching.
  - unfold result_of; simpl. set_solver.
  - cbn [collect_matching].
    rewrite result_of_bind, check_single_asset_result. unfold result_of at 2.
    cbn [fst]. rewrite IH.
    rewrite elem_of_cons.
    destruct (asset_matches client targets aid) eqn:Hm.
    + destruct aid as [|ch aid']; cbn [truthy_str].
      * split.
        -- intros [H|(H1 & H2 & H3)]; [by left|]. right. auto.
        -- intros [H|([H|H] & H2 & H3)]; [by left|done|]. right. auto.
      * change (default "" (Some (String ch aid'))) with (String ch aid').
        rewrite elem_of_union, elem_of_singleton. split.
        -- intros [[H|H]|(H1 & H2 & H3)]; [by left| |right; auto].
           subst a. right. split; [by left|]. split; [discriminate|exact Hm].
        -- intros [H|([H|H] & H2 & H3)]; [by left; left|by left; right|].
           right. auto.
    + cbn [truthy_str]. split.
      * intros [H|(H1 & H2 & H3)]; [by left|]. right. auto.
      * intros [H|([H|H] & H2 & H3)]; [by left|congruence|]. right. auto.
Qed.



(** With no assets or no targets: the empty set, and no fetch. *)
Lemma filter_by_resolution_empty client asset_ids targets :
  asset_ids = ∅ ∨ targets = [] →
  filter_by_resolution client asset_ids targets = (∅, []).
Proof.
  intros [->| ->]; unfold filter_by_resolution.
  - by rewrite bool_decide_eq_true_2.
  - rewrite (bool_decide_eq_true_2 ([] = [])) by reflexivity.
    by rewrite orb_true_r.
Qed.

(** The pair [_extract_resolution] reads from a record whose ['exifInfo'] is
    a dictionary or is missing: the EXIF size when both EXIF values are
    present and non-zero, else the file size under the same condition. *)
Lemma _extract_resolution_exif data exif w h :
  get_exifInfo data = ok exif →
  exifImageWidth exif = Some w → exifImageHeight exif = Some h →
  w ≠ 0%Z → h ≠ 0%Z →
  _extract_resolution data = ok (Some (w, h)).
Proof.
  intros Hexif Hw Hh Hw0 Hh0. unfold _extract_resolution.
  rewrite Hexif. cbn [result_bind ok]. rewrite Hw, Hh. simpl.
  apply Z.eqb_neq in Hw0, Hh0. by rewrite Hw0, Hh0.
Qed.





(** ** Tree construction: "and" before "or" *)

Lemma dict_find_get {A} key (found : config → A) missing entries :
  dict_find key found missing entries
  = match dict_get key entries with
    | Some v => found v
    | None => missing
    end.
Proof.
  unfold dict_get. induction entries as [|[k v] rest IH]; simpl; [reflexivity|].
  destruct (String.eqb k key); [reflexivity|exact IH].
Qed.

Lemma from_config_dict people_resolver entries :
  from_config people_resolver (CDict entries)
  = match dict_get "and" entries with
    | Some operands =>
        build_operator AND "'and:' must be a list of conditions"
          (from_config people_resolver) operands
    | None =>
        match dict_get "or" entries with
        | Some operands =>
            build_operator OR "'or:' must be a list of conditions"
              (from_config people_resolver) operands
        | None => _parse_leaf_condition people_resolver entries
        end
    end.
Proof.
  change (from_config people_resolver (CDict entries))
    with (dict_find "and"
            (build_operator AND "'and:' must be a list of conditions"
               (from_config people_resolver))
            (dict_find "or"
               (build_operator OR "'or:' must be a list of conditions"
                  (from_config people_resolver))
               (_parse_leaf_condition people_resolver entries)
               entries)
            entries).
  by rewrite !dict_find_get.
Qed.



(** The "or" entry of that mapping, on its own, is rejected. *)
Lemma or_entry_alone_is_rejected :
  from_config None (CDict [("or", CStr "anything")])
  = raise (ValueError "'or:' must be a list of conditions").
Proof. reflexivity. Qed.

(** The tree built for that mapping. *)
Lemma and_or_entries_tree :
  from_config None (CDict and_or_entries)
  = ok (Node AND [leaf (only_is_favorite true)] None).
Proof. reflexivity. Qed.

(** ** Proximity matcher: seeds without a usable timestamp *)

Lemma fetch_all_calls lib client ids :
  calls_of (fetch_all lib client ids) = map MetadataCall ids.
Proof.
  induction ids as [|aid rest IH]; [reflexivity|].
  cbn [fetch_all]. rewrite !calls_of_bind, IH.
  unfold calls_of, ret, fetch_single, call_metadata, bind; simpl.
  by rewrite app_nil_r.
Qed.

Lemma fetch_all_none lib client ids :
  (∀ a, a ∈ ids → result_of (fetch_single lib client a) = None) →
  result_of (fetch_all lib client ids) = [].
Proof.
  induction ids as [|aid rest IH]; intros Hnone; [reflexivity|].
  cbn [fetch_all]. rewrite !result_of_bind.
  rewrite Hnone by set_solver. rewrite IH by set_solver. reflexivity.
Qed.

Lemma Logged_eta {A} (m : Logged A) : m = (result_of m, calls_of m).
Proof. by destruct m. Qed.

Lemma find_related_assets_no_usable_seed lib self exact_match_ids rule_date_filters :
  (∀ a, a ∈ seeds_of lib exact_match_ids →
        result_of (fetch_single lib (fm_client self) a) = None) →
  find_related_assets lib self exact_match_ids rule_date_filters
  = (ok ∅, map MetadataCall (elements (seeds_of lib exact_match_ids))).
Proof.
  intros Hnone. unfold find_related_assets.
  case_bool_decide as Hempty.
  - subst. unfold seeds_of. rewrite size_empty. simpl.
    by rewrite elements_empty.
  - unfold _fetch_asset_metadata.
    rewrite (Logged_eta (fetch_all _ _ _)).
    rewrite fetch_all_calls, fetch_all_none.
    + unfold bind, ret. simpl. by rewrite app_nil_r.
    + intros a Ha. apply Hnone. by apply elem_of_elements.
Qed.

Lemma _extract_metadata_timestamp lib asset m :
  _extract_metadata lib asset = ok (Some m) → is_Some (timestamp m).
Proof.
  unfold _extract_metadata. destruct (get_exifInfo asset) as [e|exif];
    [discriminate|]. cbn [result_bind]. intros H.
  repeat case_match; simplify_eq; simpl; eauto.
Qed.

Lemma fetch_all_timestamps lib client ids :
  Forall (fun m => is_Some (timestamp m)) (result_of (fetch_all lib client ids)).
Proof.
  induction ids as [|aid rest IH]; [constructor|].
  cbn [fetch_all]. rewrite !result_of_bind.
  unfold fetch_single at 1. rewrite result_of_bind.
  unfold result_of at 1 2 4. simpl.
  destruct (get_asset_metadata client aid) as [data|]; [|exact IH].
  destruct (_extract_metadata lib data) as [e|[m|]] eqn:Hm;
    [exact IH| |exact IH].
  constructor; [|exact IH]. eapply _extract_metadata_timestamp, Hm.
Qed.

Lemma _calculate_time_boundaries_timestamps lib self ms filters :
  ms ≠ [] → Forall (fun m => is_Some (timestamp m)) ms →
  _calculate_time_boundaries lib self ms filters
  ≠ raise (ValueError "No valid timestamps found in metadata").
Proof.
  intros Hne Hts. unfold _calculate_time_boundaries.
  destruct ms as [|m ms]; [done|]. inversion Hts as [|? ? [t Ht] _]; subst.
  unfold usable_timestamps. simpl. rewrite Ht. simpl.
  unfold parse_rule_date, result_bind, raise, ok.
  repeat case_match; simplify_eq; discriminate.
Qed.

(** C3 (as stated, refuted).  A seed whose metadata holds no date at all:
    the invocation returns the empty set and reports nothing. *)
Lemma undated_seed_gives_empty_set :
  result_of (find_related_assets example_library
               (FuzzyMatcher_init undated_client 240 100) {["s1"]} no_rule_dates)
  = ok ∅.
Proof.
  rewrite find_related_assets_no_usable_seed; [reflexivity|].
  intros a _. reflexivity.
Qed.

(** C3 (amended).  When no seed yields a usable timestamp (its fetch fails
    or its metadata holds no parsable date), [find_related_assets] returns
    the empty set after the metadata fetches of the seeds, with no search
    call and no error: the guard on the empty metadata list (lines 84-86)
    returns before [_calculate_time_boundaries] is reached. *)
Theorem find_related_without_usable_seed
    (lib : Library) (self : FuzzyMatcher) (exact_match_ids : gset string)
    (rule_date_filters : DateFilters) :
  (∀ a, a ∈ seeds_of lib exact_match_ids →
        result_of (fetch_single lib (fm_client self) a) = None) →
  result_of (find_related_assets lib self exact_match_ids rule_date_filters)
  = ok ∅
  ∧ calls_of (find_related_assets lib self exact_match_ids rule_date_filters)
    = map MetadataCall (elements (seeds_of lib exact_match_ids)).
Proof.
  intros Hnone. by rewrite find_related_assets_no_usable_seed.
Qed.

Lemma find_related_without_usable_seed_witness :
  result_of (find_related_assets example_library
               (FuzzyMatcher_init undated_client 240 100) {["s1"; "s2"]}
               no_rule_dates)
  = ok ∅
  ∧ calls_of (find_related_assets example_library
                (FuzzyMatcher_init undated_client 240 100) {["s1"; "s2"]}
                no_rule_dates)
    = map MetadataCall (elements (seeds_of example_library {["s1"; "s2"]})).
Proof.
  apply find_related_without_usable_seed. intros a _. reflexivity.
Defined.

(** The error of [_calculate_time_boundaries] never leaves
    [find_related_assets]: the metadata list it is given is non-empty and
    every entry of it has a timestamp. *)
Lemma find_related_assets_never_lacks_timestamps
    lib self exact_match_ids rule_date_filters :
  result_of (find_related_assets lib self exact_match_ids rule_date_filters)
  ≠ raise (ValueError "No valid timestamps found in metadata").
Proof.
  unfold find_related_assets. case_bool_decide; [done|].
  rewrite result_of_bind. unfold _fetch_asset_metadata.
  pose proof (fetch_all_timestamps lib (fm_client self)
                (elements (seeds_of lib exact_match_ids))) as Hts.
  destruct (result_of (fetch_all _ _ _)) as [|m ms] eqn:Hms; [done|].
  pose proof (_calculate_time_boundaries_timestamps lib self (m :: ms)
                rule_date_filters ltac:(done) Hts) as Hb.
  destruct (_calculate_time_boundaries _ _ _ _) as [e|[s e]].
  - unfold result_of, ret, raise. simpl. intros [= ->]. by apply Hb.
  - rewrite result_of_bind. case_bool_decide; [done|].
    rewrite result_of_bind. done.
Qed.

(** ** Proximity filter: coordinates equal to zero *)

Lemma truthy_float_zero : truthy_float (Some 0%R) = false.
Proof. unfold truthy_float. by destruct (Req_dec_T 0 0). Qed.

Lemma haversine_across_the_globe :
  _haversine_distance 0 90 0 (-90) = (6371000 * PI)%R.
Proof.
  unfold _haversine_distance, radians.
  replace ((0 * (PI / 180) - 0 * (PI / 180)) / 2)%R with 0%R by field.
  replace (0 * (PI / 180))%R with 0%R by field.
  replace ((-90 * (PI / 180) - 90 * (PI / 180)) / 2)%R with (- (PI / 2))%R
    by field.
  rewrite sin_0, cos_0, sin_neg, sin_PI2.
  replace (0 ^ 2 + 1 * 1 * Ropp 1 ^ 2)%R with 1%R by ring.
  rewrite sqrt_1, asin_1. field.
Qed.

(** C8 (the code departs from the claim).  Seed and candidate both carry
    GPS coordinates, taken at the same instant on the equator at longitudes
    -90 and 90.  Their haversine distance, half the circumference of the
    Earth, exceeds the 100 m radius, yet the candidate qualifies: latitude
    [0.0] is falsy, so the test [if candidate.latitude and ...] skips the
    GPS check as if the coordinates were missing. *)
Theorem zero_latitude_skips_gps_check :
  let self := FuzzyMatcher_init equator_client 240 100 in
  (_haversine_distance 0 90 0 (-90) > location_radius self)%R
  ∧ within_proximity self noon_time equator_candidate equator_seed = true
  ∧ result_of (_filter_by_proximity example_library self {["c1"]} [equator_seed])
    = {["c1"]}.
Proof.
  intros self.
  assert (Hnear : within_proximity self noon_time equator_candidate equator_seed
                  = true).
  { unfold within_proximity. cbn [timestamp equator_seed].
    replace (Z.abs (noon_time - noon_time) >? time_window self)%Z with false
      by reflexivity.
    cbn [latitude longitude equator_candidate equator_seed].
    by rewrite truthy_float_zero. }
  split; [|split; [exact Hnear|]].
  - rewrite haversine_across_the_globe. cbn [location_radius self FuzzyMatcher_init].
    pose proof PI2_3_2. lra.
  - unfold _filter_by_proximity.
    rewrite bool_decide_eq_false_2 by set_solver.
    rewrite result_of_bind. unfold _fetch_asset_metadata.
    rewrite elements_singleton.
    replace (result_of (fetch_all example_library (fm_client self) ["c1"]))
      with [equator_candidate] by reflexivity.
    unfold result_of, ret. cbn [fst proximity_loop timestamp equator_candidate].
    fold equator_candidate. cbn [near_any_seed]. rewrite Hnear.
    cbn [asset_id]. set_solver.
Qed.

(** * The embedding on the inputs of the repository's tests *)

(** [test_flatten_nested_and] *)
Example flatten_nested_and :
  optimize
    (Node AND
       [leaf (only_asset_types ["IMAGE"]);
        Node AND
          [leaf (only_is_favorite true);
           leaf (set_camera_make (Some "Apple") FilterCondition_default)]
          None]
       None)
  = leaf (mkFilterCondition (Some true) (Some ["IMAGE"]) (Some "Apple") None
            None None None None).
Proof. reflexivity. Qed.

(** [test_flatten_nested_or] *)
Example flatten_nested_or :
  optimize
    (Node OR
       [leaf (only_asset_types ["IMAGE"]);
        Node OR
          [leaf (only_is_favorite true);
           leaf (set_camera_make (Some "Apple") FilterCondition_default)]
          None]
       None)
  = Node OR
      [leaf (only_asset_types ["IMAGE"]);
       leaf (only_is_favorite true);
       leaf (set_camera_make (Some "Apple") FilterCondition_default)]
      None.
Proof. reflexivity. Qed.

(** [test_single_child_simplification] *)
Example single_child_simplification :
  optimize (Node AND [leaf (only_is_favorite true)] None)
  = leaf (only_is_favorite true).
Proof. reflexivity. Qed.

(** [test_empty_result_early_exit]: the first child finds nothing, the
    second is never asked. *)
Example empty_result_early_exit :
  evaluate (mkClient (fun _ => ∅) (fun _ => None))
    (Node AND
       [leaf (only_is_favorite true);
        leaf (set_camera_make (Some "Apple") FilterCondition_default)]
       None)
    None None
  = (∅, [SearchCall (leaf_search_params None (only_is_favorite true))]).
Proof. reflexivity. Qed.

(** [test_and_operation] and the structural errors of the constructor. *)
Example and_operation :
  from_config None
    (CDict [("and", CList [CDict [("is_favorite", CBool true)];
                           CDict [("camera", CDict [("make", CStr "Apple")])]])])
  = ok (Node AND
          [leaf (only_is_favorite true);
           leaf (set_camera_make (Some "Apple") FilterCondition_default)]
          None).
Proof. reflexivity. Qed.

Example and_without_operands :
  from_config None (CDict [("and", CList [])])
  = raise (ValueError "and node must have at least one child").
Proof. reflexivity. Qed.

Example config_of_wrong_type :
  from_config None (CList [])
  = raise (ValueError "Invalid condition config type: list").
Proof. reflexivity. Qed.

(** [test_extract_resolution_prioritizes_exif] and
    [test_extract_resolution_returns_none_when_unavailable] *)
Example extract_resolution_prioritizes_exif :
  _extract_resolution
    (mkAssetData "asset1"
       (ExifDict (mkExifInfo (Some 1920%Z) (Some 1080%Z) None None None))
       (Some 3840%Z) (Some 2160%Z) None None)
  = ok (Some (1920%Z, 1080%Z)).
Proof. reflexivity. Qed.

Example extract_resolution_unavailable :
  _extract_resolution
    (mkAssetData "asset1" (ExifDict exif_absent) None None None None)
  = ok None.
Proof. reflexivity. Qed.

(** [test_calculate_time_boundaries]: seeds at 14:30 and 16:45, a window of
    60 minutes, no rule dates; the window found is 13:30 to 17:45 (times of
    day in microseconds). *)
Example calculate_time_boundaries :
  _calculate_time_boundaries example_library
    (mkFuzzyMatcher one_video_client (60 * 60 * 1000000)%Z 100%R)
    [mkAssetMetadata "asset1" (Some ((14 * 60 + 30) * 60 * 1000000)%Z) None None;
     mkAssetMetadata "asset2" (Some ((16 * 60 + 45) * 60 * 1000000)%Z) None None]
    no_rule_dates
  = ok (((13 * 60 + 30) * 60 * 1000000)%Z, ((17 * 60 + 45) * 60 * 1000000)%Z).
Proof. reflexivity. Qed.

(** [test_calculate_time_boundaries_no_timestamps] *)
Example calculate_time_boundaries_no_timestamps :
  _calculate_time_boundaries example_library
    (mkFuzzyMatcher one_video_client (240 * 60 * 1000000)%Z 100%R)
    [mkAssetMetadata "asset1" None None None;
     mkAssetMetadata "asset2" None None None]
    no_rule_dates
  = raise (ValueError "No valid timestamps found in metadata").
Proof. reflexivity. Qed.

(** The distance of a point to itself. *)
Lemma haversine_same_point lat lon : _haversine_distance lat lon lat lon = 0%R.
Proof.
  unfold _haversine_distance.
  replace ((radians lat - radians lat) / 2)%R with 0%R by field.
  replace ((radians lon - radians lon) / 2)%R with 0%R by field.
  rewrite sin_0.
  replace (0 ^ 2 + cos (radians lat) * cos (radians lat) * 0 ^ 2)%R
    with 0%R by ring.
  rewrite sqrt_0, asin_0. ring.
Qed.

(** * Further properties of the code *)

(** ** The evaluator *)

Lemma intersection_of_None l : intersection_of l = None ↔ l = [].
Proof.
  destruct l as [|x l]; simpl; [done|].
  split; [|done]. by destruct (intersection_of l).
Qed.

Lemma elem_of_intersection_of l x (a : string) :
  intersection_of l = Some x → (a ∈ x ↔ ∀ y, y ∈ l → a ∈ y).
Proof.
  revert x. induction l as [|y l IH]; intros x; simpl; [done|].
  destruct (intersection_of l) as [z|] eqn:Hl; simpl; intros [= <-].
  - specialize (IH z eq_refl). rewrite elem_of_intersection, IH. split.
    + intros [Hy Hl'] y' [->|Hin]%elem_of_cons; auto.
    + intros H. split; [apply H; left|intros y' Hy'; apply H; by right].
  - apply intersection_of_None in Hl as ->. split.
    + intros Hy y' [->|Hin]%elem_of_cons; [done|]. by apply elem_of_nil in Hin.
    + intros H. apply H. left.
Qed.

Lemma elem_of_evaluate_AND client cs cond base_assets date_filters a :
  a ∈ result_of (evaluate client (Node AND cs cond) base_assets date_filters)
  ↔ cs ≠ []
    ∧ ∀ c, c ∈ cs → a ∈ result_of (evaluate client c base_assets date_filters).
Proof.
  rewrite evaluate_AND.
  destruct (intersection_of _) as [x|] eqn:Hx; simpl.
  - rewrite (elem_of_intersection_of _ _ a Hx). split.
    + intros H. split.
      * intros ->. discriminate.
      * intros c Hc. apply H. apply list_elem_of_fmap. eauto.
    + intros [_ H] y (c & -> & Hc)%list_elem_of_fmap. by apply H.
  - apply intersection_of_None in Hx. apply fmap_nil_inv in Hx as ->.
    split; [set_solver|]. by intros [? _].
Qed.

Lemma elem_of_evaluate_OR client cs cond base_assets date_filters a :
  a ∈ result_of (evaluate client (Node OR cs cond) base_assets date_filters)
  ↔ ∃ c, c ∈ cs ∧ a ∈ result_of (evaluate client c base_assets date_filters).
Proof.
  rewrite evaluate_OR, elem_of_union_list. split.
  - intros (x & (c & -> & Hc)%list_elem_of_fmap & Ha). eauto.
  - intros (c & Hc & Ha). eexists. split; [|exact Ha].
    apply list_elem_of_fmap. eauto.
Qed.

(** X1. An AND node evaluates to the intersection of its children's results:
    an asset is returned exactly when the node has a child and every child
    returns it.  The early exit does not change the set. *)
Theorem and_is_intersection
    (client : Client) (cs : list ConditionNode) (cond : option FilterCondition)
    (base_assets : option (gset string)) (date_filters : option DateFilters)
    (a : string) :
  a ∈ result_of (evaluate client (Node AND cs cond) base_assets date_filters)
  ↔ cs ≠ []
    ∧ ∀ c, c ∈ cs → a ∈ result_of (evaluate client c base_assets date_filters).
Proof. apply elem_of_evaluate_AND. Qed.

(** X2. An OR node evaluates to the union of its children's results. *)
Theorem or_is_union
    (client : Client) (cs : list ConditionNode) (cond : option FilterCondition)
    (base_assets : option (gset string)) (date_filters : option DateFilters)
    (a : string) :
  a ∈ result_of (evaluate client (Node OR cs cond) base_assets date_filters)
  ↔ ∃ c, c ∈ cs ∧ a ∈ result_of (evaluate client c base_assets date_filters).
Proof. apply elem_of_evaluate_OR. Qed.

Lemma and_loop_stops eval pre child post acc :
  result_of (eval child) = ∅ →
  and_loop eval (pre ++ child :: post) acc = and_loop eval (pre ++ [child]) acc.
Proof.
  intros Hempty. revert acc. induction pre as [|c pre IH]; intros acc.
  - cbn [app and_loop]. unfold bind. destruct (eval child) as [r l] eqn:He.
    unfold result_of in Hempty. simpl in Hempty. subst r.
    assert (Hr : match acc with None => (∅ : gset string) | Some r => r ∩ ∅ end = ∅).
    { destruct acc; set_solver. }
    rewrite Hr. rewrite bool_decide_eq_true_2 by reflexivity. reflexivity.
  - cbn [app and_loop]. unfold bind. destruct (eval c) as [r l].
    case_bool_decide; [reflexivity|]. by rewrite IH.
Qed.

(** X3. The AND node stops at the first child that returns the empty set:
    the children after it are not evaluated, so result and client calls are
    those of the node cut off after that child, and the result is empty. *)
Theorem and_short_circuit
    (client : Client) (pre : list ConditionNode) (child : ConditionNode)
    (post : list ConditionNode) (cond : option FilterCondition)
    (base_assets : option (gset string)) (date_filters : option DateFilters) :
  result_of (evaluate client child base_assets date_filters) = ∅ →
  evaluate client (Node AND (pre ++ child :: post) cond) base_assets date_filters
  = evaluate client (Node AND (pre ++ [child]) cond) base_assets date_filters
  ∧ result_of (evaluate client (Node AND (pre ++ child :: post) cond)
                 base_assets date_filters) = ∅.
Proof.
  intros Hempty. split.
  - change (evaluate client (Node AND (pre ++ child :: post) cond) base_assets
              date_filters)
      with (match pre ++ child :: post with
            | [] => ret ∅
            | _ => and_loop (fun c => evaluate client c base_assets date_filters)
                     (pre ++ child :: post) None
            end).
    change (evaluate client (Node AND (pre ++ [child]) cond) base_assets
              date_filters)
      with (match pre ++ [child] with
            | [] => ret ∅
            | _ => and_loop (fun c => evaluate client c base_assets date_filters)
                     (pre ++ [child]) None
            end).
    rewrite (and_loop_stops _ pre child post None Hempty).
    destruct pre; reflexivity.
  - apply set_eq. intros a. rewrite elem_of_evaluate_AND. split; [|set_solver].
    intros [_ H]. rewrite <- Hempty. apply H. set_solver.
Qed.

Lemma and_short_circuit_witness :
  evaluate one_video_client
    (Node AND ([leaf (only_asset_types ["VIDEO"])]
               ++ leaf (only_asset_types ["IMAGE"])
               :: [leaf (only_is_favorite true)]) None) None None
  = evaluate one_video_client
      (Node AND ([leaf (only_asset_types ["VIDEO"])]
                 ++ [leaf (only_asset_types ["IMAGE"])]) None) None None
  ∧ result_of
      (evaluate one_video_client
         (Node AND ([leaf (only_asset_types ["VIDEO"])]
                    ++ leaf (only_asset_types ["IMAGE"])
                    :: [leaf (only_is_favorite true)]) None) None None) = ∅.
Proof. apply and_short_circuit. reflexivity. Defined.

Lemma or_loop_calls eval cs acc :
  calls_of (or_loop eval cs acc)
  = concat (map (fun c => calls_of (eval c)) cs).
Proof.
  revert acc. induction cs as [|c cs IH]; intros acc; [reflexivity|].
  cbn [or_loop map concat]. by rewrite calls_of_bind, IH.
Qed.

(** X4. An OR node evaluates every child, in order, whatever the earlier
    children returned: its client calls are the calls of all its children,
    one after the other. *)
Theorem or_evaluates_every_child
    (client : Client) (cs : list ConditionNode) (cond : option FilterCondition)
    (base_assets : option (gset string)) (date_filters : option DateFilters) :
  calls_of (evaluate client (Node OR cs cond) base_assets date_filters)
  = concat (map (fun c => calls_of (evaluate client c base_assets date_filters))
              cs).
Proof. apply or_loop_calls. Qed.

Lemma filter_by_resolution_subset client asset_ids targets :
  result_of (filter_by_resolution client asset_ids targets) ⊆ asset_ids.
Proof.
  intros a. unfold filter_by_resolution.
  destruct (_ || _); [unfold result_of; simpl; set_solver|].
  rewrite collect_matching_result, elem_of_elements. set_solver.
Qed.

Lemma _evaluate_leaf_within_base client cond base date_filters :
  result_of (_evaluate_leaf client cond (Some base) date_filters) ⊆ base.
Proof.
  unfold _evaluate_leaf. destruct cond as [c|]; [|done].
  destruct (negb (has_filters c)); [done|].
  assert (Hcall :
    result_of
      (bind (call_search client (leaf_search_params date_filters c))
         (fun found =>
            if truthy_list (resolution c)
               && negb (bool_decide (found ∩ base = ∅))
            then filter_by_resolution client (found ∩ base)
                   (default [] (resolution c))
            else ret (found ∩ base))) ⊆ base).
  { rewrite result_of_bind.
    destruct (_ && _).
    - etrans; [apply filter_by_resolution_subset|]. set_solver.
    - unfold result_of; simpl. set_solver. }
  destruct (person_ids c) as [[|p ps]|]; try exact Hcall.
  unfold result_of; simpl. set_solver.
Qed.

Lemma evaluate_subset_base client t base date_filters :
  result_of (evaluate client t (Some base) date_filters) ⊆ base.
Proof.
  induction t as [ty cs cond IH] using ConditionNode_ind'.
  destruct ty.
  - intros a [Hne Ha]%elem_of_evaluate_AND.
    destruct cs as [|c cs]; [done|].
    inversion IH as [|? ? Hc _]; subst. apply Hc, Ha. left.
  - intros a (c & Hc & Ha)%elem_of_evaluate_OR.
    rewrite Forall_forall in IH. by apply (IH c Hc).
  - apply _evaluate_leaf_within_base.
Qed.

(** X5. Whatever the tree and the client answer, an evaluation that is given
    a base set returns only assets of that base set. *)
Theorem evaluate_within_base
    (client : Client) (t : ConditionNode) (base : gset string)
    (date_filters : option DateFilters) :
  result_of (evaluate client t (Some base) date_filters) ⊆ base.
Proof. apply evaluate_subset_base. Qed.

Lemma search_calls_app l1 l2 :
  search_calls (l1 ++ l2) = (search_calls l1 + search_calls l2)%nat.
Proof. unfold search_calls. by rewrite List.filter_app, length_app. Qed.

Lemma collect_matching_calls client targets ids matching :
  calls_of (collect_matching client targets ids matching)
  = map MetadataCall ids.
Proof.
  revert matching. induction ids as [|aid rest IH]; intros matching;
    [reflexivity|].
  cbn [collect_matching]. rewrite calls_of_bind, check_single_asset_result.
  unfold calls_of at 1, result_of. cbn [fst snd]. by rewrite IH.
Qed.

Lemma search_calls_metadata ids : search_calls (map MetadataCall ids) = 0%nat.
Proof. induction ids; [reflexivity|exact IHids]. Qed.

Lemma filter_by_resolution_no_search client asset_ids targets :
  search_calls (calls_of (filter_by_resolution client asset_ids targets)) = 0%nat.
Proof.
  unfold filter_by_resolution. destruct (_ || _); [reflexivity|].
  by rewrite collect_matching_calls, search_calls_metadata.
Qed.

Lemma search_calls_ret {A} (a : A) : search_calls (calls_of (ret a)) = 0%nat.
Proof. reflexivity. Qed.

Lemma _evaluate_leaf_search_calls client cond base_assets date_filters :
  (search_calls (calls_of (_evaluate_leaf client cond base_assets date_filters))
   ≤ 1)%nat.
Proof.
  unfold _evaluate_leaf.
  destruct cond as [c|]; [|rewrite search_calls_ret; lia].
  destruct (negb (has_filters c)); [rewrite search_calls_ret; lia|].
  assert (Hcall : ∀ k : gset string → gset string,
    (search_calls
       (calls_of
          (bind (call_search client (leaf_search_params date_filters c))
             (fun found =>
                if truthy_list (resolution c)
                   && negb (bool_decide (k found = ∅))
                then filter_by_resolution client (k found)
                       (default [] (resolution c))
                else ret (k found)))) ≤ 1)%nat).
  { intros k. rewrite calls_of_bind, search_calls_app.
    change (search_calls (calls_of (call_search client
              (leaf_search_params date_filters c)))) with 1%nat.
    destruct (_ && _).
    - rewrite filter_by_resolution_no_search. lia.
    - rewrite search_calls_ret. lia. }
  destruct (person_ids c) as [[|p ps]|]; [rewrite search_calls_ret; lia| |];
    destruct base_assets as [base|].
  - exact (Hcall (fun found => found ∩ base)).
  - exact (Hcall (fun found => found)).
  - exact (Hcall (fun found => found ∩ base)).
  - exact (Hcall (fun found => found)).
Qed.

Lemma and_loop_search_calls eval cs acc :
  Forall (fun c => (search_calls (calls_of (eval c)) ≤ leaf_count c)%nat) cs →
  (search_calls (calls_of (and_loop eval cs acc))
   ≤ foldr (fun c n => leaf_count c + n) 0 cs)%nat.
Proof.
  intros H. revert acc. induction H as [|c cs Hc _ IH]; intros acc;
    [cbn [and_loop]; rewrite search_calls_ret; simpl; lia|].
  cbn [and_loop foldr]. rewrite calls_of_bind, search_calls_app.
  case_bool_decide.
  - rewrite search_calls_ret. lia.
  - specialize (IH (Some match acc with
                         | Some r => r ∩ result_of (eval c)
                         | None => result_of (eval c)
                         end)). lia.
Qed.

Lemma or_loop_search_calls eval cs acc :
  Forall (fun c => (search_calls (calls_of (eval c)) ≤ leaf_count c)%nat) cs →
  (search_calls (calls_of (or_loop eval cs acc))
   ≤ foldr (fun c n => leaf_count c + n) 0 cs)%nat.
Proof.
  intros H. revert acc. induction H as [|c cs Hc _ IH]; intros acc;
    [cbn [or_loop]; rewrite search_calls_ret; simpl; lia|].
  cbn [or_loop foldr]. rewrite calls_of_bind, search_calls_app.
  specialize (IH (acc ∪ result_of (eval c))). lia.
Qed.

Lemma evaluate_search_calls client t base_assets date_filters :
  (search_calls (calls_of (evaluate client t base_assets date_filters))
   ≤ leaf_count t)%nat.
Proof.
  induction t as [ty cs cond IH] using ConditionNode_ind'.
  destruct ty.
  - destruct cs as [|c cs]; [cbn [evaluate]; rewrite search_calls_ret; lia|].
    apply (and_loop_search_calls
             (fun child => evaluate client child base_assets date_filters)
             (c :: cs) None IH).
  - apply (or_loop_search_calls
             (fun child => evaluate client child base_assets date_filters)
             cs ∅ IH).
  - apply _evaluate_leaf_search_calls.
Qed.

(** X6. An evaluation asks the search oracle at most once per leaf of the
    tree. *)
Theorem search_calls_at_most_leaves
    (client : Client) (t : ConditionNode)
    (base_assets : option (gset string)) (date_filters : option DateFilters) :
  (search_calls (calls_of (evaluate client t base_assets date_filters))
   ≤ leaf_count t)%nat.
Proof. apply evaluate_search_calls. Qed.

Lemma elem_of_flat_map {A B} (f : A → list B) (l : list A) (x : B) :
  x ∈ flat_map f l ↔ ∃ y, y ∈ l ∧ x ∈ f y.
Proof.
  rewrite list_elem_of_In, in_flat_map. split.
  - intros (y & Hy & Hx). exists y. by rewrite !list_elem_of_In.
  - intros (y & Hy & Hx). exists y. by rewrite <- !list_elem_of_In.
Qed.

Lemma and_loop_calls_from_children eval cs acc (e : event) :
  e ∈ calls_of (and_loop eval cs acc) → ∃ c, c ∈ cs ∧ e ∈ calls_of (eval c).
Proof.
  revert acc. induction cs as [|c cs IH]; intros acc.
  - cbn [and_loop]. unfold calls_of, ret. simpl. by intros ?%elem_of_nil.
  - cbn [and_loop]. rewrite calls_of_bind, elem_of_app. intros [He|He].
    + exists c. split; [left|exact He].
    + case_bool_decide.
      * unfold calls_of, ret in He. simpl in He. by apply elem_of_nil in He.
      * apply IH in He as (c' & Hc' & He). exists c'. split; [by right|exact He].
Qed.

Lemma or_loop_calls_from_children eval cs acc (e : event) :
  e ∈ calls_of (or_loop eval cs acc) → ∃ c, c ∈ cs ∧ e ∈ calls_of (eval c).
Proof.
  rewrite or_loop_calls. clear acc. induction cs as [|c cs IH]; simpl.
  - by intros ?%elem_of_nil.
  - rewrite elem_of_app. intros [He|He].
    + exists c. split; [left|exact He].
    + destruct (IH He) as (c' & Hc' & He'). exists c'. split; [by right|done].
Qed.

Lemma filter_by_resolution_calls_eq client asset_ids targets :
  calls_of (filter_by_resolution client asset_ids targets)
  = if bool_decide (asset_ids = ∅) || bool_decide (targets = [])
    then []
    else map MetadataCall (elements asset_ids).
Proof.
  unfold filter_by_resolution. destruct (_ || _); [reflexivity|].
  apply collect_matching_calls.
Qed.

Lemma filter_by_resolution_only_metadata client asset_ids targets p :
  SearchCall p ∉ calls_of (filter_by_resolution client asset_ids targets).
Proof.
  rewrite filter_by_resolution_calls_eq. destruct (_ || _).
  - apply not_elem_of_nil.
  - intros (a & Ha & _)%list_elem_of_fmap. discriminate.
Qed.

Lemma _evaluate_leaf_search_is_leaf_query client c base_assets date_filters p :
  SearchCall p
    ∈ calls_of (_evaluate_leaf client (Some c) base_assets date_filters) →
  p = leaf_search_params date_filters c.
Proof.
  unfold _evaluate_leaf.
  destruct (negb (has_filters c)); [by intros ?%elem_of_nil|].
  assert (Hcall : ∀ k : gset string → gset string,
    SearchCall p
      ∈ calls_of
          (bind (call_search client (leaf_search_params date_filters c))
             (fun found =>
                if truthy_list (resolution c)
                   && negb (bool_decide (k found = ∅))
                then filter_by_resolution client (k found)
                       (default [] (resolution c))
                else ret (k found))) →
    p = leaf_search_params date_filters c).
  { intros k. rewrite calls_of_bind, elem_of_app. intros [He|He].
    - unfold calls_of, call_search in He. simpl in He.
      apply list_elem_of_singleton in He. congruence.
    - destruct (_ && _).
      + by apply filter_by_resolution_only_metadata in He.
      + by apply elem_of_nil in He. }
  destruct (person_ids c) as [[|pid pids]|];
    [by intros ?%elem_of_nil| |]; destruct base_assets as [base|].
  - exact (Hcall (fun found => found ∩ base)).
  - exact (Hcall (fun found => found)).
  - exact (Hcall (fun found => found ∩ base)).
  - exact (Hcall (fun found => found)).
Qed.

Lemma evaluate_search_is_leaf_query client t base_assets date_filters p :
  SearchCall p ∈ calls_of (evaluate client t base_assets date_filters) →
  ∃ c, c ∈ leaf_conditions t ∧ p = leaf_search_params date_filters c.
Proof.
  induction t as [ty cs cond IH] using ConditionNode_ind'.
  rewrite Forall_forall in IH. destruct ty.
  - destruct cs as [|c0 cs]; [by intros ?%elem_of_nil|].
    intros (c & Hc & He)%and_loop_calls_from_children.
    destruct (IH c Hc He) as (fc & Hfc & ->). exists fc. split; [|done].
    cbn [leaf_conditions]. apply elem_of_flat_map. eauto.
  - intros (c & Hc & He)%or_loop_calls_from_children.
    destruct (IH c Hc He) as (fc & Hfc & ->). exists fc. split; [|done].
    cbn [leaf_conditions]. apply elem_of_flat_map. eauto.
  - cbn [evaluate leaf_conditions]. destruct cond as [c|].
    + intros He. apply _evaluate_leaf_search_is_leaf_query in He as ->.
      exists c.
      split; [apply list_elem_of_singleton|]; reflexivity.
    + by intros ?%elem_of_nil.
Qed.

(** X7. Every search an evaluation sends is the query of one of the tree's
    leaves, built from that leaf's condition and the date filters of the
    call: the date range reaches every query unchanged, and no query mixes
    the filters of two leaves. *)
Theorem every_search_is_a_leaf_query
    (client : Client) (t : ConditionNode)
    (base_assets : option (gset string)) (date_filters : option DateFilters)
    (p : search_params) :
  SearchCall p ∈ calls_of (evaluate client t base_assets date_filters) →
  ∃ c, c ∈ leaf_conditions t ∧ p = leaf_search_params date_filters c.
Proof. apply evaluate_search_is_leaf_query. Qed.

Lemma every_search_is_a_leaf_query_witness :
  ∃ c, c ∈ leaf_conditions video_and_favorite
       ∧ leaf_search_params None (only_asset_types ["VIDEO"])
         = leaf_search_params None c.
Proof.
  apply (every_search_is_a_leaf_query one_video_client video_and_favorite
           None None).
  vm_compute. left.
Defined.

(** X8. The resolution filter requests the metadata of every asset of the
    set exactly once (the log lists the requests in the order they are
    submitted to the pool) and sends no search; for an empty set or an empty
    target list it calls nothing. *)
Theorem filter_by_resolution_calls
    (client : Client) (asset_ids : gset string) (targets : list (list Z)) :
  calls_of (filter_by_resolution client asset_ids targets)
  = if bool_decide (asset_ids = ∅) || bool_decide (targets = [])
    then []
    else map MetadataCall (elements asset_ids).
Proof. apply filter_by_resolution_calls_eq. Qed.

(** ** The optimizer *)

Lemma Optimized_subtrees n m : Optimized n → m ∈ subtrees n → Optimized m.
Proof.
  induction n as [ty cs cond IH] using ConditionNode_ind'. intros Hopt.
  cbn [subtrees]. intros [->|Hin]%elem_of_cons; [exact Hopt|].
  apply elem_of_flat_map in Hin as (c & Hc & Hm).
  rewrite Forall_forall in IH. apply (IH c Hc); [|exact Hm].
  apply Optimized_children in Hopt. rewrite Forall_forall in Hopt. by apply Hopt.
Qed.

Lemma Optimized_logical_shape n :
  Optimized n → is_logical (node_type n) = true →
  (2 ≤ length (children n))%nat
  ∧ Forall (fun c => node_type c ≠ node_type n) (children n)
  ∧ (node_type n = AND → _combine_and_leaves n = None).
Proof.
  intros Hopt Hty.
  inversion Hopt as [cs cond Hcs | cs cond Hcs Hne Hcomb Hlen
                    | cs cond Hcs Hne Hlen]; subst; simpl in *.
  - discriminate.
  - auto.
  - repeat split; auto. discriminate.
Qed.

(** X9. The tree [optimize] returns is in normal form: every AND or OR node
    in it has at least two children, none of them of the node's own type, and
    no AND node is left whose children [_combine_and_leaves] would combine. *)
Theorem optimize_normal_form (t n : ConditionNode) :
  n ∈ subtrees (optimize t) → is_logical (node_type n) = true →
  (2 ≤ length (children n))%nat
  ∧ Forall (fun c => node_type c ≠ node_type n) (children n)
  ∧ (node_type n = AND → _combine_and_leaves n = None).
Proof.
  intros Hn. apply Optimized_logical_shape.
  eapply Optimized_subtrees; [apply optimize_Optimized|exact Hn].
Qed.

Lemma optimize_normal_form_witness :
  (2 ≤ length (children (optimize nested_without_merge)))%nat
  ∧ Forall (fun c => node_type c ≠ node_type (optimize nested_without_merge))
      (children (optimize nested_without_merge))
  ∧ (node_type (optimize nested_without_merge) = AND →
     _combine_and_leaves (optimize nested_without_merge) = None).
Proof.
  apply (optimize_normal_form nested_without_merge).
  - vm_compute. left.
  - reflexivity.
Defined.

Lemma well_formed_children ty cs cond :
  well_formed (Node ty cs cond) = true →
  Forall (fun c => well_formed c = true) cs.
Proof.
  cbn [well_formed]. intros [H _]%andb_prop.
  apply Forall_forall. intros c Hc. rewrite forallb_forall in H.
  apply H. by apply list_elem_of_In.
Qed.

Lemma well_formed_intro ty cs cond :
  Forall (fun c => well_formed c = true) cs →
  match ty with
  | LEAF => is_not_None cond
  | _ => negb (bool_decide (cs = []))
  end = true →
  well_formed (Node ty cs cond) = true.
Proof.
  intros Hcs Hty. cbn [well_formed]. apply andb_true_intro. split; [|exact Hty].
  apply forallb_forall. intros c Hc. rewrite Forall_forall in Hcs.
  apply Hcs. by apply list_elem_of_In.
Qed.

Lemma well_formed_leaf c : well_formed (leaf c) = true.
Proof. reflexivity. Qed.

Lemma flatten_children_well_formed ty cs :
  Forall (fun c => well_formed c = true) cs →
  Forall (fun c => well_formed c = true) (flatten_children ty cs).
Proof.
  induction 1 as [|c cs Hc _ IH]; simpl; [constructor|].
  case_bool_decide.
  - apply Forall_app. split; [|exact IH].
    destruct c as [ty' ds cond]. eapply well_formed_children, Hc.
  - by constructor.
Qed.

Lemma simplify_well_formed ty cs cond :
  Forall (fun c => well_formed c = true) cs →
  (ty = LEAF → is_not_None cond = true) →
  well_formed (simplify (Node ty cs cond)) = true.
Proof.
  intros Hcs Hleaf. unfold simplify. cbn [node_type children].
  destruct (if bool_decide (ty = AND) then _ else None) as [n|] eqn:Hcomb.
  - case_bool_decide; [|discriminate].
    apply _combine_and_leaves_leaf in Hcomb as [c ->]. apply well_formed_leaf.
  - destruct ty; cbn [is_logical].
    + destruct cs as [|c1 [|c2 cs']]; [reflexivity|by inversion Hcs|].
      by apply well_formed_intro.
    + destruct cs as [|c1 [|c2 cs']]; [reflexivity|by inversion Hcs|].
      by apply well_formed_intro.
    + apply well_formed_intro; auto.
Qed.

Lemma optimize_well_formed t :
  well_formed t = true → well_formed (optimize t) = true.
Proof.
  induction t as [ty cs cond IH] using ConditionNode_ind'. intros Hwf.
  assert (Hcs : Forall (fun c => well_formed c = true) (map optimize cs)).
  { apply Forall_map. apply well_formed_children in Hwf.
    rewrite Forall_forall in *. intros c Hc. apply IH; auto. }
  assert (Hleaf : ty = LEAF → is_not_None cond = true).
  { intros ->. cbn [well_formed] in Hwf. by apply andb_prop in Hwf as [_ ?]. }
  cbn [optimize]. destruct (is_logical ty).
  - apply simplify_well_formed; [|exact Hleaf].
    by apply flatten_children_well_formed.
  - by apply simplify_well_formed.
Qed.

(** X10. Optimizing keeps a tree valid: when every node of the tree passes
    the validation of the constructor (a logical node has a child, a leaf has
    a condition), so does every node of the optimized tree. *)
Theorem optimize_preserves_well_formed (t : ConditionNode) :
  well_formed t = true → well_formed (optimize t) = true.
Proof. apply optimize_well_formed. Qed.

Lemma optimize_preserves_well_formed_witness :
  well_formed (optimize nested_without_merge) = true.
Proof. apply optimize_preserves_well_formed. reflexivity. Defined.

Lemma leaf_count_logical ty cs cond :
  is_logical ty = true →
  leaf_count (Node ty cs cond)
  = foldr (fun c acc => (leaf_count c + acc)%nat) 0%nat cs.
Proof. by destruct ty. Qed.

Lemma leaf_sum_app cs ds :
  foldr (fun c acc => (leaf_count c + acc)%nat) 0%nat (cs ++ ds)
  = (foldr (fun c acc => (leaf_count c + acc)%nat) 0%nat cs
     + foldr (fun c acc => (leaf_count c + acc)%nat) 0%nat ds)%nat.
Proof. induction cs as [|c cs IH]; simpl; [reflexivity|]. rewrite IH. lia. Qed.

Lemma flatten_children_leaf_sum ty cs :
  is_logical ty = true →
  foldr (fun c acc => (leaf_count c + acc)%nat) 0%nat (flatten_children ty cs)
  = foldr (fun c acc => (leaf_count c + acc)%nat) 0%nat cs.
Proof.
  intros Hty. induction cs as [|c cs IH]; [reflexivity|].
  cbn [flatten_children flat_map]. rewrite leaf_sum_app.
  fold (flatten_children ty cs). rewrite IH. cbn [foldr].
  case_bool_decide as Heq.
  - destruct c as [ty' ds cond]. cbn [node_type children] in *. subst ty'.
    by rewrite (leaf_count_logical ty ds cond Hty).
  - simpl. lia.
Qed.

Lemma Optimized_leaf_count n : Optimized n → (1 ≤ leaf_count n)%nat.
Proof.
  induction n as [ty cs cond IH] using ConditionNode_ind'. intros Hopt.
  inversion Hopt as [cs' cond' Hcs | cs' cond' Hcs _ _ Hlen
                    | cs' cond' Hcs _ Hlen]; subst.
  - simpl. lia.
  - destruct cs as [|c cs]; [simpl in Hlen; lia|].
    inversion IH as [|? ? IHc _]; subst. inversion Hcs as [|? ? Hc _]; subst.
    specialize (IHc Hc). simpl. lia.
  - destruct cs as [|c cs]; [simpl in Hlen; lia|].
    inversion IH as [|? ? IHc _]; subst. inversion Hcs as [|? ? Hc _]; subst.
    specialize (IHc Hc). simpl. lia.
Qed.

Lemma leaf_sum_positive cs :
  Forall Optimized cs → cs ≠ [] →
  (1 ≤ foldr (fun c acc => (leaf_count c + acc)%nat) 0%nat cs)%nat.
Proof.
  intros Hcs Hne. destruct cs as [|c cs]; [done|].
  inversion Hcs as [|? ? Hc _]; subst. apply Optimized_leaf_count in Hc.
  simpl. lia.
Qed.

Lemma simplify_leaf_count ty cs cond :
  is_logical ty = true → Forall Optimized cs → cs ≠ [] →
  (leaf_count (simplify (Node ty cs cond))
   ≤ foldr (fun c acc => (leaf_count c + acc)%nat) 0%nat cs)%nat.
Proof.
  intros Hty Hcs Hne. unfold simplify. cbn [node_type children].
  destruct (if bool_decide (ty = AND) then _ else None) as [n|] eqn:Hcomb.
  - case_bool_decide; [|discriminate].
    apply _combine_and_leaves_leaf in Hcomb as [c ->].
    change (leaf_count (leaf c)) with 1%nat. by apply leaf_sum_positive.
  - rewrite Hty. destruct cs as [|c1 [|c2 cs']]; [done|simpl; lia|].
    by rewrite (leaf_count_logical ty _ cond Hty).
Qed.

Lemma optimize_leaf_count t :
  well_formed t = true → (leaf_count (optimize t) ≤ leaf_count t)%nat.
Proof.
  induction t as [ty cs cond IH] using ConditionNode_ind'. intros Hwf.
  destruct (is_logical ty) eqn:Hty; cbn [optimize]; rewrite Hty.
  - assert (Hsum :
      (foldr (fun c acc => (leaf_count c + acc)%nat) 0%nat (map optimize cs)
       ≤ foldr (fun c acc => (leaf_count c + acc)%nat) 0%nat cs)%nat).
    { apply well_formed_children in Hwf. clear Hty.
      induction cs as [|c cs IHcs]; [reflexivity|].
      inversion IH as [|? ? IHc IHrest]; subst.
      inversion Hwf as [|? ? Hc Hrest]; subst.
      specialize (IHc Hc). specialize (IHcs IHrest Hrest). simpl. lia. }
    assert (Hne : cs ≠ []).
    { intros ->. destruct ty; discriminate. }
    assert (Hopt : Forall Optimized (map optimize cs)).
    { apply Forall_map, Forall_forall. intros c _. apply optimize_Optimized. }
    rewrite (leaf_count_logical ty cs cond Hty).
    etrans; [apply (simplify_leaf_count ty _ cond Hty)|].
    + by apply flatten_children_Optimized.
    + apply flatten_children_nonempty; auto. by destruct cs.
    + by rewrite flatten_children_leaf_sum.
  - destruct ty; try discriminate. reflexivity.
Qed.

(** X11. Optimizing never adds leaves: a valid tree has at least as many
    leaves as its optimized form, so the bound of one search for each leaf
    only gets smaller. *)
Theorem optimize_never_adds_leaves (t : ConditionNode) :
  well_formed t = true → (leaf_count (optimize t) ≤ leaf_count t)%nat.
Proof. apply optimize_leaf_count. Qed.

Lemma optimize_never_adds_leaves_witness :
  (leaf_count (optimize video_and_favorite) ≤ leaf_count video_and_favorite)%nat.
Proof. apply optimize_never_adds_leaves. reflexivity. Defined.

Lemma carries_filters_merge_child cond combined merged :
  merge_child cond combined = Merged merged →
  carries_filters cond merged ∧ carries_filters combined merged.
Proof.
  intros (c1 & c2 & c3 & c4 & H1 & H2 & H3 & H4 & H5)%merge_child_Merged.
  apply merge_is_favorite_inv in H1 as [-> Hfav].
  apply merge_asset_types_inv in H2 as ->.
  apply merge_camera_make_inv in H3 as [-> Hmake].
  apply merge_camera_model_inv in H4 as [-> Hmodel].
  apply merge_person_ids_inv in H5 as [-> Hpeople].
  destruct cond as [fav types make model people inc exc res].
  destruct combined as [fav' types' make' model' people' inc' exc' res'].
  cbn in *. unfold carries_filters. cbn. split.
  - repeat split.
    + by destruct fav.
    + by intros ->.
    + by intros ->.
    + by intros ->.
    + intros ts ->. destruct types' as [cur|]; eexists; split; try reflexivity.
      * by intros x [_ ?]%elem_of_asset_type_intersection.
      * done.
  - repeat split.
    + destruct fav' as [f'|]; [|discriminate]. intros _.
      destruct Hfav as [->|[=]]. reflexivity.
    + intros Ht. destruct (truthy_str make) eqn:Hm; [|reflexivity].
      symmetry. by apply Hmake.
    + intros Ht. destruct (truthy_str model) eqn:Hm; [|reflexivity].
      symmetry. by apply Hmodel.
    + intros Ht. destruct (truthy_list people) eqn:Hp; [|reflexivity].
      rewrite Hpeople in Ht by reflexivity. discriminate.
    + intros ts [= ->]. destruct types as [new|]; eexists; split;
        try reflexivity.
      * by intros x [? _]%elem_of_asset_type_intersection.
      * done.
Qed.

Lemma carries_filters_trans a b c :
  carries_filters a b → carries_filters b c → carries_filters a c.
Proof.
  intros (Hf1 & Hm1 & Hd1 & Hp1 & Ht1) (Hf2 & Hm2 & Hd2 & Hp2 & Ht2).
  repeat split.
  - intros H. rewrite <- (Hf1 H). apply Hf2. by rewrite (Hf1 H).
  - intros H. rewrite <- (Hm1 H). apply Hm2. by rewrite (Hm1 H).
  - intros H. rewrite <- (Hd1 H). apply Hd2. by rewrite (Hd1 H).
  - intros H. rewrite <- (Hp1 H). apply Hp2. by rewrite (Hp1 H).
  - intros ts Hts. destruct (Ht1 ts Hts) as (both & Hboth & Hsub).
    destruct (Ht2 both Hboth) as (both' & Hboth' & Hsub').
    exists both'. split; [exact Hboth'|]. auto.
Qed.

Lemma carries_filters_refl c : carries_filters c c.
Proof. repeat split; auto. intros ts ->. eauto. Qed.

Lemma combine_loop_carries cs combined c :
  combine_loop cs combined = Some (leaf c) → c ≠ FilterCondition_default →
  carries_filters combined c
  ∧ ∀ child cond, child ∈ cs → condition child = Some cond →
      carries_filters cond c.
Proof.
  intros Hloop Hc. revert combined Hloop.
  induction cs as [|child rest IH]; intros combined; cbn [combine_loop].
  - intros [= <-]. split; [apply carries_filters_refl|].
    by intros ? ? ?%elem_of_nil.
  - destruct (condition child) as [cond|] eqn:Hcond.
    + destruct (merge_child cond combined) as [combined'| |] eqn:Hmerge.
      * intros [Hcomb Hrest]%IH.
        apply carries_filters_merge_child in Hmerge as [Hm1 Hm2].
        split; [by eapply carries_filters_trans|].
        intros child' cond' [->|Hin]%elem_of_cons Hcond'.
        -- assert (cond' = cond) as -> by congruence.
           by eapply carries_filters_trans.
        -- by eapply Hrest.
      * discriminate.
      * intros [= <-]. done.
    + intros [Hcomb Hrest]%IH. split; [exact Hcomb|].
      intros child' cond' [->|Hin]%elem_of_cons Hcond'; [congruence|].
      by eapply Hrest.
Qed.

(** X12. When the leaves of an AND node are combined into a leaf that is not
    the empty one, the combined leaf keeps the filters of every child: the
    child's favourite flag, camera make, camera model and person list
    wherever the child sets them, and asset types only among the child's. *)
Theorem combined_leaf_keeps_filters
    (self : ConditionNode) (c : FilterCondition)
    (child : ConditionNode) (cond : FilterCondition) :
  _combine_and_leaves self = Some (leaf c) → c ≠ FilterCondition_default →
  child ∈ children self → condition child = Some cond →
  carries_filters cond c.
Proof.
  unfold _combine_and_leaves. destruct (forallb _ (children self));
    [|discriminate].
  intros Hloop Hc Hin Hcond.
  by eapply (combine_loop_carries _ _ _ Hloop Hc).
Qed.

Lemma combined_leaf_keeps_filters_witness :
  carries_filters (only_is_favorite true)
    (set_is_favorite (Some true) (only_asset_types ["VIDEO"])).
Proof.
  apply (combined_leaf_keeps_filters video_and_favorite _
           (leaf (only_is_favorite true))).
  - reflexivity.
  - discriminate.
  - right. left.
  - reflexivity.
Defined.

(** ** Tree construction *)

Lemma config_ind' (P : config → Prop) :
  P CNone → (∀ b, P (CBool b)) → (∀ z, P (CInt z)) → (∀ s, P (CStr s)) →
  (∀ items, Forall P items → P (CList items)) →
  (∀ entries, Forall (fun kv => P kv.2) entries → P (CDict entries)) →
  ∀ c, P c.
Proof.
  intros HNone HBool HInt HStr HList HDict. fix IH 1.
  intros [|b|z|s|items|entries].
  - exact HNone.
  - apply HBool.
  - apply HInt.
  - apply HStr.
  - apply HList. induction items as [|i items IHi]; constructor;
      [apply IH|exact IHi].
  - apply HDict. induction entries as [|[k v] entries IHe]; constructor;
      [apply IH|exact IHe].
Qed.

Lemma result_bind_ok {A B} (r : result A) (k : A → result B) b :
  result_bind r k = ok b → ∃ a, r = ok a ∧ k a = ok b.
Proof. destruct r as [e|a]; [discriminate|]. simpl. eauto. Qed.

Lemma map_result_Forall {A B} (f : A → result B) (P : B → Prop) l bs :
  Forall (fun a => ∀ b, f a = ok b → P b) l →
  map_result f l = ok bs → Forall P bs.
Proof.
  intros H. revert bs. induction H as [|a l Ha _ IH]; intros bs.
  - intros [= <-]. constructor.
  - change (map_result f (a :: l))
      with (result_bind (f a) (fun b =>
              result_bind (map_result f l) (fun bs => ok (b :: bs)))).
    intros (b & Hb & (bs' & Hbs' & [= <-])%result_bind_ok)%result_bind_ok.
    constructor; auto.
Qed.

Lemma map_result_nil {A B} (f : A → result B) l :
  map_result f l = ok [] → l = [].
Proof.
  destruct l as [|a l]; [done|].
  change (map_result f (a :: l))
    with (result_bind (f a) (fun b =>
            result_bind (map_result f l) (fun bs => ok (b :: bs)))).
  intros (b & Hb & (bs' & Hbs' & [=])%result_bind_ok)%result_bind_ok.
Qed.

Lemma dict_get_entry key entries v :
  dict_get key entries = Some v → ∃ k, (k, v) ∈ entries.
Proof.
  unfold dict_get. induction entries as [|[k w] rest IH]; simpl; [done|].
  destruct (String.eqb k key).
  - intros [= ->]. exists k. left.
  - intros (k' & Hk')%IH. exists k'. by right.
Qed.

(** What holds of every tree that [from_config] builds, given that it holds
    of the leaves it parses and passes from the children of a logical node
    to the node. *)
Lemma from_config_built people_resolver (P : ConditionNode → Prop) :
  (∀ entries t, _parse_leaf_condition people_resolver entries = ok t → P t) →
  (∀ ty cs, is_logical ty = true → cs ≠ [] → Forall P cs →
            P (Node ty cs None)) →
  ∀ cfg t, from_config people_resolver cfg = ok t → P t.
Proof.
  intros Hleaf Hnode cfg.
  assert (H : (∀ t, from_config people_resolver cfg = ok t → P t)
              ∧ ∀ items, cfg = CList items →
                  Forall (fun i => ∀ t, from_config people_resolver i = ok t → P t)
                    items); [|exact (proj1 H)].
  induction cfg as [| | | |items IH|entries IH] using config_ind';
    try (split; [discriminate|discriminate]).
  - split; [discriminate|]. intros ? [= <-].
    eapply Forall_impl; [exact IH|]. by intros i [Hi _].
  - split; [|discriminate]. intros t. rewrite from_config_dict.
    assert (Hop : ∀ ty msg operands,
      is_logical ty = true → (∃ k, (k, operands) ∈ entries) →
      build_operator ty msg (from_config people_resolver) operands = ok t →
      P t).
    { intros ty msg operands Hty [k Hk]. rewrite Forall_forall in IH.
      destruct (IH _ Hk) as [_ Hitems]. simpl in Hitems.
      unfold build_operator. destruct operands as [| | | |items|];
        try discriminate.
      specialize (Hitems items eq_refl).
      intros (cs & Hcs & Hinit)%result_bind_ok.
      pose proof (map_result_Forall _ P _ _ Hitems Hcs) as HP.
      destruct ty; try discriminate; simpl in Hinit;
        case_bool_decide; try discriminate; injection Hinit as <-;
        by apply Hnode. }
    destruct (dict_get "and" entries) as [operands|] eqn:Hand.
    { apply (Hop AND); [reflexivity|]. by eapply dict_get_entry. }
    destruct (dict_get "or" entries) as [operands|] eqn:Hor.
    { apply (Hop OR); [reflexivity|]. by eapply dict_get_entry. }
    apply Hleaf.
Qed.

Lemma _parse_leaf_condition_ok people_resolver entries t :
  _parse_leaf_condition people_resolver entries = ok t →
  ∃ c1 c2 c3 c4 c5 c6,
    parse_is_favorite entries FilterCondition_default = ok c1
    ∧ parse_asset_types entries c1 = ok c2
    ∧ parse_camera entries c2 = ok c3
    ∧ parse_people people_resolver entries c3 = ok c4
    ∧ parse_tags entries c4 = ok c5
    ∧ parse_resolution entries c5 = ok c6
    ∧ t = leaf c6.
Proof.
  unfold _parse_leaf_condition.
  intros (c1 & H1 & (c2 & H2 & (c3 & H3 & (c4 & H4 & (c5 & H5 &
    (c6 & H6 & [= <-])%result_bind_ok)%result_bind_ok)%result_bind_ok)
    %result_bind_ok)%result_bind_ok)%result_bind_ok.
  by exists c1, c2, c3, c4, c5, c6.
Qed.

Lemma from_config_well_formed_tree people_resolver cfg t :
  from_config people_resolver cfg = ok t → well_formed t = true.
Proof.
  apply (from_config_built people_resolver (fun t => well_formed t = true)).
  - intros entries t' H.
    apply _parse_leaf_condition_ok
      in H as (? & ? & ? & ? & ? & c & _ & _ & _ & _ & _ & _ & ->).
    apply well_formed_leaf.
  - intros ty cs Hty Hne Hcs. apply well_formed_intro; [exact Hcs|].
    destruct ty; try discriminate; by rewrite bool_decide_eq_false_2.
Qed.

(** X13. Every tree [from_config] returns is valid at every node: each
    logical node has at least one child and each leaf has a condition, so an
    empty ['and:'] or ['or:'] list never yields a tree. *)
Theorem from_config_well_formed
    (people_resolver : option (list string → list string))
    (cfg : config) (t : ConditionNode) :
  from_config people_resolver cfg = ok t → well_formed t = true.
Proof. apply from_config_well_formed_tree. Qed.

Lemma from_config_well_formed_witness :
  well_formed people_or_favorite_video_tree = true.
Proof.
  apply (from_config_well_formed None people_or_favorite_video). reflexivity.
Defined.

Lemma parse_is_favorite_person_ids cfg c c' :
  parse_is_favorite cfg c = ok c' → person_ids c' = person_ids c.
Proof.
  unfold parse_is_favorite. destruct (dict_get "is_favorite" cfg) as [v|];
    [|by intros [= <-]].
  destruct v; try discriminate; by intros [= <-].
Qed.

Lemma parse_asset_types_person_ids cfg c c' :
  parse_asset_types cfg c = ok c' → person_ids c' = person_ids c.
Proof.
  unfold parse_asset_types. destruct (dict_get "asset_types" cfg) as [v|];
    [|by intros [= <-]].
  by intros (ts & _ & [= <-])%result_bind_ok.
Qed.

Lemma parse_camera_person_ids cfg c c' :
  parse_camera cfg c = ok c' → person_ids c' = person_ids c.
Proof.
  unfold parse_camera. destruct (dict_get "camera" cfg) as [v|];
    [|by intros [= <-]].
  destruct v; try by intros [= <-].
  by intros (make & _ & (model & _ & [= <-])%result_bind_ok)%result_bind_ok.
Qed.

Lemma parse_people_without_resolver cfg c c' :
  parse_people None cfg c = ok c' → c' = c.
Proof.
  unfold parse_people. destruct (dict_get "people" cfg) as [v|];
    [|by intros [= <-]].
  destruct v; by intros [= <-].
Qed.

Lemma parse_tags_person_ids cfg c c' :
  parse_tags cfg c = ok c' → person_ids c' = person_ids c.
Proof.
  unfold parse_tags. destruct (dict_get "tags" cfg) as [v|];
    [|by intros [= <-]].
  destruct v; try by intros [= <-].
  by intros (inc & _ & (exc & _ & [= <-])%result_bind_ok)%result_bind_ok.
Qed.

Lemma parse_resolution_person_ids cfg c c' :
  parse_resolution cfg c = ok c' → person_ids c' = person_ids c.
Proof.
  unfold parse_resolution. destruct (dict_get "resolution" cfg) as [v|];
    [|by intros [= <-]].
  destruct v; try by intros [= <-].
  destruct (truthy_config _); [|by intros [= <-]].
  by intros (sizes & _ & [= <-])%result_bind_ok.
Qed.

Lemma from_config_without_resolver cfg t :
  from_config None cfg = ok t →
  Forall (fun c => person_ids c = None) (leaf_conditions t).
Proof.
  apply (from_config_built None
           (fun t => Forall (fun c => person_ids c = None) (leaf_conditions t))).
  - intros entries t' H.
    apply _parse_leaf_condition_ok
      in H as (c1 & c2 & c3 & c4 & c5 & c6 & H1 & H2 & H3 & H4 & H5 & H6 & ->).
    apply parse_is_favorite_person_ids in H1.
    apply parse_asset_types_person_ids in H2.
    apply parse_camera_person_ids in H3.
    apply parse_people_without_resolver in H4 as ->.
    apply parse_tags_person_ids in H5.
    apply parse_resolution_person_ids in H6.
    repeat constructor. simpl in *. congruence.
  - intros ty cs Hty _ Hcs. apply Forall_forall.
    intros c Hc. assert (c ∈ flat_map leaf_conditions cs) as Hc'.
    { by destruct ty. }
    apply elem_of_flat_map in Hc' as (child & Hchild & Hin).
    rewrite Forall_forall in Hcs. specialize (Hcs child Hchild).
    rewrite Forall_forall in Hcs. by apply Hcs.
Qed.

(** X14. A tree built without a people resolver filters on no person: every
    ['people'] entry of the configuration is dropped, in every leaf, and the
    leaf is left with its other filters only. *)
Theorem from_config_without_resolver_drops_people
    (cfg : config) (t : ConditionNode) :
  from_config None cfg = ok t →
  Forall (fun c => person_ids c = None) (leaf_conditions t).
Proof. apply from_config_without_resolver. Qed.

Lemma from_config_without_resolver_drops_people_witness :
  Forall (fun c => person_ids c = None)
    (leaf_conditions people_or_favorite_video_tree).
Proof.
  apply (from_config_without_resolver_drops_people people_or_favorite_video).
  reflexivity.
Defined.

(** ** The people resolver *)

Lemma name_to_id_snoc people p :
  name_to_id (PeopleResolver_init (people ++ [p]))
  = <[person_name p := person_id p]> (name_to_id (PeopleResolver_init people)).
Proof. unfold PeopleResolver_init. cbn [name_to_id]. by rewrite foldl_app. Qed.

Lemma name_to_id_lookup people name :
  name_to_id (PeopleResolver_init people) !! name
  = person_id <$> last (filter (fun p => person_name p = name) people).
Proof.
  induction people as [|p people IH] using rev_ind; [reflexivity|].
  rewrite name_to_id_snoc, filter_app.
  destruct (decide (person_name p = name)) as [Heq|Hne].
  - rewrite Heq, lookup_insert_eq.
    rewrite (filter_cons_True _ p []) by exact Heq.
    by rewrite filter_nil, last_snoc.
  - rewrite lookup_insert_ne by exact Hne.
    rewrite (filter_cons_False _ p []) by exact Hne.
    by rewrite filter_nil, app_nil_r.
Qed.

(** X15. The resolver's table maps a name to the id of the last person of
    the list who bears it: when several people share a name, only the last
    one can be found, and a name nobody bears is not in the table. *)
Theorem people_resolver_last_name_wins (people : list Person) (name : string) :
  name_to_id (PeopleResolver_init people) !! name
  = person_id <$> last (filter (fun p => person_name p = name) people).
Proof. apply name_to_id_lookup. Qed.

Lemma resolve_loop_omap table names resolved_ids :
  resolve_loop table names resolved_ids
  = resolved_ids ++ omap (fun name => table !! name) names.
Proof.
  revert resolved_ids. induction names as [|name rest IH]; intros resolved_ids.
  - simpl. by rewrite app_nil_r.
  - cbn [resolve_loop]. simpl omap.
    destruct (table !! name) as [pid|].
    + by rewrite IH, <- app_assoc.
    + apply IH.
Qed.

Lemma resolve_people_names_omap self names :
  resolve_people_names self names
  = match omap (fun name => name_to_id self !! name) names with
    | [] => None
    | resolved_ids => Some resolved_ids
    end.
Proof.
  unfold resolve_people_names. rewrite resolve_loop_omap. simpl.
  by destruct names.
Qed.

(** X16. [resolve_people_names] returns the ids of the names it knows, in
    the order of the names, and drops the names it does not know; it returns
    [None], never an empty list, when it knows none of them. *)
Theorem resolve_people_names_spec (self : PeopleResolver) (names : list string) :
  resolve_people_names self names
  = match omap (fun name => name_to_id self !! name) names with
    | [] => None
    | resolved_ids => Some resolved_ids
    end.
Proof. apply resolve_people_names_omap. Qed.

(** ** Rule execution *)

Lemma Rule_execute_result_subset self client people_resolver :
  has_date_filters (rule_date_filters self) = true →
  result_of (Rule_execute self client people_resolver).1
  ⊆ search_assets client (base_search_params (rule_date_filters self)).
Proof.
  intros Hdates. unfold Rule_execute. rewrite Hdates. cbn [fst].
  rewrite result_of_bind. apply evaluate_subset_base.
Qed.

(** X17. A rule with a date range returns only assets that its first query,
    the one with the dates alone, returned: no condition of the tree can add
    an asset from outside the range. *)
Theorem Rule_execute_within_date_range
    (self : Rule) (client : Client) (people_resolver : option PeopleResolver) :
  has_date_filters (rule_date_filters self) = true →
  result_of (Rule_execute self client people_resolver).1
  ⊆ search_assets client (base_search_params (rule_date_filters self)).
Proof. apply Rule_execute_result_subset. Qed.

Lemma Rule_execute_within_date_range_witness :
  result_of (Rule_execute ann_favorites one_video_client None).1
  ⊆ search_assets one_video_client
      (base_search_params (rule_date_filters ann_favorites)).
Proof. apply Rule_execute_within_date_range. reflexivity. Defined.

Lemma resolve_old_format_people_leaf_count self people_resolver :
  leaf_count (resolve_old_format_people self people_resolver)
  = leaf_count (rule_condition_tree self).
Proof.
  unfold resolve_old_format_people.
  destruct (rule_filters self) as [f|]; [|reflexivity].
  destruct people_resolver as [resolver|]; [|reflexivity].
  destruct (truthy_list _); [|reflexivity].
  destruct (resolve_people_names _ _) as [[|pid pids]|]; try reflexivity.
  by destruct (rule_condition_tree self) as [ty cs [c|]].
Qed.

Lemma Rule_execute_search_calls self client people_resolver :
  (search_calls (calls_of (Rule_execute self client people_resolver).1)
   ≤ 1 + leaf_count (rule_condition_tree self))%nat.
Proof.
  unfold Rule_execute.
  rewrite <- (resolve_old_format_people_leaf_count self people_resolver).
  destruct (has_date_filters _); cbn [fst].
  - rewrite calls_of_bind, search_calls_app.
    change (search_calls (calls_of (call_search client
              (base_search_params (rule_date_filters self))))) with 1%nat.
    apply le_n_S, evaluate_search_calls.
  - etrans; [apply evaluate_search_calls|]. lia.
Qed.

(** X18. Executing a rule sends at most one search for each leaf of its
    condition tree, and one more for the date range. *)
Theorem Rule_execute_search_bound
    (self : Rule) (client : Client) (people_resolver : option PeopleResolver) :
  (search_calls (calls_of (Rule_execute self client people_resolver).1)
   ≤ 1 + leaf_count (rule_condition_tree self))%nat.
Proof. apply Rule_execute_search_calls. Qed.

Lemma set_person_ids_twice v w c :
  set_person_ids v (set_person_ids w c) = set_person_ids v c.
Proof. reflexivity. Qed.

Lemma resolve_old_format_people_again self people_resolver :
  resolve_old_format_people
    (mkRule (rule_taken_after self) (rule_taken_before self)
       (rule_created_after self) (rule_created_before self)
       (rule_filters self) (resolve_old_format_people self people_resolver))
    people_resolver
  = resolve_old_format_people self people_resolver.
Proof.
  unfold resolve_old_format_people. cbn [rule_filters rule_condition_tree].
  destruct (rule_filters self) as [f|]; [|reflexivity].
  destruct people_resolver as [resolver|]; [|reflexivity].
  destruct (truthy_list _); [|reflexivity].
  destruct (resolve_people_names _ _) as [[|pid pids]|]; try reflexivity.
  by destruct (rule_condition_tree self) as [ty cs [c|]].
Qed.

(** X19. [execute] writes the resolved person ids into the rule's tree, and
    doing so again changes nothing: a second execution with the same resolver
    starts from the tree the first one left and behaves as the first one
    would on the same client. *)
Theorem Rule_execute_again
    (self : Rule) (client client' : Client)
    (people_resolver : option PeopleResolver) :
  Rule_execute (Rule_execute self client people_resolver).2 client'
    people_resolver
  = Rule_execute self client' people_resolver.
Proof.
  assert (Hstate : (Rule_execute self client people_resolver).2
    = mkRule (rule_taken_after self) (rule_taken_before self)
        (rule_created_after self) (rule_created_before self)
        (rule_filters self) (resolve_old_format_people self people_resolver)).
  { unfold Rule_execute. by destruct (has_date_filters _). }
  rewrite Hstate. unfold Rule_execute at 1.
  rewrite resolve_old_format_people_again. reflexivity.
Qed.

Lemma omap_lookup_none (table : gmap string string) names :
  Forall (fun name => table !! name = None) names →
  omap (fun name => table !! name) names = [].
Proof.
  induction 1 as [|name names Hname _ IH]; [reflexivity|].
  simpl. by rewrite Hname.
Qed.

Lemma omap_unknown_names people names :
  Forall (fun name => Forall (fun p => person_name p ≠ name) people) names →
  omap (fun name => name_to_id (PeopleResolver_init people) !! name) names = [].
Proof.
  intros Hnames. apply omap_lookup_none.
  eapply Forall_impl; [exact Hnames|]. intros name Hname.
  rewrite name_to_id_lookup.
  assert (filter (fun p => person_name p = name) people = []) as ->.
  { clear Hnames. induction Hname as [|p people' Hp _ IHp]; [reflexivity|].
    rewrite filter_cons_False by exact Hp. exact IHp. }
  reflexivity.
Qed.

Lemma Rule_execute_unknown_people self client people :
  (∀ f, rule_filters self = Some f →
        Forall (fun name => Forall (fun p => person_name p ≠ name) people)
          (rf_include_people f)) →
  Rule_execute self client (Some (PeopleResolver_init people))
  = Rule_execute self client None.
Proof.
  intros Hunknown.
  assert (Htree :
    resolve_old_format_people self (Some (PeopleResolver_init people))
    = resolve_old_format_people self None).
  { unfold resolve_old_format_people.
    destruct (rule_filters self) as [f|]; [|reflexivity].
    rewrite resolve_people_names_omap, omap_unknown_names by auto.
    by destruct (truthy_list _). }
  unfold Rule_execute. by rewrite Htree.
Qed.

(** X20. In a rule of the old filters format, people that the resolver does
    not know are dropped without a trace: when nobody in the list of people
    bears any of the rule's names, the rule executes exactly as it does
    without a resolver, with no person in any query. *)
Theorem Rule_execute_drops_unknown_people
    (self : Rule) (client : Client) (people : list Person) :
  (∀ f, rule_filters self = Some f →
        Forall (fun name => Forall (fun p => person_name p ≠ name) people)
          (rf_include_people f)) →
  Rule_execute self client (Some (PeopleResolver_init people))
  = Rule_execute self client None.
Proof. apply Rule_execute_unknown_people. Qed.

Lemma Rule_execute_drops_unknown_people_witness :
  Rule_execute ann_favorites one_video_client
    (Some (PeopleResolver_init [mkPerson "Bob" "p1"]))
  = Rule_execute ann_favorites one_video_client None.
Proof.
  apply Rule_execute_drops_unknown_people.
  intros f [= <-]. repeat constructor. discriminate.
Defined.

(** ** The proximity matcher *)

Lemma fetch_single_result lib client aid :
  result_of (fetch_single lib client aid)
  = match get_asset_metadata client aid with
    | Some data =>
        match _extract_metadata lib data with
        | inr metadata => metadata
        | inl _ => None
        end
    | None => None
    end.
Proof. reflexivity. Qed.

Lemma elem_of_fetch_all lib client ids m :
  m ∈ result_of (fetch_all lib client ids)
  ↔ ∃ aid, aid ∈ ids ∧ result_of (fetch_single lib client aid) = Some m.
Proof.
  induction ids as [|aid rest IH].
  - split; [by intros ?%elem_of_nil|]. by intros (? & ?%elem_of_nil & _).
  - cbn [fetch_all]. rewrite !result_of_bind.
    change (result_of (ret ?x)) with x.
    destruct (result_of (fetch_single lib client aid)) as [m'|] eqn:Hm.
    + rewrite elem_of_cons, IH. split.
      * intros [->|(aid' & Hin & Hf)].
        -- exists aid. split; [left|exact Hm].
        -- exists aid'. split; [by right|exact Hf].
      * intros (aid' & [->|Hin]%elem_of_cons & Hf).
        -- left. congruence.
        -- right. eauto.
    + rewrite IH. split.
      * intros (aid' & Hin & Hf). exists aid'. split; [by right|exact Hf].
      * intros (aid' & [->|Hin]%elem_of_cons & Hf); [congruence|eauto].
Qed.

Lemma near_any_seed_true self candidate_time candidate exact_metadata :
  near_any_seed self candidate_time candidate exact_metadata = true
  ↔ ∃ exact, exact ∈ exact_metadata
             ∧ within_proximity self candidate_time candidate exact = true.
Proof.
  induction exact_metadata as [|exact rest IH]; cbn [near_any_seed].
  - split; [discriminate|]. by intros (? & ?%elem_of_nil & _).
  - destruct (within_proximity self candidate_time candidate exact) eqn:Hw.
    + split; [|done]. intros _. exists exact. split; [left|exact Hw].
    + rewrite IH. split.
      * intros (e & Hin & He). exists e. split; [by right|exact He].
      * intros (e & [->|Hin]%elem_of_cons & He); [congruence|eauto].
Qed.

Lemma elem_of_proximity_loop self candidate_metadata exact_metadata acc a :
  a ∈ proximity_loop self candidate_metadata exact_metadata acc
  ↔ a ∈ acc
    ∨ ∃ candidate candidate_time,
        candidate ∈ candidate_metadata ∧ asset_id candidate = a
        ∧ timestamp candidate = Some candidate_time
        ∧ near_any_seed self candidate_time candidate exact_metadata = true.
Proof.
  revert acc. induction candidate_metadata as [|c rest IH]; intros acc;
    cbn [proximity_loop].
  - split; [by left|]. intros [?|(? & ? & ?%elem_of_nil & _)]; done.
  - rewrite IH. split.
    + intros [Hacc|(c' & t' & Hin & Hid & Ht & Hnear)].
      * destruct (timestamp c) as [t|] eqn:Ht; [|by left].
        destruct (near_any_seed self t c exact_metadata) eqn:Hnear; [|by left].
        apply elem_of_union in Hacc as [Hacc|Hc%elem_of_singleton]; [by left|].
        right. exists c, t. split; [left|]. done.
      * right. exists c', t'. split; [by right|done].
    + intros [Hacc|(c' & t' & [->|Hin]%elem_of_cons & Hid & Ht & Hnear)].
      * left. destruct (timestamp c) as [t|]; [|done].
        destruct (near_any_seed self t c exact_metadata); set_solver.
      * left. rewrite Ht, Hnear. set_solver.
      * right. eauto 10.
Qed.

Lemma elem_of_filter_by_proximity lib self candidates exact_metadata a :
  a ∈ result_of (_filter_by_proximity lib self candidates exact_metadata)
  ↔ ∃ aid candidate candidate_time exact,
      aid ∈ candidates
      ∧ result_of (fetch_single lib (fm_client self) aid) = Some candidate
      ∧ asset_id candidate = a
      ∧ timestamp candidate = Some candidate_time
      ∧ exact ∈ exact_metadata
      ∧ within_proximity self candidate_time candidate exact = true.
Proof.
  unfold _filter_by_proximity. case_bool_decide as Hempty.
  - subst. change (result_of (ret ?x)) with x. split; [set_solver|].
    intros (aid & ? & ? & ? & Hin & _). set_solver.
  - rewrite result_of_bind. unfold _fetch_asset_metadata.
    assert (Hloop :
      a ∈ proximity_loop self
            (result_of (fetch_all lib (fm_client self) (elements candidates)))
            exact_metadata ∅
      ↔ ∃ aid candidate candidate_time exact,
          aid ∈ candidates
          ∧ result_of (fetch_single lib (fm_client self) aid) = Some candidate
          ∧ asset_id candidate = a
          ∧ timestamp candidate = Some candidate_time
          ∧ exact ∈ exact_metadata
          ∧ within_proximity self candidate_time candidate exact = true).
    { rewrite elem_of_proximity_loop. split.
      - intros [?|(c & t & Hin & Hid & Ht & Hnear)]; [set_solver|].
        apply elem_of_fetch_all in Hin as (aid & Haid & Hf).
        apply near_any_seed_true in Hnear as (e & He & Hw).
        exists aid, c, t, e. rewrite elem_of_elements in Haid. done.
      - intros (aid & c & t & e & Haid & Hf & Hid & Ht & He & Hw). right.
        exists c, t. split; [|split; [done|split; [done|]]].
        + apply elem_of_fetch_all. exists aid.
          by rewrite elem_of_elements.
        + apply near_any_seed_true. eauto. }
    destruct (result_of (fetch_all lib (fm_client self) (elements candidates)))
      as [|m ms] eqn:Hfetch; [|exact Hloop].
    change (result_of (ret ?x)) with x. rewrite <- Hloop.
    cbn [proximity_loop]. done.
Qed.






(** *** Time boundaries *)

Lemma clamp_start_ok lib (bound : option string) start start' :
  match bound with
  | Some text => result_bind (parse_rule_date lib text)
                   (fun rule_start => ok (Z.max start rule_start))
  | None => ok start
  end = ok start' →
  (start ≤ start')%Z
  ∧ match bound with
    | Some text =>
        ∃ rule_start, parse_iso8601 lib text = Some rule_start
                      ∧ start' = Z.max start rule_start
    | None => start' = start
    end.
Proof.
  destruct bound as [text|]; [|intros [= <-]; split; [lia|done]].
  unfold parse_rule_date. destruct (parse_iso8601 lib text) as [t|];
    [|discriminate].
  intros [= <-]. split; [lia|]. eauto.
Qed.

Lemma clamp_end_ok lib (bound : option string) stop stop' :
  match bound with
  | Some text => result_bind (parse_rule_date lib text)
                   (fun rule_end => ok (Z.min stop rule_end))
  | None => ok stop
  end = ok stop' →
  (stop' ≤ stop)%Z
  ∧ match bound with
    | Some text =>
        ∃ rule_end, parse_iso8601 lib text = Some rule_end
                    ∧ stop' = Z.min stop rule_end
    | None => stop' = stop
    end.
Proof.
  destruct bound as [text|]; [|intros [= <-]; split; [lia|done]].
  unfold parse_rule_date. destruct (parse_iso8601 lib text) as [t|];
    [|discriminate].
  intros [= <-]. split; [lia|]. eauto.
Qed.

Lemma _calculate_time_boundaries_ok lib self metadata_list rule_date_filters
    start_time end_time :
  _calculate_time_boundaries lib self metadata_list rule_date_filters
  = ok (start_time, end_time) →
  ∃ t ts s0 e0 s1 e1,
    usable_timestamps metadata_list = t :: ts
    ∧ s0 = (foldr Z.min t ts - time_window self)%Z
    ∧ e0 = (foldr Z.max t ts + time_window self)%Z
    ∧ (s0 ≤ s1)%Z ∧ (s1 ≤ start_time)%Z
    ∧ (end_time ≤ e1)%Z ∧ (e1 ≤ e0)%Z
    ∧ match taken_after rule_date_filters with
      | Some text => ∃ b, parse_iso8601 lib text = Some b ∧ s1 = Z.max s0 b
      | None => s1 = s0
      end
    ∧ match taken_before rule_date_filters with
      | Some text => ∃ b, parse_iso8601 lib text = Some b ∧ e1 = Z.min e0 b
      | None => e1 = e0
      end
    ∧ match created_after rule_date_filters with
      | Some text =>
          ∃ b, parse_iso8601 lib text = Some b ∧ start_time = Z.max s1 b
      | None => start_time = s1
      end
    ∧ match created_before rule_date_filters with
      | Some text =>
          ∃ b, parse_iso8601 lib text = Some b ∧ end_time = Z.min e1 b
      | None => end_time = e1
      end.
Proof.
  unfold _calculate_time_boundaries.
  destruct (usable_timestamps metadata_list) as [|t ts]; [discriminate|].
  intros (s1 & Hs1 & (e1 & He1 & (s2 & Hs2 & (e2 & He2 & [= <- <-])
    %result_bind_ok)%result_bind_ok)%result_bind_ok)%result_bind_ok.
  apply clamp_start_ok in Hs1 as [Hs1 Hs1'].
  apply clamp_end_ok in He1 as [He1 He1'].
  apply clamp_start_ok in Hs2 as [Hs2 Hs2'].
  apply clamp_end_ok in He2 as [He2 He2'].
  exists t, ts, (foldr Z.min t ts - time_window self)%Z,
    (foldr Z.max t ts + time_window self)%Z, s1, e1.
  repeat split; auto.
Qed.

(** X23. The window [_calculate_time_boundaries] returns never reaches
    beyond a date of the rule: it starts no earlier than [taken_after] and
    [created_after], and ends no later than [taken_before] and
    [created_before], whichever of them the rule has. *)
Theorem time_boundaries_within_rule_dates
    (lib : Library) (self : FuzzyMatcher) (metadata_list : list AssetMetadata)
    (rule_date_filters : DateFilters) (start_time end_time : Z) :
  _calculate_time_boundaries lib self metadata_list rule_date_filters
  = ok (start_time, end_time) →
  (∀ text, taken_after rule_date_filters = Some text →
     ∃ b, parse_iso8601 lib text = Some b ∧ (b ≤ start_time)%Z)
  ∧ (∀ text, created_after rule_date_filters = Some text →
       ∃ b, parse_iso8601 lib text = Some b ∧ (b ≤ start_time)%Z)
  ∧ (∀ text, taken_before rule_date_filters = Some text →
       ∃ b, parse_iso8601 lib text = Some b ∧ (end_time ≤ b)%Z)
  ∧ (∀ text, created_before rule_date_filters = Some text →
       ∃ b, parse_iso8601 lib text = Some b ∧ (end_time ≤ b)%Z).
Proof.
  intros Hok. apply _calculate_time_boundaries_ok in Hok
    as (t & ts & s0 & e0 & s1 & e1 & _ & _ & _ & Hs01 & Hs1 & He1 & He10
        & Hta & Htb & Hca & Hcb).
  repeat split.
  - intros text Htext. rewrite Htext in Hta. destruct Hta as (b & Hb & ->).
    exists b. split; [exact Hb|lia].
  - intros text Htext. rewrite Htext in Hca. destruct Hca as (b & Hb & ->).
    exists b. split; [exact Hb|lia].
  - intros text Htext. rewrite Htext in Htb. destruct Htb as (b & Hb & ->).
    exists b. split; [exact Hb|lia].
  - intros text Htext. rewrite Htext in Hcb. destruct Hcb as (b & Hb & ->).
    exists b. split; [exact Hb|lia].
Qed.

Lemma time_boundaries_within_rule_dates_witness :
  (∀ text, taken_after (mkDateFilters (Some noon) None None None) = Some text →
     ∃ b, parse_iso8601 example_library text = Some b ∧ (b ≤ noon_time)%Z)
  ∧ (∀ text, created_after (mkDateFilters (Some noon) None None None)
             = Some text →
       ∃ b, parse_iso8601 example_library text = Some b ∧ (b ≤ noon_time)%Z)
  ∧ (∀ text, taken_before (mkDateFilters (Some noon) None None None)
             = Some text →
       ∃ b, parse_iso8601 example_library text = Some b
            ∧ (noon_time + 14400000000 ≤ b)%Z)
  ∧ (∀ text, created_before (mkDateFilters (Some noon) None None None)
             = Some text →
       ∃ b, parse_iso8601 example_library text = Some b
            ∧ (noon_time + 14400000000 ≤ b)%Z).
Proof.
  apply (time_boundaries_within_rule_dates example_library
           (FuzzyMatcher_init created_at_noon_client 240 100)
           [created_at_noon "s1"]).
  reflexivity.
Defined.

Lemma foldr_min_le t ts x :
  x ∈ t :: ts → (foldr Z.min t ts ≤ x)%Z.
Proof.
  induction ts as [|u ts IH]; simpl.
  - intros ->%list_elem_of_singleton. lia.
  - intros [->|[->|Hin]%elem_of_cons]%elem_of_cons.
    + etrans; [apply Z.le_min_r|]. apply IH. left.
    + apply Z.le_min_l.
    + etrans; [apply Z.le_min_r|]. apply IH. by right.
Qed.

Lemma foldr_max_ge t ts x :
  x ∈ t :: ts → (x ≤ foldr Z.max t ts)%Z.
Proof.
  induction ts as [|u ts IH]; simpl.
  - intros ->%list_elem_of_singleton. lia.
  - intros [->|[->|Hin]%elem_of_cons]%elem_of_cons.
    + etrans; [|apply Z.le_max_r]. apply IH. left.
    + apply Z.le_max_l.
    + etrans; [|apply Z.le_max_r]. apply IH. by right.
Qed.

(** X24. For a rule without dates the window covers every seed with its
    margin: it starts at least the time window before each seed's timestamp
    and ends at least the time window after it. *)
Theorem time_boundaries_cover_seeds
    (lib : Library) (self : FuzzyMatcher) (metadata_list : list AssetMetadata)
    (rule_date_filters : DateFilters) (start_time end_time : Z)
    (m : AssetMetadata) (t : Z) :
  has_date_filters rule_date_filters = false →
  _calculate_time_boundaries lib self metadata_list rule_date_filters
  = ok (start_time, end_time) →
  m ∈ metadata_list → timestamp m = Some t →
  (start_time ≤ t - time_window self)%Z ∧ (t + time_window self ≤ end_time)%Z.
Proof.
  intros Hnone Hok Hm Ht.
  apply _calculate_time_boundaries_ok in Hok
    as (t0 & ts & s0 & e0 & s1 & e1 & Husable & -> & -> & _ & _ & _ & _
        & Hta & Htb & Hca & Hcb).
  unfold has_date_filters in Hnone.
  destruct (taken_after rule_date_filters); [discriminate|].
  destruct (taken_before rule_date_filters); [discriminate|].
  destruct (created_after rule_date_filters); [discriminate|].
  destruct (created_before rule_date_filters); [discriminate|].
  subst.
  assert (Hin : t ∈ t0 :: ts).
  { rewrite <- Husable. apply list_elem_of_omap. eauto. }
  pose proof (foldr_min_le _ _ _ Hin). pose proof (foldr_max_ge _ _ _ Hin).
  lia.
Qed.

Lemma time_boundaries_cover_seeds_witness :
  (noon_time - 14400000000
   ≤ noon_time - time_window (FuzzyMatcher_init created_at_noon_client 240 100))%Z
  ∧ (noon_time + time_window (FuzzyMatcher_init created_at_noon_client 240 100)
     ≤ noon_time + 14400000000)%Z.
Proof.
  apply (time_boundaries_cover_seeds example_library
           (FuzzyMatcher_init created_at_noon_client 240 100)
           [created_at_noon "s1"] no_rule_dates _ _ (created_at_noon "s1")).
  - reflexivity.
  - reflexivity.
  - left.
  - reflexivity.
Defined.

(** *** The whole search *)





Lemma find_related_assets_result lib self exact_match_ids rule_date_filters s :
  result_of (find_related_assets lib self exact_match_ids rule_date_filters)
  = ok s →
  s = ∅
  ∨ ∃ exact_metadata start_time end_time,
      exact_metadata
      = result_of (_fetch_asset_metadata lib self (seeds_of lib exact_match_ids))
      ∧ _calculate_time_boundaries lib self exact_metadata rule_date_filters
        = ok (start_time, end_time)
      ∧ s = result_of
              (_filter_by_proximity lib self
                 (result_of (_query_candidates lib self start_time end_time
                               rule_date_filters))
                 exact_metadata)
            ∖ exact_match_ids.
Proof.
  unfold find_related_assets. case_bool_decide as Hempty.
  { intros [= <-]. by left. }
  rewrite result_of_bind.
  destruct (result_of (_fetch_asset_metadata lib self
                         (seeds_of lib exact_match_ids)))
    as [|m ms] eqn:Hmeta; [intros [= <-]; by left|].
  destruct (_calculate_time_boundaries lib self (m :: ms) rule_date_filters)
    as [e|[start_time end_time]] eqn:Hcalc; [discriminate|].
  rewrite result_of_bind. case_bool_decide as Hcand.
  { intros [= <-]. by left. }
  rewrite result_of_bind. intros [= <-]. right.
  exists (m :: ms), start_time, end_time. done.
Qed.

(** X26. [find_related_assets] never returns one of the exact matches it
    was given. *)
Theorem find_related_assets_excludes_exact
    (lib : Library) (self : FuzzyMatcher) (exact_match_ids : gset string)
    (rule_date_filters : DateFilters) (s : gset string) :
  result_of (find_related_assets lib self exact_match_ids rule_date_filters)
  = ok s →
  s ## exact_match_ids.
Proof.
  intros [->|(ms & st & en & _ & _ & ->)]%find_related_assets_result;
    set_solver.
Qed.

Lemma find_related_assets_excludes_exact_witness :
  ({["c1"]} : gset string) ## {["s1"]}.
Proof.
  apply (find_related_assets_excludes_exact example_library
           (FuzzyMatcher_init created_at_noon_client 240 100) {["s1"]}
           no_rule_dates).
  reflexivity.
Defined.

Lemma size_list_to_set_le (l : list string) :
  (size (list_to_set l : gset string) ≤ length l)%nat.
Proof.
  induction l as [|x l IH].
  - by rewrite list_to_set_nil, size_empty.
  - rewrite list_to_set_cons, size_union_alt, size_singleton. cbn [length].
    assert (Hsub : list_to_set l ∖ {[x]} ⊆ (list_to_set l : gset string))
      by set_solver.
    apply subseteq_size in Hsub. lia.
Qed.

(** X27. At most [MAX_FUZZY_SEEDS] seeds are used, all of them exact
    matches, provided [random.sample] returns a list of at most the length
    asked for, drawn from the population. *)
Theorem seeds_of_bounded (lib : Library) (exact_match_ids : gset string) :
  (∀ population k, (length (random_sample lib population k) ≤ k)%nat) →
  (∀ population k x, x ∈ random_sample lib population k → x ∈ population) →
  (size (seeds_of lib exact_match_ids) ≤ MAX_FUZZY_SEEDS)%nat
  ∧ seeds_of lib exact_match_ids ⊆ exact_match_ids.
Proof.
  intros Hlen Hsub. unfold seeds_of.
  destruct (Nat.ltb_spec MAX_FUZZY_SEEDS (size exact_match_ids)) as [Hbig|Hsmall].
  - split.
    + etrans; [apply size_list_to_set_le|]. apply Hlen.
    + intros x Hx%elem_of_list_to_set. apply Hsub in Hx.
      by apply elem_of_elements in Hx.
  - split; [exact Hsmall|done].
Qed.

Lemma seeds_of_bounded_witness :
  (size (seeds_of example_library {["s1"; "c1"]}) ≤ MAX_FUZZY_SEEDS)%nat
  ∧ seeds_of example_library {["s1"; "c1"]} ⊆ {["s1"; "c1"]}.
Proof.
  apply seeds_of_bounded.
  - intros population k. cbn [random_sample example_library].
    rewrite length_take. lia.
  - intros population k x. cbn [random_sample example_library].
    apply subseteq_take.
Defined.

Lemma haversine_swap lat1 lon1 lat2 lon2 :
  _haversine_distance lat1 lon1 lat2 lon2
  = _haversine_distance lat2 lon2 lat1 lon1.
Proof.
  unfold _haversine_distance. cbv zeta.
  replace ((radians lat1 - radians lat2) / 2)%R
    with (- ((radians lat2 - radians lat1) / 2))%R by field.
  replace ((radians lon1 - radians lon2) / 2)%R
    with (- ((radians lon2 - radians lon1) / 2))%R by field.
  rewrite !sin_neg.
  replace ((- sin ((radians lat2 - radians lat1) / 2)) ^ 2
           + cos (radians lat2) * cos (radians lat1)
             * (- sin ((radians lon2 - radians lon1) / 2)) ^ 2)%R
    with (sin ((radians lat2 - radians lat1) / 2) ^ 2
          + cos (radians lat1) * cos (radians lat2)
            * sin ((radians lon2 - radians lon1) / 2) ^ 2)%R by ring.
  reflexivity.
Qed.

(** X28. The haversine distance does not depend on the order of the two
    points, so a candidate is as far from a seed as the seed is from it. *)
Theorem haversine_symmetric (lat1 lon1 lat2 lon2 : R) :
  _haversine_distance lat1 lon1 lat2 lon2
  = _haversine_distance lat2 lon2 lat1 lon1.
Proof. apply haversine_swap. Qed.

Lemma _extract_metadata_asset_id lib asset m :
  _extract_metadata lib asset = ok (Some m) → asset_id m = asset_json_id asset.
Proof.
  unfold _extract_metadata. destruct (get_exifInfo asset) as [e|exif];
    [discriminate|]. cbn [result_bind]. intros H.
  repeat case_match; simplify_eq; reflexivity.
Qed.

Lemma _query_candidates_call lib self start_time end_time rule_date_filters :
  ∃ p, _query_candidates lib self start_time end_time rule_date_filters
       = call_search (fm_client self) p
       ∧ sp_asset_types p = Some ["IMAGE"; "VIDEO"]
       ∧ sp_default_to_image p = false.
Proof.
  unfold _query_candidates. destruct (_ || _); eexists; done.
Qed.

Lemma find_related_assets_from_search lib self exact_match_ids
    rule_date_filters s a :
  (∀ aid data, get_asset_metadata (fm_client self) aid = Some data →
               asset_json_id data = aid) →
  result_of (find_related_assets lib self exact_match_ids rule_date_filters)
  = ok s →
  a ∈ s →
  ∃ p, SearchCall p
         ∈ calls_of (find_related_assets lib self exact_match_ids
                       rule_date_filters)
       ∧ a ∈ search_assets (fm_client self) p
       ∧ sp_asset_types p = Some ["IMAGE"; "VIDEO"]
       ∧ sp_default_to_image p = false.
Proof.
  intros Hcoherent. unfold find_related_assets. case_bool_decide as Hempty.
  { intros [= <-]. set_solver. }
  rewrite result_of_bind, calls_of_bind.
  destruct (result_of (_fetch_asset_metadata lib self
                         (seeds_of lib exact_match_ids)))
    as [|m ms] eqn:Hmeta; [intros [= <-]; set_solver|].
  destruct (_calculate_time_boundaries lib self (m :: ms) rule_date_filters)
    as [e|[start_time end_time]] eqn:Hcalc; [discriminate|].
  rewrite result_of_bind, calls_of_bind.
  destruct (_query_candidates_call lib self start_time end_time
              rule_date_filters) as (p & Hq & Htypes & Hdefault).
  rewrite Hq. change (result_of (call_search (fm_client self) p))
    with (search_assets (fm_client self) p).
  case_bool_decide as Hcand; [intros [= <-]; set_solver|].
  rewrite result_of_bind. intros [= <-] [Ha _]%elem_of_difference.
  apply elem_of_filter_by_proximity
    in Ha as (aid & c & t & ex & Haid & Hfetch & Hid & _).
  rewrite fetch_single_result in Hfetch.
  destruct (get_asset_metadata (fm_client self) aid) as [data|] eqn:Hdata;
    [|discriminate].
  destruct (_extract_metadata lib data) as [e|metadata] eqn:Hextract;
    [discriminate|]. subst metadata.
  apply _extract_metadata_asset_id in Hextract as Hfetch.
  rewrite (Hcoherent _ _ Hdata) in Hfetch.
  exists p. split; [|split; [congruence|done]].
  apply elem_of_app. right. apply elem_of_app. left.
  unfold calls_of, call_search. simpl. left.
Qed.

(** X29. With a client that answers a metadata request with the asset
    asked for, every asset [find_related_assets] returns was returned by the
    search it sent, a search for images and videos that does not default to
    images. *)
Theorem fuzzy_matches_come_from_the_search
    (lib : Library) (self : FuzzyMatcher) (exact_match_ids : gset string)
    (rule_date_filters : DateFilters) (s : gset string) (a : string) :
  (∀ aid data, get_asset_metadata (fm_client self) aid = Some data →
               asset_json_id data = aid) →
  result_of (find_related_assets lib self exact_match_ids rule_date_filters)
  = ok s →
  a ∈ s →
  ∃ p, SearchCall p
         ∈ calls_of (find_related_assets lib self exact_match_ids
                       rule_date_filters)
       ∧ a ∈ search_assets (fm_client self) p
       ∧ sp_asset_types p = Some ["IMAGE"; "VIDEO"]
       ∧ sp_default_to_image p = false.
Proof. apply find_related_assets_from_search. Qed.

Lemma fuzzy_matches_come_from_the_search_witness :
  ∃ p, SearchCall p
         ∈ calls_of (find_related_assets example_library
                       (FuzzyMatcher_init created_at_noon_client 240 100)
                       {["s1"]} no_rule_dates)
       ∧ "c1" ∈ search_assets
                  (fm_client (FuzzyMatcher_init created_at_noon_client 240 100))
                  p
       ∧ sp_asset_types p = Some ["IMAGE"; "VIDEO"]
       ∧ sp_default_to_image p = false.
Proof.
  apply (fuzzy_matches_come_from_the_search example_library
           (FuzzyMatcher_init created_at_noon_client 240 100) {["s1"]}
           no_rule_dates {["c1"]}).
  - intros aid data. cbn [fm_client FuzzyMatcher_init get_asset_metadata
                           created_at_noon_client].
    destruct (_ || _); [|discriminate]. by intros [= <-].
  - reflexivity.
  - by apply elem_of_singleton.
Defined.


(** ** The user resolver *)

Lemma foldl_insert_lookup {A} (key value : A → string) (l : list A) k v :
  foldl (fun m x => <[key x := value x]> m) (∅ : gmap string string) l !! k
  = Some v →
  ∃ x, x ∈ l ∧ key x = k ∧ value x = v.
Proof.
  induction l as [|y l IH] using rev_ind;
    [cbn [foldl]; by rewrite lookup_empty|].
  rewrite foldl_app. cbn [foldl].
  destruct (decide (key y = k)) as [Heq|Hne].
  - rewrite Heq, lookup_insert_eq. intros [= <-]. exists y.
    split; [apply elem_of_app; right; left|done].
  - rewrite lookup_insert_ne by exact Hne. intros (x & Hx & Hk)%IH.
    exists x. split; [apply elem_of_app; by left|done].
Qed.

Lemma _resolve_identifier_known users owner identifier uid :
  _resolve_identifier (set_owner (UserResolver_init users) owner) identifier
  = Some uid →
  ∃ u, u ∈ users ∧ user_id u = uid.
Proof.
  unfold _resolve_identifier. cbn [email_to_id id_to_email set_owner
                                    UserResolver_init].
  destruct (foldl (fun m u => <[user_email u := user_id u]> m) ∅ users
              !! identifier) as [found|] eqn:Hemail.
  - intros [= <-].
    apply foldl_insert_lookup in Hemail as (u & Hu & _ & Hid). eauto.
  - destruct (foldl (fun m u => <[user_id u := user_email u]> m) ∅ users
                !! identifier) as [email|] eqn:Hid; [|discriminate].
    intros [= <-].
    apply foldl_insert_lookup in Hid as (u & Hu & Hid & _). eauto.
Qed.

Lemma share_loop_elem self identifiers resolved_ids x :
  x ∈ share_loop self identifiers resolved_ids →
  x ∈ resolved_ids
  ∨ (is_not_owner self x = true
     ∧ ∃ identifier, identifier ∈ identifiers
                     ∧ _resolve_identifier self identifier = Some x).
Proof.
  revert resolved_ids. induction identifiers as [|identifier rest IH];
    intros resolved_ids; cbn [share_loop]; [by left|].
  destruct (_resolve_identifier self identifier) as [uid|] eqn:Hres.
  - change (default "" (Some uid)) with uid.
    destruct (truthy_str (Some uid) && is_not_owner self uid) eqn:Hkeep.
    + intros [[Hx|Hx%list_elem_of_singleton]%elem_of_app|(Hown & i & Hi & Hr)]%IH.
      * by left.
      * subst x. apply andb_prop in Hkeep as [_ Hown]. right.
        split; [exact Hown|]. exists identifier. split; [left|exact Hres].
      * right. split; [exact Hown|]. exists i. split; [by right|exact Hr].
    + intros [Hx|(Hown & i & Hi & Hr)]%IH; [by left|].
      right. split; [exact Hown|]. exists i. split; [by right|exact Hr].
  - cbn [truthy_str andb]. intros [Hx|(Hown & i & Hi & Hr)]%IH; [by left|].
    right. split; [exact Hown|]. exists i. split; [by right|exact Hr].
Qed.

(** X30. [resolve_share_identifiers] never shares with the owner and only
    with known users: once the owner is set, every id it returns is the id
    of a user of the list the resolver was built from, and none is the
    owner's. *)
Theorem share_excludes_owner
    (users : list User) (owner : string) (share_with : option ShareWith)
    (ids : list string) (x : string) :
  resolve_share_identifiers (set_owner (UserResolver_init users) owner)
    share_with = Some ids →
  x ∈ ids →
  x ≠ owner ∧ ∃ u, u ∈ users ∧ user_id u = x.
Proof.
  unfold resolve_share_identifiers.
  destruct share_with as [[s|identifiers]|]; [| |discriminate].
  - case_bool_decide; [|discriminate]. intros [= <-].
    intros (u & -> & Hu)%list_elem_of_fmap.
    apply list_elem_of_In, List.filter_In in Hu as [Hu Hown].
    apply list_elem_of_In in Hu. split; [|eauto].
    unfold is_not_owner in Hown. cbn [owner_id set_owner] in Hown.
    apply negb_true_iff, bool_decide_eq_false in Hown. congruence.
  - intros Hloop Hx.
    assert (Hin : x ∈ share_loop (set_owner (UserResolver_init users) owner)
                       identifiers []).
    { destruct (share_loop _ identifiers []); [discriminate|].
      by injection Hloop as <-. }
    apply share_loop_elem in Hin as [?%elem_of_nil|(Hown & i & _ & Hr)]; [done|].
    split.
    + unfold is_not_owner in Hown. cbn [owner_id set_owner] in Hown.
      apply negb_true_iff, bool_decide_eq_false in Hown. congruence.
    + by eapply _resolve_identifier_known.
Qed.

Lemma share_excludes_owner_witness :
  "u2" ≠ "u1" ∧ ∃ u, u ∈ ann_and_bob ∧ user_id u = "u2".
Proof.
  apply (share_excludes_owner ann_and_bob "u1"
           (Some (ShareList ["ann@example.com"; "u2"; "nobody"])) ["u2"]).
  - reflexivity.
  - left.
Defined.
